(** * kantra: provider orchestration of the containerless analysis

    A shallow embedding of [cmd/analyze-bin.go] and of the two functions
    of the analyze command's own file that the specification covers
    ([getLabelSelector], [copyFileContents]), followed by the properties
    of the specification that were checked against it.

    Go values are modelled as follows.
    - [string] is Rocq's [string]; Go compares strings bytewise, as
      [String.compare] does.
    - A slice is a [list]; a nil slice and an empty slice are both [[]]
      (the code only tests [len] or [== nil] on slices that are nil
      exactly when nothing was appended).
    - A Go map that is iterated is a list of pairs in the order the
      iteration visits it: Go leaves that order unspecified, so every
      statement quantifies over the list.
    - [os.Exit] and [return] are the two ways a function ends; they are
      kept apart by [result]. *)

From Stdlib Require Import String Ascii ZArith List Sorted Permutation OrderedTypeEx.
From Stdlib Require Import Decimal DecimalString DecimalNat.
From stdpp Require Import base option list gmap strings sorting.

Open Scope string_scope.
Open Scope list_scope.

(* ===================================================================== *)
(** * Part I: the program *)
(* ===================================================================== *)

(** ** Label constants of the output package *)

(** [outputv1.SourceTechnologyLabel] and [outputv1.TargetTechnologyLabel]
    are constants of the analyzer library, not of this repository; the
    functions below take them as a parameter. *)
Record outputv1 : Type := {
  SourceTechnologyLabel : string;
  TargetTechnologyLabel : string;
}.

(** Modelled from the spec: the two label constants, which the
    specification writes [source] and [target] in its selector grammar. *)
Definition spec_labels : outputv1 :=
  {| SourceTechnologyLabel := "source"; TargetTechnologyLabel := "target" |}.

(** ** The analyze command (the fields the modelled functions read) *)

Record analyzeCommand : Type := {
  skipStaticReport : bool;
  sources : list string;
  targets : list string;
  input : string;
  output : string;
  mode : string;
  rules : list string;
}.

(** [fmt.Sprintf("%s=%s", label, v)] *)
Definition sprintf_eq (label v : string) : string := label +:+ "=" +:+ v.

(** [fmt.Sprintf("(%s)", s)] *)
Definition sprintf_paren (s : string) : string := "(" +:+ s +:+ ")".

(** [strings.Join] is [String.concat] with the separator first. *)
Definition strings_Join (elems : list string) (sep : string) : string :=
  String.concat sep elems.

(** [fmt.Sprintf("(%s && %s) || (%s)", x, y, d)] *)
Definition sprintf_and_or (x y d : string) : string :=
  "(" +:+ x +:+ " && " +:+ y +:+ ") || (" +:+ d +:+ ")".

(** [fmt.Sprintf("%s || (%s)", x, d)] *)
Definition sprintf_or (x d : string) : string :=
  x +:+ " || (" +:+ d +:+ ")".

(** [len(l) > 0] *)
Definition nonempty {A : Type} (l : list A) : bool :=
  match l with [] => false | _ :: _ => true end.

(** [s != ""] *)
Definition nonblank (s : string) : bool :=
  match s with EmptyString => false | String _ _ => true end.

(** [analyzeCommand.getLabelSelector] *)
Definition getLabelSelector (lbl : outputv1) (a : analyzeCommand) : string :=
  if negb (nonempty (sources a)) && negb (nonempty (targets a)) then ""
  else
    let defaultLabels := ["discovery"] in
    let targets := map (sprintf_eq (TargetTechnologyLabel lbl)) (targets a) in
    let sources := map (sprintf_eq (SourceTechnologyLabel lbl)) (sources a) in
    let targetExpr :=
      if nonempty targets then sprintf_paren (strings_Join targets " || ") else "" in
    let sourceExpr :=
      if nonempty sources then sprintf_paren (strings_Join sources " || ") else "" in
    if nonblank targetExpr then
      if nonblank sourceExpr then
        sprintf_and_or targetExpr sourceExpr (strings_Join defaultLabels " || ")
      else
        sprintf_and_or targetExpr (SourceTechnologyLabel lbl)
                       (strings_Join defaultLabels " || ")
    else if nonblank sourceExpr then
      sprintf_or sourceExpr (strings_Join defaultLabels " || ")
    else "".

(** A command with only the source and target filters set. *)
Definition withFilters (ts ss : list string) : analyzeCommand :=
  {| skipStaticReport := false; sources := ss; targets := ts;
     input := ""; output := ""; mode := "full"; rules := [] |}.

(** ** Types of the provider package *)

(** A value stored under [interface{}] in a provider-specific
    configuration. *)
Inductive iface : Type :=
  | IString (s : string)
  | IInt (z : Z)
  | IBool (b : bool).

#[global] Instance iface_eq_dec : EqDecision iface.
Proof. solve_decision. Defined.

Module provider.

Record Proxy : Type := {
  HTTPProxy : string;
  HTTPSProxy : string;
  NoProxy : string;
}.

(** [provider.InitConfig]; [ProviderSpecificConfig] is a Go map that may
    be nil ([None]). *)
Record InitConfig : Type := {
  Location : string;
  AnalysisMode : string;
  ProviderSpecificConfig : option (gmap string iface);
}.

(** [provider.Config]; the field [InitConfig] is [InitConfigs] here, the
    name being taken by the type. *)
Record Config : Type := {
  Name : string;
  BinaryPath : string;
  InitConfigs : list InitConfig;
  ConfigProxy : option Proxy;
  ContextLines : Z;
}.

(** [provider.FullAnalysisMode] and [provider.SourceOnlyAnalysisMode], as
    the help text of the [--mode] flag spells them. *)
Definition FullAnalysisMode : string := "full".
Definition SourceOnlyAnalysisMode : string := "source-only".

End provider.

#[global] Instance Proxy_eq_dec : EqDecision provider.Proxy.
Proof. solve_decision. Defined.

#[global] Instance InitConfig_eq_dec : EqDecision provider.InitConfig.
Proof. solve_decision. Defined.

#[global] Instance Config_eq_dec : EqDecision provider.Config.
Proof. solve_decision. Defined.

(** ** The operating system, as the code consults it *)

Definition error : Type := string.

(** What [os.Stat] reports about an existing path. *)
Record FileInfo : Type := { IsDir : bool }.

(** The file system calls whose answers the configuration merge reads.
    [os_Stat p = None] and [filepath_Abs p = None] stand for a non-nil
    error. *)
Record OS : Type := {
  os_Stat : string -> option FileInfo;
  filepath_Abs : string -> option string;
  (** the error of [os.Open] on a file that exists (permissions and the
      like) *)
  os_Open_denied : string -> option error;
  (** the error of [os.Create] *)
  os_Create_fails : string -> option error;
  (** [io.Copy] to this destination fails after so many bytes *)
  io_Copy_stops : string -> option (nat * error);
  (** the error of [os.WriteFile] *)
  os_WriteFile_fails : string -> option error;
}.

(** The regular files the program reads and writes, by path, with their
    contents. *)
Abbreviation FS := (gmap string string).

(** [os.Open(p)]: the contents of an existing, readable file, or the
    error. *)
Definition os_Open (os : OS) (fs : FS) (p : string) : string + error :=
  match fs !! p with
  | Some content =>
      match os_Open_denied os p with
      | Some err => inr err
      | None => inl content
      end
  | None => inr "no such file or directory"
  end.

(** [os.Create(p)]: the file exists and is empty afterwards. *)
Definition os_Create (os : OS) (fs : FS) (p : string) : FS + error :=
  match os_Create_fails os p with
  | Some err => inr err
  | None => inl (<[p := ""]> fs)
  end.

(** [os.WriteFile(p, b, perm)]. A write that fails may in fact leave the
    file truncated or partly written; here it leaves the files as they
    were, and what is stated below about the content of a file that is
    written is stated for a write that succeeds. *)
Definition os_WriteFile (os : OS) (fs : FS) (p b : string) : FS + error :=
  match os_WriteFile_fails os p with
  | Some err => inr err
  | None => inl (<[p := b]> fs)
  end.

(** [filepath.Join(dir, name)] for a clean [dir] and a plain file name. *)
Definition filepath_Join (dir name : string) : string := dir +:+ "/" +:+ name.

(** The first [n] bytes of a string. *)
Fixpoint string_take (n : nat) (s : string) : string :=
  match n, s with
  | S n', String c s' => String c (string_take n' s')
  | _, _ => ""
  end.

(** ** [copyFileContents] *)

(** The result is the named return value [err]; the file system is
    threaded through. [io.Copy] reads the source as it is once the
    destination was created. *)
Definition copyFileContents (os : OS) (fs : FS) (src dst : string)
    : FS * option error :=
  match os_Open os fs src with
  | inr _ => (fs, None)
  | inl _ =>
    match os_Create os fs dst with
    | inr err => (fs, Some err)
    | inl fs1 =>
      let content := default "" (fs1 !! src) in
      match io_Copy_stops os dst with
      | Some (n, err) => (<[dst := string_take n content]> fs1, Some err)
      | None => (<[dst := content]> fs1, None)
      end
    end
  end.

(** ** ConfigMerger: [setConfigsContainerless] *)

(** The loop state: [seenBuiltinConfigs], [defaultBuiltinConfigs],
    [finalConfigs]. *)
Record mergeState : Type := {
  seenBuiltinConfigs : gmap string bool;
  defaultBuiltinConfigs : list provider.InitConfig;
  finalConfigs : list provider.Config;
}.

(** [stat, err := os.Stat(p); err == nil && stat.IsDir()] *)
Definition statIsDir (os : OS) (p : string) : bool :=
  match os_Stat os p with
  | Some stat => IsDir stat
  | None => false
  end.

(** [builtinLocation, err := filepath.Abs(l); if err != nil
    { builtinLocation = l }] *)
Definition builtinLocationOf (os : OS) (l : string) : string :=
  match filepath_Abs os l with
  | Some abs => abs
  | None => l
  end.

(** The body of the inner loop, for one [initConf] of the config named
    [name]. *)
Definition visitInitConf (os : OS) (name : string)
    (st : mergeState) (initConf : provider.InitConfig) : mergeState :=
  match seenBuiltinConfigs st !! provider.Location initConf with
  | Some _ => st
  | None =>
    if nonblank (provider.Location initConf) then
      if statIsDir os (provider.Location initConf) then
        let builtinLocation := builtinLocationOf os (provider.Location initConf) in
        let builtinConf :=
          {| provider.Location := builtinLocation;
             provider.AnalysisMode := "";
             provider.ProviderSpecificConfig :=
               if decide (name = "builtin")
               then provider.ProviderSpecificConfig initConf
               else None |} in
        {| seenBuiltinConfigs := <[builtinLocation := true]> (seenBuiltinConfigs st);
           defaultBuiltinConfigs := defaultBuiltinConfigs st ++ [builtinConf];
           finalConfigs := finalConfigs st |}
      else st
    else st
  end.

(** The body of the outer loop, for one [config]. *)
Definition visitConfig (os : OS) (st : mergeState) (config : provider.Config)
    : mergeState :=
  let st1 :=
    if decide (provider.Name config <> "builtin")
    then {| seenBuiltinConfigs := seenBuiltinConfigs st;
            defaultBuiltinConfigs := defaultBuiltinConfigs st;
            finalConfigs := finalConfigs st ++ [config] |}
    else st in
  fold_left (visitInitConf os (provider.Name config))
            (provider.InitConfigs config) st1.

Definition mergeStart : mergeState :=
  {| seenBuiltinConfigs := ∅; defaultBuiltinConfigs := []; finalConfigs := [] |}.

(** The appended fallback config: every field but the name and the list
    is the zero value. *)
Definition builtinConfig (inits : list provider.InitConfig) : provider.Config :=
  {| provider.Name := "builtin";
     provider.BinaryPath := "";
     provider.InitConfigs := inits;
     provider.ConfigProxy := None;
     provider.ContextLines := 0 |}.

(** [analyzeCommand.setConfigsContainerless]; the receiver is not read. *)
Definition setConfigsContainerless (os : OS) (configs : list provider.Config)
    : list provider.Config :=
  let st := fold_left (visitConfig os) configs mergeStart in
  finalConfigs st ++ [builtinConfig (defaultBuiltinConfigs st)].

(** The [InitConfig] list of the fallback config of a merged list (its
    last element). *)
Definition fallbackInitConfigs (merged : list provider.Config)
    : list provider.InitConfig :=
  match last merged with
  | Some c => provider.InitConfigs c
  | None => []
  end.

(** The pairs (config name, init config) in the order the two loops
    visit them. *)
Definition visits (configs : list provider.Config)
    : list (string * provider.InitConfig) :=
  flat_map (fun c => map (pair (provider.Name c)) (provider.InitConfigs c)) configs.

(** One step of the two loops flattened over [visits]. *)
Definition visitPair (os : OS) (st : mergeState)
    (v : string * provider.InitConfig) : mergeState :=
  visitInitConf os v.1 st v.2.

(** A loop state with its [finalConfigs] replaced. *)
Definition withFinal (f : list provider.Config) (st : mergeState) : mergeState :=
  {| seenBuiltinConfigs := seenBuiltinConfigs st;
     defaultBuiltinConfigs := defaultBuiltinConfigs st;
     finalConfigs := f |}.

(** The non-fallback configs, which pass through in their order. *)
Definition passThrough (configs : list provider.Config) : list provider.Config :=
  filter (fun c => provider.Name c <> "builtin") configs.


(** The entry the loop appends for [ic] when it is visited under the
    config named [name]. *)
Definition entryFor (os : OS) (name : string) (ic : provider.InitConfig)
    : provider.InitConfig :=
  {| provider.Location := builtinLocationOf os (provider.Location ic);
     provider.AnalysisMode := "";
     provider.ProviderSpecificConfig :=
       if decide (name = "builtin")
       then provider.ProviderSpecificConfig ic
       else None |}.

(** The locations recorded so far are distinct and all in
    [seenBuiltinConfigs]. *)
Definition mergeInvariant (st : mergeState) : Prop :=
  NoDup (map provider.Location (defaultBuiltinConfigs st))
  /\ forall l, l ∈ map provider.Location (defaultBuiltinConfigs st) ->
               is_Some (seenBuiltinConfigs st !! l).

(** ** [sort.SliceStable]

    A stable sort leaves elements that [less] does not order in their
    original order; for a strict weak order its result is unique, and the
    insertion sort below computes it. *)

(** [x] goes behind every element that is less than it and before the
    first one that is not. *)
Fixpoint insertStable {A : Type} (less : A -> A -> bool) (x : A) (l : list A)
    : list A :=
  match l with
  | [] => [x]
  | y :: ys => if less y x then y :: insertStable less x ys else x :: y :: ys
  end.

Definition SliceStable {A : Type} (less : A -> A -> bool) (l : list A) : list A :=
  foldr (insertStable less) [] l.

(** [x] is not placed after [y] by the order: [y] is not less than [x]. *)
Definition notAfter {A : Type} (less : A -> A -> bool) (x y : A) : Prop :=
  less y x = false.

(** The order of a slice sorted by a string key. *)
Definition lessBy {A : Type} (key : A -> string) (i j : A) : bool :=
  String.ltb (key i) (key j).

(** ** Output types of the analyzer library *)

Module konveyor.

(** A dependency descriptor. *)
Record Dep : Type := {
  DepName : string;
  Version : string;
}.

(** [konveyor.DepsFlatItem] *)
Record DepsFlatItem : Type := {
  Provider : string;
  FileURI : string;
  Dependencies : list Dep;
}.

(** [konveyor.RuleSet], the result of evaluating one ruleset. *)
Record RuleSet : Type := {
  Name : string;
  Violations : list string;
}.

End konveyor.

#[global] Instance Dep_eq_dec : EqDecision konveyor.Dep.
Proof. solve_decision. Defined.

#[global] Instance DepsFlatItem_eq_dec : EqDecision konveyor.DepsFlatItem.
Proof. solve_decision. Defined.

#[global] Instance RuleSet_eq_dec : EqDecision konveyor.RuleSet.
Proof. solve_decision. Defined.

(** The comparison of line 165: [rulesets[i].Name < rulesets[j].Name]. *)
Definition lessRuleSet (i j : konveyor.RuleSet) : bool :=
  String.ltb (konveyor.Name i) (konveyor.Name j).

(** The comparison of lines 509-515. *)
Definition lessDepsFlat (i j : konveyor.DepsFlatItem) : bool :=
  if decide (konveyor.Provider i = konveyor.Provider j)
  then String.ltb (konveyor.FileURI i) (konveyor.FileURI j)
  else String.ltb (konveyor.Provider i) (konveyor.Provider j).


(** The path of the rule-result artifact. *)
Definition outputYaml (a : analyzeCommand) : string :=
  filepath_Join (output a) "output.yaml".

(** The path of the dependency artifact. *)
Definition dependenciesYaml (a : analyzeCommand) : string :=
  filepath_Join (output a) "dependencies.yaml".

(** ** Provider clients *)

(** [provider.InternalProviderClient], by what its calls answer.
    [GetDependencies] answers a map from file URI to dependencies, listed
    in the order the caller's [range] visits it, and an error. *)
Record InternalProviderClient : Type := {
  ProviderInit : list provider.InitConfig -> list provider.InitConfig * option error;
  GetDependencies : list (string * list konveyor.Dep) * option error;
}.

(** A Go map from provider name to client, in iteration order. *)
Abbreviation providerMap := (list (string * InternalProviderClient)).

(** [m[k]] on a map listed in iteration order. *)
Fixpoint mapLookup {V : Type} (k : string) (m : list (string * V)) : option V :=
  match m with
  | [] => None
  | (k', v) :: rest => if decide (k' = k) then Some v else mapLookup k rest
  end.

(** How a function ends: it returns, or the process exits. *)
Inductive result (A : Type) : Type :=
  | Returned (a : A)
  | Exited (code : Z).
Arguments Returned {A} a.
Arguments Exited {A} code.

(** ** ProviderLifecycleManager: [startProvidersContainerless] *)

(** The [for name, provider := range needProviders] loop, carrying
    [additionalBuiltinConfigs]. *)
Fixpoint initProviders (needProviders : providerMap)
    (additionalBuiltinConfigs : list provider.InitConfig)
    : result (list provider.InitConfig) :=
  match needProviders with
  | [] => Returned additionalBuiltinConfigs
  | (name, prov) :: rest =>
    if decide (name = "builtin") then initProviders rest additionalBuiltinConfigs
    else
      match ProviderInit prov [] with
      | (_, Some err) => Exited 1
      | (additionalBuiltinConfs, None) =>
          initProviders rest (additionalBuiltinConfigs ++ additionalBuiltinConfs)
      end
  end.

(** [analyzeCommand.startProvidersContainerless]: the returned value is
    the function's [error]. *)
Definition startProvidersContainerless (needProviders : providerMap)
    : result (option error) :=
  match initProviders needProviders [] with
  | Exited code => Exited code
  | Returned additionalBuiltinConfigs =>
    match mapLookup "builtin" needProviders with
    | Some builtinClient =>
      match ProviderInit builtinClient additionalBuiltinConfigs with
      | (_, Some err) => Returned (Some err)
      | (_, None) => Returned None
      end
    | None => Returned None
    end
  end.

(** What the non-fallback providers of the map hand to the fallback one
    when all of them initialize. *)
Definition additionalConfigs (needProviders : providerMap)
    : list provider.InitConfig :=
  flat_map (fun np => if decide (np.1 = "builtin") then []
                      else (ProviderInit np.2 []).1) needProviders.

(** ** DependencyCollector: [DependencyOutputContainerless] *)

(** The items line 494 appends for one provider's answer. *)
Definition flatItems (deps : list (string * list konveyor.Dep))
    : list konveyor.DepsFlatItem :=
  map (fun ud => {| konveyor.Provider := "java";
                    konveyor.FileURI := ud.1;
                    konveyor.Dependencies := ud.2 |}) deps.

(** The [for _, prov := range providers] loop, carrying [depsFlat];
    [None] is the [return] of line 503 ([depsTree] is never assigned). A
    failed [GetDependencies] is logged and its answer still ranged
    over. *)
Fixpoint collectDeps (providers : providerMap)
    (depsFlat : list konveyor.DepsFlatItem)
    : option (list konveyor.DepsFlatItem) :=
  match providers with
  | [] => Some depsFlat
  | (_, prov) :: rest =>
    let depsFlat := depsFlat ++ flatItems (GetDependencies prov).1 in
    if nonempty depsFlat then collectDeps rest depsFlat else None
  end.

(** The items of every provider's answer, in the order of the visit. *)
Definition allItems (providers : providerMap) : list konveyor.DepsFlatItem :=
  flat_map (fun np => flatItems (GetDependencies np.2).1) providers.

(** The serializers of the yaml library: [None] is a marshalling error. *)
Record Yaml : Type := {
  Marshal_deps : list konveyor.DepsFlatItem -> option string;
  Marshal_rulesets : list konveyor.RuleSet -> option string;
}.

(** [analyzeCommand.DependencyOutputContainerless]: a function without
    result, whose effect is the file it may write. *)
Definition DependencyOutputContainerless (os : OS) (yaml : Yaml)
    (a : analyzeCommand) (providers : providerMap) (depOutputFile : string)
    (fs : FS) : FS :=
  match collectDeps providers [] with
  | None => fs
  | Some depsFlat =>
    let depsFlat := SliceStable lessDepsFlat depsFlat in
    match Marshal_deps yaml depsFlat with
    | None => fs
    | Some by_ =>
      match os_WriteFile os fs (filepath_Join (output a) depOutputFile) by_ with
      | inr _ => fs
      | inl fs' => fs'
      end
    end
  end.

(** The sequence handed to the serializer, when the function gets that
    far. *)
Definition dependencyOutput (providers : providerMap)
    : option (list konveyor.DepsFlatItem) :=
  SliceStable lessDepsFlat <$> collectDeps providers [].

(** ** RuleEvaluationCoordinator and OutputAggregator:
       [RunAnalysisContainerless] *)

(** What a run does that an observer can tell: the tasks it starts, the
    calls to the engine and to the providers, and the files it writes. *)
Inductive Event : Type :=
  | EvSpawnDependencyTask (depOutputFile : string)
  | EvRunRules (selectors : list string)
  | EvWait
  | EvStopEngine
  | EvStopProvider (name : string)
  | EvWriteFile (path : string)
  | EvBuildStaticReport (depsErr : bool).

#[global] Instance Event_eq_dec : EqDecision Event.
Proof. solve_decision. Defined.

Record runState : Type := {
  files : FS;
  events : list Event;
}.

(** A step either goes on with a value or ends the function. *)
Inductive flow (A : Type) : Type :=
  | Next (a : A)
  | Stop (r : result (option error)).
Arguments Next {A} a.
Arguments Stop {A} r.

Definition M (A : Type) : Type := runState -> flow A * runState.

Definition retM {A : Type} (a : A) : M A := fun st => (Next a, st).

Definition bindM {A B : Type} (m : M A) (k : A -> M B) : M B :=
  fun st =>
    match m st with
    | (Next a, st') => k a st'
    | (Stop r, st') => (Stop r, st')
    end.

Notation "'do' x <- m ; k" := (bindM m (fun x => k))
  (at level 10, x name, m at level 99, k at level 200).
Notation "m ;;; k" := (bindM m (fun _ => k))
  (at level 100, k at level 200, right associativity).

(** [return err] *)
Definition returnM {A : Type} (err : option error) : M A :=
  fun st => (Stop (Returned err), st).

(** [os.Exit(code)] *)
Definition exitM {A : Type} (code : Z) : M A :=
  fun st => (Stop (Exited code), st).

Definition emit (e : Event) : M unit :=
  fun st => (Next tt, {| files := files st; events := events st ++ [e] |}).

Definition getFiles : M FS := fun st => (Next (files st), st).

Definition setFiles (fs : FS) : M unit :=
  fun st => (Next tt, {| files := fs; events := events st |}).

(** [if err != nil { return err }] *)
Definition orReturn (err : option error) : M unit :=
  match err with
  | Some e => returnM (Some e)
  | None => retM tt
  end.

(** [if err != nil { os.Exit(1) }] *)
Definition orExit (err : option error) : M unit :=
  match err with
  | Some _ => exitM 1
  | None => retM tt
  end.

(** A callee that may itself end the process. *)
Definition liftResult {A : Type} (r : result A) : M A :=
  match r with
  | Returned a => retM a
  | Exited code => exitM code
  end.

Fixpoint forM_ {A : Type} (l : list A) (f : A -> M unit) : M unit :=
  match l with
  | [] => retM tt
  | x :: xs => f x ;;; forM_ xs f
  end.

(** The calls of [RunAnalysisContainerless] whose code does not bear on
    the properties below, by what they answer: the functions of this
    command that prepare the run ([ValidateContainerless],
    [setBinMapContainerless], [createProviderConfigsContainerless],
    [setInternalProviders], the rule parser) or report on it
    ([CreateJSONOutput], the static report builders), and the libraries.
    A property stated for every [Env] holds whatever these calls answer.
    The rule engine's [RunRules] is a function of the rulesets and
    selectors it is given. *)
Record Env : Type := {
  env_os : OS;
  env_yaml : Yaml;
  ValidateContainerless_err : option error;
  createAnalysisLog_fails : bool;
  NewLabelSelector_fails : string -> bool;
  setBinMapContainerless_err : option error;
  createProviderConfigsContainerless_err : option error;
  setInternalProviders_result : result providerMap;
  parsedRuleSets : list string;
  needProviders : providerMap;
  RunRules : list string -> list string -> list konveyor.RuleSet;
  CreateJSONOutput_err : option error;
  createStaticReportLog_fails : bool;
  statDependencies_fails : option error;
  buildStaticReportFile_fails : bool;
  buildStaticReportOutput_err : option error;
}.

(** [analyzeCommand.GenerateStaticReportContainerless];
    [buildStaticReportFile] ends the process ([log.Fatalln]) when one of
    its calls fails. *)
Definition GenerateStaticReportContainerless (env : Env) (a : analyzeCommand)
    : M unit :=
  if skipStaticReport a then retM tt
  else
    (if createStaticReportLog_fails env
     then returnM (Some "failed creating provider log file")
     else retM tt) ;;;
    do fs <- getFiles;
    do noDepFile <-
      (match fs !! filepath_Join (output a) "dependencies.yaml" with
       | None => retM true
       | Some _ =>
         match statDependencies_fails env with
         | Some err => returnM (Some err)
         | None => retM false
         end
       end);
    emit (EvBuildStaticReport noDepFile) ;;;
    (if buildStaticReportFile_fails env then exitM 1 else retM tt) ;;;
    orReturn (buildStaticReportOutput_err env).

(** Lines 73-83: zero or one selector. *)
Definition makeSelectors (env : Env) (labelSelectors : string) : M (list string) :=
  if nonblank labelSelectors then
    if NewLabelSelector_fails env labelSelectors then exitM 1
    else retM [labelSelectors]
  else retM [].

(** Lines 140-149: the dependency task is started in full mode only. The
    task runs beside [RunRules] and is joined at [wg.Wait]; it writes one
    file of its own, so its effect is recorded where it is started. *)
Definition startDependencyTask (env : Env) (a : analyzeCommand)
    (providers : providerMap) : M unit :=
  if decide (mode a = provider.FullAnalysisMode) then
    emit (EvSpawnDependencyTask "dependencies.yaml") ;;;
    do fs <- getFiles;
    setFiles (DependencyOutputContainerless (env_os env) (env_yaml env) a
                providers "dependencies.yaml" fs)
  else retM tt.

(** Lines 165-179: sort, serialize, write. *)
Definition writeRulesets (env : Env) (a : analyzeCommand)
    (rulesets : list konveyor.RuleSet) : M unit :=
  let rulesets := SliceStable lessRuleSet rulesets in
  do b <- (match Marshal_rulesets (env_yaml env) rulesets with
           | None => returnM (Some "yaml")
           | Some b => retM b
           end);
  do fs <- getFiles;
  match os_WriteFile (env_os env) fs (filepath_Join (output a) "output.yaml") b with
  | inr _ => exitM 1
  | inl fs' =>
      setFiles fs' ;;; emit (EvWriteFile (filepath_Join (output a) "output.yaml"))
  end.

(** Lines 35-133 of [RunAnalysisContainerless]: validation, the log
    file, the selector, the provider configs and clients, the rules. The
    step yields the selectors and the provider clients. *)
Definition setUpAnalysis (env : Env) (lbl : outputv1) (a : analyzeCommand)
    : M (list string * providerMap) :=
  orReturn (ValidateContainerless_err env) ;;;
  (if createAnalysisLog_fails env
   then returnM (Some "failed creating provider log file")
   else retM tt) ;;;
  do selectors <- makeSelectors env (getLabelSelector lbl a);
  orExit (setBinMapContainerless_err env) ;;;
  orExit (createProviderConfigsContainerless_err env) ;;;
  do providers <- liftResult (setInternalProviders_result env);
  retM (selectors, providers).

(** Lines 134-194 of [RunAnalysisContainerless]: the providers are
    started, the rules evaluated beside the dependency task, and the
    results written. *)
Definition evaluateAndWrite (env : Env) (a : analyzeCommand)
    (selectors : list string) (providers : providerMap) : M unit :=
  do err <- liftResult (startProvidersContainerless (needProviders env));
  orExit err ;;;
  startDependencyTask env a providers ;;;
  emit (EvRunRules selectors) ;;;
  emit EvWait ;;;
  emit EvStopEngine ;;;
  forM_ (needProviders env) (fun np => emit (EvStopProvider np.1)) ;;;
  writeRulesets env a (RunRules env (parsedRuleSets env) selectors) ;;;
  orReturn (CreateJSONOutput_err env) ;;;
  GenerateStaticReportContainerless env a.

(** [analyzeCommand.RunAnalysisContainerless]. Log lines, tracing spans
    and the deferred clean-up are left out; of the files only the two
    output artifacts are followed. *)
Definition RunAnalysisContainerless (env : Env) (lbl : outputv1)
    (a : analyzeCommand) : M unit :=
  do sp <- setUpAnalysis env lbl a;
  evaluateAndWrite env a sp.1 sp.2.

(** A run from an output directory holding [fs]: how it ends, and the
    state it leaves. *)
Definition runFrom (fs : FS) (m : M unit) : result (option error) * runState :=
  match m {| files := fs; events := [] |} with
  | (Next _, st) => (Returned None, st)
  | (Stop r, st) => (r, st)
  end.

(** Lines 75-83: the selectors the run evaluates the rules with. *)
Definition selectorsOf (lbl : outputv1) (a : analyzeCommand) : list string :=
  if nonblank (getLabelSelector lbl a) then [getLabelSelector lbl a] else [].

(** [m] leaves every state related by [R] to the state it started in,
    however it ends. *)
Definition preserves {A : Type} (R : runState -> runState -> Prop) (m : M A)
    : Prop :=
  forall st, R st (m st).2.

(** When [m] goes on, [Q] holds of the state it leaves. *)
Definition ensures {A : Type} (m : M A) (Q : runState -> Prop) : Prop :=
  forall st a st', m st = (Next a, st') -> Q st'.

(** [m] keeps [Q] when it goes on. *)
Definition keeps {A : Type} (m : M A) (Q : runState -> Prop) : Prop :=
  forall st a st', Q st -> m st = (Next a, st') -> Q st'.

(** [m] ends the function only with an error or an exit. *)
Definition stopsWithFailure {A : Type} (m : M A) : Prop :=
  forall st r st', m st = (Stop r, st') -> r <> Returned None.

(** The run neither started a dependency task nor touched the file at
    [d], as far as it went from [st] to [st']. *)
Definition noDependencyWork (d : string) (st st' : runState) : Prop :=
  files st' !! d = files st !! d
  /\ forall f, EvSpawnDependencyTask f ∈ events st' ->
               EvSpawnDependencyTask f ∈ events st.

(** The rule-result artifact of [a] was written and holds the
    serialization of [rulesets] sorted by name. *)
Definition outputWritten (env : Env) (a : analyzeCommand)
    (rulesets : list konveyor.RuleSet) (st : runState) : Prop :=
  exists b, Marshal_rulesets (env_yaml env) (SliceStable lessRuleSet rulesets) = Some b
            /\ files st !! filepath_Join (output a) "output.yaml" = Some b
            /\ EvWriteFile (filepath_Join (output a) "output.yaml") ∈ events st.

(** ** A sample environment: a Unix file tree

    [filepath.Abs] on Unix: an absolute path is cleaned; a relative one is
    joined to the working directory, and the call fails when the working
    directory cannot be read ([cwd = None]). *)

Fixpoint splitSlash (s : string) : list string :=
  match s with
  | EmptyString => [""]
  | String c s' =>
      if Ascii.eqb c "/" then "" :: splitSlash s'
      else match splitSlash s' with
           | [] => [String c ""]
           | x :: xs => String c x :: xs
           end
  end.

(** One element of a rooted path: empty and [.] are dropped, [..] removes
    the element before it (and nothing at the root). *)
Definition cleanStep (stack : list string) (e : string) : list string :=
  if decide (e = "") then stack
  else if decide (e = ".") then stack
  else if decide (e = "..") then removelast stack
  else stack ++ [e].

Definition cleanRooted (p : string) : string :=
  "/" +:+ String.concat "/" (fold_left cleanStep (splitSlash p) []).

Definition isAbs (p : string) : bool :=
  match p with
  | String c _ => Ascii.eqb c "/"
  | EmptyString => false
  end.

Definition unixAbs (cwd : option string) (p : string) : option string :=
  if isAbs p then Some (cleanRooted p)
  else match cwd with
       | Some wd => Some (cleanRooted (wd +:+ "/" +:+ p))
       | None => None
       end.

(** A tree given by its working directory, its directories and its
    regular files (absolute, clean paths). *)
Definition unixOS (cwd : option string) (dirs files : list string) : OS :=
  {| os_Stat := fun p =>
       match unixAbs cwd p with
       | Some abs =>
           if decide (abs ∈ dirs) then Some {| IsDir := true |}
           else if decide (abs ∈ files) then Some {| IsDir := false |}
           else None
       | None => None
       end;
     filepath_Abs := unixAbs cwd;
     os_Open_denied := fun _ => None;
     os_Create_fails := fun _ => None;
     io_Copy_stops := fun _ => None;
     os_WriteFile_fails := fun _ => None |}.

(** The working directory [/work] holding the project directory [app]. *)
Definition workOS : OS := unixOS (Some "/work") ["/"; "/work"; "/work/app"] [].

Definition initAt (l : string) (psc : option (gmap string iface))
    : provider.InitConfig :=
  {| provider.Location := l; provider.AnalysisMode := "full";
     provider.ProviderSpecificConfig := psc |}.

Definition configOf (name : string) (inits : list provider.InitConfig)
    : provider.Config :=
  {| provider.Name := name; provider.BinaryPath := "";
     provider.InitConfigs := inits; provider.ConfigProxy := None;
     provider.ContextLines := 0 |}.

(** A provider-specific configuration of the fallback provider. *)
Definition excludedDirs : option (gmap string iface) :=
  Some {[ "excludedDirs" := IString "target" ]}.

(** The fallback config first, as [createProviderConfigsContainerless]
    builds the list, and the same two configs in the other order. *)
Definition builtinFirst : list provider.Config :=
  [configOf "builtin" [initAt "/work/app" excludedDirs];
   configOf "java" [initAt "/work/app" None]].


(** ** Sample providers, serializers and runs *)

(** A client whose calls succeed: [Init] hands back [extra], and
    [GetDependencies] the map [deps]. *)
Definition okClient (extra : list provider.InitConfig)
    (deps : list (string * list konveyor.Dep)) : InternalProviderClient :=
  {| ProviderInit := fun _ => (extra, None);
     GetDependencies := (deps, None) |}.

(** A client whose [Init] fails. *)
Definition failingInit : InternalProviderClient :=
  {| ProviderInit := fun _ => ([], Some "init failed");
     GetDependencies := ([], None) |}.

(** A client whose [GetDependencies] fails with a nil map. *)
Definition failingDeps : InternalProviderClient :=
  {| ProviderInit := fun _ => ([], None);
     GetDependencies := ([], Some "no dependencies") |}.

Definition junit : konveyor.Dep :=
  {| konveyor.DepName := "junit.junit"; konveyor.Version := "4.13" |}.

Definition pomDeps : list (string * list konveyor.Dep) :=
  [("file:///work/app/pom.xml", [junit])].

(** A serializer that lists the names, in order. *)
Definition sampleYaml : Yaml :=
  {| Marshal_deps := fun l =>
       Some (String.concat ";"
               (map (fun i => konveyor.Provider i +:+ "@" +:+ konveyor.FileURI i) l));
     Marshal_rulesets := fun l => Some (String.concat ";" (map konveyor.Name l)) |}.

Definition ruleSetNamed (n : string) : konveyor.RuleSet :=
  {| konveyor.Name := n; konveyor.Violations := [] |}.

(** An environment in which every call succeeds; the engine answers two
    rulesets, the later name first. *)
Definition sampleEnv (needed : providerMap) : Env :=
  {| env_os := workOS;
     env_yaml := sampleYaml;
     ValidateContainerless_err := None;
     createAnalysisLog_fails := false;
     NewLabelSelector_fails := fun _ => false;
     setBinMapContainerless_err := None;
     createProviderConfigsContainerless_err := None;
     setInternalProviders_result :=
       Returned [("builtin", okClient [] []); ("java", okClient [] pomDeps)];
     parsedRuleSets := ["discovery"; "eap7"];
     needProviders := needed;
     RunRules := fun _ _ => [ruleSetNamed "eap7"; ruleSetNamed "discovery"];
     CreateJSONOutput_err := None;
     createStaticReportLog_fails := false;
     statDependencies_fails := None;
     buildStaticReportFile_fails := false;
     buildStaticReportOutput_err := None |}.

Definition sampleCommand (m : string) : analyzeCommand :=
  {| skipStaticReport := false; sources := []; targets := ["cloud-readiness"];
     input := "/work/app"; output := "/work/out"; mode := m; rules := [] |}.

(** ** The order of a run's events *)

(** The events of lines 151-163: the engine call, the barrier, and the
    shutdown of the engine and of every needed provider. *)
Definition evaluationEvents (selectors : list string) (needed : providerMap)
    : list Event :=
  [EvRunRules selectors; EvWait; EvStopEngine]
  ++ map (fun np => EvStopProvider np.1) needed.

(** The event of lines 142-149. *)
Definition spawnEvents (a : analyzeCommand) : list Event :=
  if decide (mode a = provider.FullAnalysisMode)
  then [EvSpawnDependencyTask "dependencies.yaml"] else [].

(** Lines 165-193: what follows the shutdown. *)
Definition reportResults (env : Env) (a : analyzeCommand)
    (selectors : list string) : M unit :=
  writeRulesets env a (RunRules env (parsedRuleSets env) selectors) ;;;
  orReturn (CreateJSONOutput_err env) ;;;
  GenerateStaticReportContainerless env a.

(** An event of the reporting phase. *)
Definition isReportEvent (a : analyzeCommand) (e : Event) : Prop :=
  e = EvWriteFile (outputYaml a) \/ exists b, e = EvBuildStaticReport b.

(** The files after the dependency task, when the run gets that far. *)
Definition filesAfterDependencyTask (env : Env) (a : analyzeCommand)
    (providers : providerMap) (fs : FS) : FS :=
  if decide (mode a = provider.FullAnalysisMode)
  then DependencyOutputContainerless (env_os env) (env_yaml env) a providers
         "dependencies.yaml" fs
  else fs.

(** The state in which the reporting phase starts, for a run from [fs]
    whose set-up yielded [providers]. *)
Definition startedState (env : Env) (lbl : outputv1) (a : analyzeCommand)
    (providers : providerMap) (fs : FS) : runState :=
  {| files := filesAfterDependencyTask env a providers fs;
     events := spawnEvents a
               ++ evaluationEvents (selectorsOf lbl a) (needProviders env) |}.

(** The sample environment with a given answer of [os.WriteFile] and of
    the serializer of rule results. *)
Definition sampleEnvWith (writeFails : string -> option error)
    (marshal : list konveyor.RuleSet -> option string) : Env :=
  {| env_os :=
       {| os_Stat := os_Stat workOS;
          filepath_Abs := filepath_Abs workOS;
          os_Open_denied := os_Open_denied workOS;
          os_Create_fails := os_Create_fails workOS;
          io_Copy_stops := io_Copy_stops workOS;
          os_WriteFile_fails := writeFails |};
     env_yaml := {| Marshal_deps := Marshal_deps sampleYaml;
                    Marshal_rulesets := marshal |};
     ValidateContainerless_err := None;
     createAnalysisLog_fails := false;
     NewLabelSelector_fails := fun _ => false;
     setBinMapContainerless_err := None;
     createProviderConfigsContainerless_err := None;
     setInternalProviders_result :=
       Returned [("java", okClient [] pomDeps); ("builtin", okClient [] [])];
     parsedRuleSets := ["discovery"; "eap7"];
     needProviders := [("java", okClient [] []); ("builtin", okClient [] [])];
     RunRules := fun _ _ => [ruleSetNamed "eap7"; ruleSetNamed "discovery"];
     CreateJSONOutput_err := None;
     createStaticReportLog_fails := false;
     statDependencies_fails := None;
     buildStaticReportFile_fails := false;
     buildStaticReportOutput_err := None |}.

(** ** Listing the source and target technologies of the rules *)

(** The rest of [s] behind [prefix], when [strings.HasPrefix(s, prefix)]. *)
Fixpoint dropPrefix (prefix s : string) : option string :=
  match prefix, s with
  | EmptyString, _ => Some s
  | String c p', String d s' => if Ascii.eqb c d then dropPrefix p' s' else None
  | String _ _, EmptyString => None
  end.

(** [strings.TrimPrefix(s, prefix)] *)
Definition strings_TrimPrefix (s prefix : string) : string :=
  default s (dropPrefix prefix s).

(** [strings.Contains(s, substr)] *)
Fixpoint strings_Contains (s substr : string) : bool :=
  match dropPrefix substr s with
  | Some _ => true
  | None =>
      match s with
      | EmptyString => false
      | String _ s' => strings_Contains s' substr
      end
  end.

(** [slices.Contains(l, x)] *)
Definition slices_Contains (l : list string) (x : string) : bool :=
  bool_decide (x ∈ l).

(** [sort.Strings]: strings that the order does not tell apart are
    equal, so the stable sort computes the one sorted arrangement. *)
Definition sort_Strings (l : list string) : list string :=
  SliceStable String.ltb l.

(** [getSourceOrTargetLabel] *)
Definition getSourceOrTargetLabel (text label : string) : string :=
  if strings_Contains text label then text else "".

(** The body of the loop of [readRuleFile], for one scanned word. *)
Definition scanWord (label : string) (labelsSlice : list string) (text : string)
    : list string :=
  let label' := getSourceOrTargetLabel text label in
  if nonblank label' && negb (slices_Contains labelsSlice label')
  then labelsSlice ++ [label'] else labelsSlice.

(** The scanner and the directory walk of the standard library, by what
    they deliver: the words [bufio.ScanWords] splits a content into with
    the final [scanner.Err()], and the calls [filepath.WalkDir] makes to
    its function as long as that returns nil. A call is the path, the
    entry [d] by its [d.IsDir()], and the error passed in; the entry is
    nil, here [None], in the call the walk makes when it cannot inspect
    its root. *)
Definition walkCall : Type := string * option bool * option error.

Record Walker : Type := {
  ScanWords : string -> list string * option error;
  WalkDir : string -> list walkCall;
}.

(** A call that returns, or panics. *)
Inductive outcome (A : Type) : Type :=
| Done (a : A)
| Panic.
Arguments Done {A} a.
Arguments Panic {A}.

(** [readRuleFile]: the slice behind the pointer afterwards, and the two
    results. *)
Definition readRuleFile (os : OS) (w : Walker) (fs : FS) (filePath : string)
    (labelsSlice : list string) (label : string)
    : list string * (list string * option error) :=
  match os_Open os fs filePath with
  | inr err => (labelsSlice, ([], Some err))
  | inl content =>
      let labels := fold_left (scanWord label) (ScanWords w content).1 labelsSlice in
      match (ScanWords w content).2 with
      | Some err => (labels, ([], Some err))
      | None => (labels, (labels, None))
      end
  end.

(** The function [walkRuleSets] hands to the walk, for one call: the
    slice behind the pointer afterwards, and the error returned.
    [d.IsDir()] on a nil entry is a nil dereference. *)
Definition walkRuleSets (os : OS) (w : Walker) (fs : FS) (label : string)
    (labelsSlice : list string) (call : walkCall)
    : outcome (list string * option error) :=
  let '(path, d, err) := call in
  match d with
  | None => Panic
  | Some isDir =>
      if negb isDir then Done (readRuleFile os w fs path labelsSlice label).2
      else Done (labelsSlice, err)
  end.

(** [filepath.WalkDir] over the calls it would make: the walk ends at
    the first error its function returns. *)
Fixpoint walkCalls (fn : list string -> walkCall -> outcome (list string * option error))
    (calls : list walkCall) (labelsSlice : list string)
    : outcome (list string * option error) :=
  match calls with
  | [] => Done (labelsSlice, None)
  | c :: cs =>
      match fn labelsSlice c with
      | Panic => Panic
      | Done (labels, Some err) => Done (labels, Some err)
      | Done (labels, None) => walkCalls fn cs labels
      end
  end.

(** [readRuleFilesForLabels]; [RulesetPath] is a constant of the
    command's package. *)
Definition readRuleFilesForLabels (os : OS) (w : Walker) (fs : FS)
    (RulesetPath label : string) : outcome (list string * option error) :=
  match walkCalls (walkRuleSets os w fs label) (WalkDir w RulesetPath) [] with
  | Panic => Panic
  | Done (_, Some err) => Done ([], Some err)
  | Done (labelsSlice, None) => Done (labelsSlice, None)
  end.

(** [listOptionsFromLabels]: the lines it prints. *)
Definition listOptionsFromLabels (lbl : outputv1) (sl : list string)
    (label : string) : list string :=
  let l := label +:+ "=" in
  let newSl :=
    flat_map (fun label' =>
                let newSt := strings_TrimPrefix label' l in
                if decide (newSt <> label') then [newSt] else []) sl in
  let newSl := sort_Strings newSl in
  (if decide (label = SourceTechnologyLabel lbl)
   then "available source technologies:"
   else "available target technologies:") :: newSl.

(** The technologies of a listing: the lines below the heading. *)
Definition listedTechnologies (lbl : outputv1) (sl : list string)
    (label : string) : list string :=
  tail (listOptionsFromLabels lbl sl label).

(** A sample walker: one word per space-separated field, no errors, and
    a rules directory with a subdirectory and two rule files. *)
Fixpoint splitSpaces (s : string) : list string :=
  match s with
  | EmptyString => [""]
  | String c s' =>
      if Ascii.eqb c " " then "" :: splitSpaces s'
      else match splitSpaces s' with
           | [] => [String c ""]
           | x :: xs => String c x :: xs
           end
  end.

Definition sampleWalker : Walker :=
  {| ScanWords := fun content =>
       (filter (fun x => x <> "") (splitSpaces content), None);
     WalkDir := fun root =>
       if decide (root = "/rules")
       then [(root, Some true, None);
             (root +:+ "/eap/a.yaml", Some false, None);
             (root +:+ "/eap/b.yaml", Some false, None)]
       else [(root, None, Some "no such file or directory")] |}.

Definition sampleRules : FS :=
  {[ "/rules/eap/a.yaml" := "labels: - konveyor.io/source=eap7 - konveyor.io/target=eap8";
     "/rules/eap/b.yaml" := "labels: - konveyor.io/source=eap6 - konveyor.io/source=eap7" ]}.

(** The words of the files a walk visits. *)
Definition walkedWords (os : OS) (w : Walker) (fs : FS)
    (calls : list walkCall) : list string :=
  flat_map (fun call : walkCall =>
              match call.1.2 with
              | Some false =>
                  match os_Open os fs call.1.1 with
                  | inl content => (ScanWords w content).1
                  | inr _ => []
                  end
              | _ => []
              end) calls.

(** A word that [readRuleFile] keeps: it is not empty and contains the
    label. *)
Definition isLabelWord (label x : string) : Prop :=
  x <> "" /\ strings_Contains x label = true.

(** The walk hands its function a nil entry. *)
Definition nilEntry (calls : list walkCall) : Prop :=
  exists path err, (path, None, err) ∈ calls.

(** ** The rules of the command line as container volumes *)

(** Calls of the standard library that the container commands make
    beside those of [OS]. *)
Record Host : Type := {
  (** [os.MkdirTemp("", pattern)], which picks a new name each time:
      the answer may depend on the directories made before *)
  os_MkdirTemp : string -> list string -> string + error;
  (** the error of a failing [os.Stat] *)
  os_Stat_error : string -> error;
  filepath_Base : string -> string;
  filepath_Clean : string -> string;
  (** [yaml.Marshal(&tempRuleSet)] *)
  Marshal_tempRuleSet : string + error;
  (** a failing [os.RemoveAll]: the files it leaves behind, and its
      error *)
  os_RemoveAll_fails : string -> FS -> option (FS * error);
  (** [errors.Is(err, os.ErrNotExist)] for the error of a failing
      [os.Stat] *)
  os_Stat_IsNotExist : string -> bool;
  (** the error of [os.MkdirAll] *)
  os_MkdirAll_fails : string -> option error;
  (** [os.Stat] once [os.MkdirAll] has made the directory given first *)
  os_Stat_after_MkdirAll : string -> string -> option FileInfo;
}.

(** What the command keeps between its calls: the files of the host and
    the field [tempDirs]. *)
Record hostState : Type := {
  hostFiles : FS;
  tempDirs : list string;
}.

(** A bind mount: host path to container path. *)
Abbreviation volumes := (gmap string string).

(** [fmt.Sprintf("%d", i)] *)
Definition Sprintf_d (i : nat) : string := NilZero.string_of_uint (Nat.to_uint i).

(** [fmt.Sprintf("rules%d.yaml", i)] *)
Definition rulesFile (i : nat) : string := "rules" +:+ Sprintf_d i +:+ ".yaml".

(** [filepath.Join(RulesMountPath, filepath.Base(r))], both elements
    being non-empty. *)
Definition rulesMount (h : Host) (RulesMountPath r : string) : string :=
  filepath_Clean h (RulesMountPath +:+ "/" +:+ filepath_Base h r).

(** [createTempRuleSet] *)
Definition createTempRuleSet (os : OS) (h : Host) (fs : FS) (path : string)
    : FS * option error :=
  match Marshal_tempRuleSet h with
  | inr err => (fs, Some err)
  | inl yamlData =>
      match os_WriteFile os fs path yamlData with
      | inr err => (fs, Some err)
      | inl fs' => (fs', None)
      end
  end.

(** The loop of [getRulesVolumes] from index [i] on: the files
    afterwards, and [rulesVolumes] with [rulesetNeeded] or the error
    returned. The temporary directory is a clean path and the file names
    are single elements, so joining them is concatenation. *)
Fixpoint mountRules (os : OS) (h : Host) (RulesMountPath tempDir : string)
    (rs : list string) (i : nat) (fs : FS) (rulesVolumes : volumes)
    (rulesetNeeded : bool) : FS * (volumes * bool + error) :=
  match rs with
  | [] => (fs, inl (rulesVolumes, rulesetNeeded))
  | r :: rest =>
      match os_Stat os r with
      | None => (fs, inr (os_Stat_error h r))
      | Some stat =>
          if negb (IsDir stat) then
            let destFile := filepath_Join tempDir (rulesFile i) in
            match copyFileContents os fs r destFile with
            | (fs', Some err) => (fs', inr err)
            | (fs', None) =>
                mountRules os h RulesMountPath tempDir rest (S i) fs' rulesVolumes true
            end
          else
            mountRules os h RulesMountPath tempDir rest (S i) fs
              (<[r := rulesMount h RulesMountPath r]> rulesVolumes) rulesetNeeded
      end
  end.

(** [getRulesVolumes]; a nil map is the empty map. *)
Definition getRulesVolumes (os : OS) (h : Host) (RulesMountPath : string)
    (a : analyzeCommand) (st : hostState) : hostState * (volumes + error) :=
  match rules a with
  | [] => (st, inl ∅)
  | _ :: _ =>
      match os_MkdirTemp h "analyze-rules-" (tempDirs st) with
      | inr err => (st, inr err)
      | inl tempDir =>
          let dirs := tempDirs st ++ [tempDir] in
          match mountRules os h RulesMountPath tempDir (rules a) 0
                  (hostFiles st) ∅ false with
          | (fs, inr err) => ({| hostFiles := fs; tempDirs := dirs |}, inr err)
          | (fs, inl (rulesVolumes, false)) =>
              ({| hostFiles := fs; tempDirs := dirs |}, inl rulesVolumes)
          | (fs, inl (rulesVolumes, true)) =>
              match createTempRuleSet os h fs (filepath_Join tempDir "ruleset.yaml") with
              | (fs', Some err) => ({| hostFiles := fs'; tempDirs := dirs |}, inr err)
              | (fs', None) =>
                  ({| hostFiles := fs'; tempDirs := dirs |},
                   inl (<[tempDir := rulesMount h RulesMountPath tempDir]> rulesVolumes))
              end
          end
      end
  end.

(** [p] is [dir] or lies below it. *)
Definition inside (dir p : string) : bool :=
  bool_decide (p = dir)
  || match dropPrefix (dir +:+ "/") p with Some _ => true | None => false end.

(** [os.RemoveAll(path)]: the path and all below it are gone, unless the
    call fails. *)
Definition os_RemoveAll (h : Host) (fs : FS) (path : string) : FS * option error :=
  match os_RemoveAll_fails h path fs with
  | Some (remaining, err) => (remaining, Some err)
  | None => (filter (fun kv : string * string => inside path kv.1 = false) fs, None)
  end.

(** [Clean]: a directory that cannot be removed is logged and passed
    over. *)
Definition Clean (h : Host) (st : hostState) : hostState * option error :=
  ({| hostFiles := fold_left (fun fs path => (os_RemoveAll h fs path).1)
                     (tempDirs st) (hostFiles st);
      tempDirs := tempDirs st |}, None).

(** The tree of [workOS] with a rules directory, a rules file, and a
    rules file that may not be read. *)
Definition rulesOS : OS :=
  let os := unixOS (Some "/work") ["/"; "/work"; "/work/app"; "/work/rules"]
              ["/work/custom.yaml"; "/work/secret.yaml"] in
  {| os_Stat := os_Stat os;
     filepath_Abs := filepath_Abs os;
     os_Open_denied := fun p =>
       if decide (p = "/work/secret.yaml") then Some "permission denied" else None;
     os_Create_fails := os_Create_fails os;
     io_Copy_stops := io_Copy_stops os;
     os_WriteFile_fails := os_WriteFile_fails os |}.

(** A host for the examples: temporary directories are numbered below
    [/tmp], the rule set marshals, no removal fails, and a path that
    cannot be inspected does not exist and can be made. The paths of the
    examples are absolute. *)
Definition sampleHost : Host :=
  {| os_MkdirTemp := fun pattern dirs =>
       inl ("/tmp/" +:+ pattern +:+ Sprintf_d (length dirs));
     os_Stat_error := fun p => "stat " +:+ p +:+ ": no such file or directory";
     filepath_Base := fun p =>
       match last (filter (fun e => e <> "") (splitSlash p)) with
       | Some e => e
       | None => if isAbs p then "/" else "."
       end;
     filepath_Clean := fun p => default p (unixAbs None p);
     Marshal_tempRuleSet := inl "name: ruleset";
     os_RemoveAll_fails := fun _ _ => None;
     os_Stat_IsNotExist := fun _ => true;
     os_MkdirAll_fails := fun _ => None;
     os_Stat_after_MkdirAll := fun made p =>
       if decide (p = made) then Some {| IsDir := true |} else os_Stat rulesOS p |}.

Definition rulesFiles : FS :=
  {[ "/work/custom.yaml" := "- ruleID: custom-01";
     "/work/secret.yaml" := "- ruleID: secret-01" ]}.

Definition rulesCommand (rs : list string) : analyzeCommand :=
  {| skipStaticReport := false; sources := []; targets := [];
     input := "/work/app"; output := "/work/out"; mode := "full"; rules := rs |}.

(** The files [Clean] leaves when every removal succeeds. *)
Definition outsideAll (dirs : list string) (p : string) : bool :=
  forallb (fun dir => negb (inside dir p)) dirs.

(** The rules that are files: [os.Stat] answers, and not with a
    directory. *)
Definition hasRulesFile (os : OS) (rs : list string) : bool :=
  existsb (fun r => negb (statIsDir os r)) rs.

(** The host paths [getRulesVolumes] mounts: the rules that are
    directories, and the temporary directory when some rule is a file. *)
Definition mounted (os : OS) (rs : list string) (tempDir k : string) : bool :=
  bool_decide (k ∈ rs) && statIsDir os k
  || bool_decide (k = tempDir) && hasRulesFile os rs.

(** ** The analysis in containers: [RunAnalysis] and its volumes *)

(** Constants of the command's package that the files at hand use
    without declaring them, and constants of the provider package. The
    paths are clean, so joining a name to them is concatenation. *)
Record Settings : Type := {
  InputPath : string;
  OutputPath : string;
  RulesetPath : string;
  DepSourceLabel : string;
  LspServerPathConfigKey : string;
}.

(** The package variables derived from them. [SourceMountPath] is
    assigned by [Validate] and is therefore passed where it is read. *)
Definition ConfigMountPath (s : Settings) : string :=
  filepath_Join (InputPath s) "config".
Definition RulesMountPath (s : Settings) : string :=
  filepath_Join (RulesetPath s) "input".
Definition AnalysisOutputMountPath (s : Settings) : string :=
  filepath_Join (OutputPath s) "output.yaml".
Definition DepsOutputMountPath (s : Settings) : string :=
  filepath_Join (OutputPath s) "dependencies.yaml".
Definition ProviderSettingsMountPath (s : Settings) : string :=
  filepath_Join (ConfigMountPath s) "settings.json".

(** The fields of [analyzeCommand] that only the container commands
    read, with the package variable [SourceMountPath]. *)
Record containerFields : Type := {
  listSources : bool;
  listTargets : bool;
  analyzeKnownLibraries : bool;
  isFileInput : bool;
  SourceMountPath : string;
}.

(** Where a container's output goes. *)
Inductive writer : Type :=
  | Stdout
  | Stderr
  | LogFile (path : string).

(** The options a container is run with, as the command passes them. *)
Inductive containerOption : Type :=
  | WithEnv (k v : string)
  | WithVolumes (v : volumes)
  | WithStdout (ws : list writer)
  | WithStderr (ws : list writer)
  | WithEntrypointBin (bin : string)
  | WithEntrypointArgs (args : list string)
  | WithCleanup (b : bool).

(** The container runtime and the remaining library calls, by what they
    answer. A container changes the files of the host through its
    volumes. [container_Cp] and [container_Rm] act on the container that
    was run with the given options. *)
Record Runtime : Type := {
  container_Run : list containerOption -> FS -> FS * option error;
  container_Cp : list containerOption -> string -> string -> FS -> FS * option error;
  container_Rm : list containerOption -> option error;
  MarshalIndent_configs : list provider.Config -> string + error;
  filepath_Dir : string -> string;
}.

(** The provider settings of [getConfigVolumes]. *)
Definition containerProviderConfigs (s : Settings) (a : analyzeCommand)
    (otherProvsMountPath SourceMountPath : string) : list provider.Config :=
  [ {| provider.Name := "go";
       provider.BinaryPath := "/usr/bin/generic-external-provider";
       provider.InitConfigs :=
         [ {| provider.Location := otherProvsMountPath;
              provider.AnalysisMode := mode a;
              provider.ProviderSpecificConfig :=
                Some (<[ LspServerPathConfigKey s := IString "/root/go/bin/gopls" ]>
                        (<[ "dependencyProviderPath" :=
                              IString "/usr/bin/golang-dependency-provider" ]>
                           {[ "name" := IString "go" ]})) |} ];
       provider.ConfigProxy := None;
       provider.ContextLines := 0 |};
    {| provider.Name := "java";
       provider.BinaryPath := "/jdtls/bin/jdtls";
       provider.InitConfigs :=
         [ {| provider.Location := SourceMountPath;
              provider.AnalysisMode := mode a;
              provider.ProviderSpecificConfig :=
                Some (<[ LspServerPathConfigKey s := IString "/jdtls/bin/jdtls" ]>
                        (<[ "depOpenSourceLabelsFile" :=
                              IString "/usr/local/etc/maven.default.index" ]>
                           {[ "bundles" :=
                                IString "/jdtls/java-analyzer-bundle/java-analyzer-bundle.core/target/java-analyzer-bundle.core-1.0.0-SNAPSHOT.jar" ]})) |} ];
       provider.ConfigProxy := None;
       provider.ContextLines := 0 |};
    {| provider.Name := "builtin";
       provider.BinaryPath := "";
       provider.InitConfigs :=
         [ {| provider.Location := otherProvsMountPath;
              provider.AnalysisMode := mode a;
              provider.ProviderSpecificConfig := None |} ];
       provider.ConfigProxy := None;
       provider.ContextLines := 0 |} ].

(** [getConfigVolumes] *)
Definition getConfigVolumes (os : OS) (h : Host) (rt : Runtime) (s : Settings)
    (a : analyzeCommand) (f : containerFields) (st : hostState)
    : hostState * (volumes + error) :=
  match os_MkdirTemp h "analyze-config-" (tempDirs st) with
  | inr err => (st, inr err)
  | inl tempDir =>
      let dirs := tempDirs st ++ [tempDir] in
      let otherProvsMountPath :=
        if isFileInput f then filepath_Dir rt (SourceMountPath f)
        else SourceMountPath f in
      let provConfig :=
        containerProviderConfigs s a otherProvsMountPath (SourceMountPath f) in
      match MarshalIndent_configs rt provConfig with
      | inr err => ({| hostFiles := hostFiles st; tempDirs := dirs |}, inr err)
      | inl jsonData =>
          match os_WriteFile os (hostFiles st)
                  (filepath_Join tempDir "settings.json") jsonData with
          | inr err => ({| hostFiles := hostFiles st; tempDirs := dirs |}, inr err)
          | inl fs =>
              ({| hostFiles := fs; tempDirs := dirs |},
               inl {[ tempDir := ConfigMountPath s ]})
          end
      end
  end.

(** The arguments of the analyzer, lines 470-482. *)
Definition analysisArgs (s : Settings) (lbl : outputv1) (a : analyzeCommand)
    (f : containerFields) : list string :=
  ["--provider-settings=" +:+ ProviderSettingsMountPath s;
   "--rules=" +:+ RulesetPath s +:+ "/";
   "--output-file=" +:+ AnalysisOutputMountPath s]
  ++ (if negb (analyzeKnownLibraries f)
      then ["--dep-label-selector=(!" +:+ DepSourceLabel s +:+ "=open-source)"]
      else [])
  ++ (if nonblank (getLabelSelector lbl a)
      then ["--label-selector=" +:+ getLabelSelector lbl a]
      else []).

(** [maps.Copy(dst, src)]: the entries of [src] replace those of [dst]
    under the same key. *)
Definition maps_Copy (dst src : volumes) : volumes := src ∪ dst.

(** The map literal of line 449; were both keys the same, the entry
    written last would stay. *)
Definition baseVolumes (s : Settings) (a : analyzeCommand) (f : containerFields)
    : volumes :=
  <[ output a := OutputPath s ]> {[ input a := SourceMountPath f ]}.

Definition analyzerRun (s : Settings) (lbl : outputv1) (a : analyzeCommand)
    (f : containerFields) (vols : volumes) : list containerOption :=
  [ WithVolumes vols;
    WithStdout [Stdout; LogFile (filepath_Join (output a) "analysis.log")];
    WithStderr [Stdout; LogFile (filepath_Join (output a) "analysis.log")];
    WithEntrypointArgs (analysisArgs s lbl a f);
    WithEntrypointBin "/usr/bin/konveyor-analyzer" ].

Definition dependencyRun (s : Settings) (a : analyzeCommand) (vols : volumes)
    : list containerOption :=
  [ WithStdout [Stdout; LogFile (filepath_Join (output a) "dependency.log")];
    WithStderr [Stderr; LogFile (filepath_Join (output a) "dependency.log")];
    WithVolumes vols;
    WithEntrypointBin "/usr/bin/konveyor-analyzer-dep";
    WithEntrypointArgs
      ["--output-file=" +:+ DepsOutputMountPath s;
       "--provider-settings=" +:+ ProviderSettingsMountPath s] ].

(** The calls the command makes on containers, each container named by
    the options it was run with: [container.Run], [container.Cp] and
    [container.Rm]. An event records that the call was made, whatever it
    returned. *)
Inductive containerEvent : Type :=
  | Ran (opts : list containerOption)
  | Copied (opts : list containerOption) (src dst : string)
  | Rm (opts : list containerOption).

(** What a command of the container mode leaves: the host, what it did
    with containers, in order, and its result. *)
Record ran : Type := {
  host : hostState;
  containers : list containerEvent;
  returned : option error;
}.

(** [analyzeCommand.RunAnalysis] *)
Definition RunAnalysis (os : OS) (h : Host) (rt : Runtime) (s : Settings)
    (lbl : outputv1) (a : analyzeCommand) (f : containerFields) (st : hostState)
    : ran :=
  match getConfigVolumes os h rt s a f st with
  | (st1, inr err) => {| host := st1; containers := []; returned := Some err |}
  | (st1, inl configVols) =>
    let vols1 := maps_Copy (baseVolumes s a f) configVols in
    match (if nonempty (rules a)
           then getRulesVolumes os h (RulesMountPath s) a st1
           else (st1, inl ∅)) with
    | (st2, inr err) => {| host := st2; containers := []; returned := Some err |}
    | (st2, inl ruleVols) =>
      let vols := maps_Copy vols1 ruleVols in
      let analysisLogFilePath := filepath_Join (output a) "analysis.log" in
      let depsLogFilePath := filepath_Join (output a) "dependency.log" in
      match os_Create os (hostFiles st2) analysisLogFilePath with
      | inr _ =>
          {| host := st2; containers := [];
             returned := Some ("failed creating analysis log file at "
                               +:+ analysisLogFilePath) |}
      | inl fs3 =>
        match os_Create os fs3 depsLogFilePath with
        | inr _ =>
            {| host := {| hostFiles := fs3; tempDirs := tempDirs st2 |};
               containers := [];
               returned := Some ("failed creating dependency analysis log file "
                                 +:+ depsLogFilePath) |}
        | inl fs4 =>
          match container_Run rt (analyzerRun s lbl a f vols) fs4 with
          | (fs5, Some err) =>
              {| host := {| hostFiles := fs5; tempDirs := tempDirs st2 |};
                 containers := [Ran (analyzerRun s lbl a f vols)];
                 returned := Some err |}
          | (fs5, None) =>
            match container_Run rt (dependencyRun s a vols) fs5 with
            | (fs6, err) =>
                {| host := {| hostFiles := fs6; tempDirs := tempDirs st2 |};
                   containers := [Ran (analyzerRun s lbl a f vols);
                                  Ran (dependencyRun s a vols)];
                   returned := err |}
            end
          end
        end
      end
    end
  end.

(** [analyzeCommand.GenerateStaticReport] *)
Definition staticReportRun (rt : Runtime) (s : Settings) (a : analyzeCommand)
    (h : Host) (f : containerFields) : list containerOption :=
  [ WithEntrypointBin "/usr/local/bin/js-bundle-generator";
    WithEntrypointArgs
      ["--analysis-output-list=" +:+ AnalysisOutputMountPath s;
       "--deps-output-list=" +:+ DepsOutputMountPath s;
       "--output-path=" +:+ "/usr/local/static-report/output.js";
       "--application-name-list=" +:+ filepath_Base h (input a)];
    WithVolumes (<[ output a := OutputPath s ]> {[ input a := SourceMountPath f ]});
    WithCleanup false ].

Definition GenerateStaticReport (h : Host) (rt : Runtime) (s : Settings)
    (a : analyzeCommand) (f : containerFields) (st : hostState) : ran :=
  if skipStaticReport a
  then {| host := st; containers := []; returned := None |}
  else
    let run := staticReportRun rt s a h f in
    match container_Run rt run (hostFiles st) with
    | (fs1, Some err) =>
        {| host := {| hostFiles := fs1; tempDirs := tempDirs st |};
           containers := [Ran run]; returned := Some err |}
    | (fs1, None) =>
        match container_Cp rt run "/usr/local/static-report" (output a) fs1 with
        | (fs2, Some err) =>
            {| host := {| hostFiles := fs2; tempDirs := tempDirs st |};
               containers := [Ran run;
                              Copied run "/usr/local/static-report" (output a)];
               returned := Some err |}
        | (fs2, None) =>
            {| host := {| hostFiles := fs2; tempDirs := tempDirs st |};
               containers := [Ran run;
                              Copied run "/usr/local/static-report" (output a);
                              Rm run];
               returned := container_Rm rt run |}
        end
    end.
(** A runtime for the examples: containers that change nothing and
    succeed. *)
Definition sampleRuntime : Runtime :=
  {| container_Run := fun _ fs => (fs, None);
     container_Cp := fun _ _ _ fs => (fs, None);
     container_Rm := fun _ => None;
     MarshalIndent_configs := fun _ => inl "[]";
     filepath_Dir := fun p => p |}.

Definition sampleSettings : Settings :=
  {| InputPath := "/opt/input"; OutputPath := "/opt/output";
     RulesetPath := "/opt/rulesets"; DepSourceLabel := "konveyor.io/dep-source";
     LspServerPathConfigKey := "lspServerPath" |}.

Definition sampleFields : containerFields :=
  {| listSources := false; listTargets := false; analyzeKnownLibraries := false;
     isFileInput := false; SourceMountPath := "/opt/input/source" |}.

(** The volumes among a container's options. *)
Definition volumesOf (opts : list containerOption) : list volumes :=
  flat_map (fun o => match o with WithVolumes v => [v] | _ => [] end) opts.

(** The options a command ran containers with. *)
Definition ranWith (r : ran) : list (list containerOption) :=
  flat_map (fun e => match e with Ran opts => [opts] | _ => [] end) (containers r).

(** The argument is the option [name] with some value. *)
Definition isOption (name arg : string) : Prop :=
  dropPrefix (name +:+ "=") arg <> None.
(** ** [Validate] and [ListLabels] *)

(** What [Validate] leaves: the command with its fields [input] and
    [output], the fields and the package variable of the container mode,
    the directories made, and the result. *)
Record validated : Type := {
  command : analyzeCommand;
  fields : containerFields;
  madeDirs : list string;
  result_err : option error;
}.

Definition withInput (a : analyzeCommand) (p : string) : analyzeCommand :=
  {| skipStaticReport := skipStaticReport a; sources := sources a;
     targets := targets a; input := p; output := output a; mode := mode a;
     rules := rules a |}.

Definition withOutput (a : analyzeCommand) (p : string) : analyzeCommand :=
  {| skipStaticReport := skipStaticReport a; sources := sources a;
     targets := targets a; input := input a; output := p; mode := mode a;
     rules := rules a |}.

Definition asFileInput (f : containerFields) (mountPath : string) : containerFields :=
  {| listSources := listSources f; listTargets := listTargets f;
     analyzeKnownLibraries := analyzeKnownLibraries f;
     isFileInput := true; SourceMountPath := mountPath |}.

(** Lines 153-164 of [Validate]: the mode, then the absolute paths. *)
Definition validateMode (os : OS) (a : analyzeCommand) (f : containerFields)
    (made : list string) : validated :=
  if negb (bool_decide (mode a = provider.FullAnalysisMode))
     && negb (bool_decide (mode a = provider.SourceOnlyAnalysisMode))
  then {| command := a; fields := f; madeDirs := made;
          result_err := Some "mode must be one of 'full' or 'source-only'" |}
  else
    let a1 := match filepath_Abs os (output a) with
              | Some absPath => withOutput a absPath
              | None => a
              end in
    let a2 := match filepath_Abs os (input a1) with
              | Some absPath => withInput a1 absPath
              | None => a1
              end in
    {| command := a2; fields := f; madeDirs := made; result_err := None |}.

(** Lines 143-152: the input path. [filepath.Abs] returns the empty
    string with its error, and the assignment stores it in the field
    before the message is made. [SourceMountPath] is not empty, so that
    joining the base name to it puts a separator between the two. *)
Definition validateInput (os : OS) (h : Host) (a : analyzeCommand)
    (f : containerFields) (made : list string) : validated :=
  match (match made with
         | dir :: _ => os_Stat_after_MkdirAll h dir (input a)
         | [] => os_Stat os (input a)
         end) with
  | None =>
      {| command := a; fields := f; madeDirs := made;
         result_err := Some ("failed to stat input path " +:+ input a) |}
  | Some stat =>
      if negb (IsDir stat) then
        match filepath_Abs os (input a) with
        | None =>
            {| command := withInput a ""; fields := f; madeDirs := made;
               result_err :=
                 Some ("failed to get absolute path for input file " +:+ "") |}
        | Some absPath =>
            validateMode os (withInput a absPath)
              (asFileInput f
                 (filepath_Clean h (SourceMountPath f +:+ "/"
                                    +:+ filepath_Base h absPath)))
              made
        end
      else validateMode os a f made
  end.

(** [analyzeCommand.Validate] *)
Definition Validate (os : OS) (h : Host) (a : analyzeCommand) (f : containerFields)
    : validated :=
  if listSources f || listTargets f
  then {| command := a; fields := f; madeDirs := []; result_err := None |}
  else
    match os_Stat os (output a) with
    | None =>
        if os_Stat_IsNotExist h (output a) then
          match os_MkdirAll_fails h (output a) with
          | Some _ =>
              {| command := a; fields := f; madeDirs := [];
                 result_err := Some ("failed to create output dir " +:+ output a) |}
          | None => validateInput os h a f [output a]
          end
        else
          {| command := a; fields := f; madeDirs := [];
             result_err := Some ("failed to stat output directory " +:+ output a) |}
    | Some stat =>
        if negb (IsDir stat)
        then {| command := a; fields := f; madeDirs := [];
                result_err := Some ("output path " +:+ output a
                                    +:+ " is not a directory") |}
        else validateInput os h a f []
    end.

(** What [ListLabels] prints, with what it leaves. *)
Record listedLabels : Type := {
  printed : list string;
  listing : ran;
}.

(** The branch of [ListLabels] inside the container, for one label. *)
Definition listLabel (os : OS) (w : Walker) (s : Settings) (lbl : outputv1)
    (label : string) (st : hostState) : outcome listedLabels :=
  match readRuleFilesForLabels os w (hostFiles st) (RulesetPath s) label with
  | Panic => Panic
  | Done (_, Some err) =>
      Done {| printed := [];
              listing := {| host := st; containers := []; returned := Some err |} |}
  | Done (slice, None) =>
      Done {| printed := listOptionsFromLabels lbl slice label;
              listing := {| host := st; containers := []; returned := None |} |}
  end.

Definition listLabelsRun (f : containerFields) (vols : volumes)
    : list containerOption :=
  [ WithEnv "RUN_MODE" "container";
    WithVolumes vols;
    WithEntrypointBin "/usr/local/bin/kantra";
    WithEntrypointArgs
      ["analyze"; if listSources f then "--list-sources" else "--list-targets"] ].

(** [analyzeCommand.ListLabels]; [RUN_MODE] is the value of the
    environment variable of that name. *)
Definition ListLabels (os : OS) (w : Walker) (h : Host) (rt : Runtime)
    (s : Settings) (lbl : outputv1) (a : analyzeCommand) (f : containerFields)
    (RUN_MODE : string) (st : hostState) : outcome listedLabels :=
  if decide (RUN_MODE = "container") then
    if listSources f then listLabel os w s lbl (SourceTechnologyLabel lbl) st
    else if listTargets f then listLabel os w s lbl (TargetTechnologyLabel lbl) st
    else Done {| printed := [];
                 listing := {| host := st; containers := []; returned := None |} |}
  else
    match getRulesVolumes os h (RulesMountPath s) a st with
    | (st1, inr err) =>
        Done {| printed := [];
                listing := {| host := st1; containers := []; returned := Some err |} |}
    | (st1, inl vols) =>
        match container_Run rt (listLabelsRun f vols) (hostFiles st1) with
        | (fs, err) =>
            Done {| printed := [];
                    listing := {| host := {| hostFiles := fs; tempDirs := tempDirs st1 |};
                                  containers := [Ran (listLabelsRun f vols)];
                                  returned := err |} |}
        end
    end.

(** The flags of the command that [ListLabels] runs in the container,
    as the flag set of [NewAnalyzeCmd] reads them from the arguments. *)
Definition flagsOf (args : list string) : containerFields :=
  {| listSources := bool_decide ("--list-sources" ∈ args);
     listTargets := bool_decide ("--list-targets" ∈ args);
     analyzeKnownLibraries := bool_decide ("--analyze-known-libraries" ∈ args);
     isFileInput := false;
     SourceMountPath := "" |}.

(** The label whose technologies the command lists in the container. *)
Definition listedLabel (lbl : outputv1) (f : containerFields) : option string :=
  if listSources f then Some (SourceTechnologyLabel lbl)
  else if listTargets f then Some (TargetTechnologyLabel lbl)
  else None.
(** The answer of [os.Stat] for the input path at the time [Validate]
    asks: after the output directory was made, when it had to be. *)
Definition inputStat (os : OS) (h : Host) (a : analyzeCommand) : option FileInfo :=
  match os_Stat os (output a) with
  | None => os_Stat_after_MkdirAll h (output a) (input a)
  | Some _ => os_Stat os (input a)
  end.

(** [filepath.Abs] where it answers, the path itself where it fails. *)
Definition absOr (os : OS) (p : string) : string :=
  default p (filepath_Abs os p).

Definition validMode (m : string) : Prop :=
  m = provider.FullAnalysisMode \/ m = provider.SourceOnlyAnalysisMode.

(** ** Setting up the providers without containers *)

(** The fields of [analyzeCommand] that the set-up reads beside those of
    the record above. A key that [reqMap] does not hold reads as the
    empty string. *)
Record binFields : Type := {
  kantraDir : string;
  reqMap : gmap string string;
  mavenSettingsFile : string;
  httpProxy : string;
  httpsProxy : string;
  noProxy : string;
  contextLines : Z;
}.

(** Constants of the command's package that the file uses without
    declaring them. *)
Record binConstants : Type := {
  javaProvider : string;
  RulesetsLocation : string;
  JavaBundlesLocation : string;
  JDTLSBinLocation : string;
}.

(** The constructors of the providers, by what they answer:
    [java.NewJavaProvider] with its context lines and config, and
    [lib.GetProviderClient]. *)
Record Constructors : Type := {
  NewJavaProvider : Z -> provider.Config -> InternalProviderClient;
  GetProviderClient : provider.Config -> InternalProviderClient + error;
}.

(** [a.reqMap[k]] *)
Definition req (b : binFields) (k : string) : string := default "" (reqMap b !! k).

(** [javaConfig] of lines 314-332. *)
Definition javaConfigOf (s : Settings) (c : binConstants) (a : analyzeCommand)
    (b : binFields) : provider.Config :=
  let settings : gmap string iface :=
    <[ LspServerPathConfigKey s := IString (req b "jdtls") ]>
      (<[ "bundles" := IString (req b "bundle") ]>
         {[ "lspServerName" := IString (javaProvider c) ]}) in
  {| provider.Name := javaProvider c;
     provider.BinaryPath := req b "jdtls";
     provider.InitConfigs :=
       [ {| provider.Location := input a;
            provider.AnalysisMode := mode a;
            provider.ProviderSpecificConfig :=
              Some (if nonblank (mavenSettingsFile b)
                    then <[ "mavenSettingsFile" := IString (mavenSettingsFile b) ]> settings
                    else settings) |} ];
     provider.ConfigProxy := None;
     provider.ContextLines := 0 |}.

(** The builtin config of lines 334-344. *)
Definition builtinConfigOf (a : analyzeCommand) : provider.Config :=
  {| provider.Name := "builtin";
     provider.BinaryPath := "";
     provider.InitConfigs :=
       [ {| provider.Location := input a;
            provider.AnalysisMode := mode a;
            provider.ProviderSpecificConfig := None |} ];
     provider.ConfigProxy := None;
     provider.ContextLines := 0 |}.

(** The body of the loop of lines 347-359. *)
Definition withProxy (b : binFields) (config : provider.Config) : provider.Config :=
  {| provider.Name := provider.Name config;
     provider.BinaryPath := provider.BinaryPath config;
     provider.InitConfigs := provider.InitConfigs config;
     provider.ConfigProxy :=
       if nonblank (httpProxy b) || nonblank (httpsProxy b)
       then Some {| provider.HTTPProxy := httpProxy b;
                    provider.HTTPSProxy := httpsProxy b;
                    provider.NoProxy := noProxy b |}
       else provider.ConfigProxy config;
     provider.ContextLines := contextLines b |}.

(** The list that is written to [settings.json]. *)
Definition provConfigOf (s : Settings) (c : binConstants) (a : analyzeCommand)
    (b : binFields) : list provider.Config :=
  map (withProxy b) [builtinConfigOf a; javaConfigOf s c a b].

(** [analyzeCommand.createProviderConfigsContainerless] *)
Definition createProviderConfigsContainerless (os : OS) (rt : Runtime)
    (s : Settings) (c : binConstants) (a : analyzeCommand) (b : binFields)
    (fs : FS) : FS * (list provider.Config + error) :=
  let provConfig := provConfigOf s c a b in
  match MarshalIndent_configs rt provConfig with
  | inr err => (fs, inr err)
  | inl jsonData =>
      match os_WriteFile os fs (filepath_Join (output a) "settings.json") jsonData with
      | inr err => (fs, inr err)
      | inl fs' => (fs', inl (setConfigsContainerless os provConfig))
      end
  end.

(** Lines 417-430: the context lines and, when a mode is set, the mode
    of the command replace those of the config. *)
Definition withCommandMode (a : analyzeCommand) (b : binFields)
    (config : provider.Config) : provider.Config :=
  {| provider.Name := provider.Name config;
     provider.BinaryPath := provider.BinaryPath config;
     provider.InitConfigs :=
       if nonblank (mode a)
       then map (fun i =>
                   {| provider.Location := provider.Location i;
                      provider.AnalysisMode := mode a;
                      provider.ProviderSpecificConfig :=
                        provider.ProviderSpecificConfig i |})
                (provider.InitConfigs config)
       else provider.InitConfigs config;
     provider.ConfigProxy := provider.ConfigProxy config;
     provider.ContextLines := contextLines b |}.

(** The loop of [setInternalProviders]: the map [providers], in which a
    name may be bound to a nil client ([None]), and
    [providerLocations]. *)
Fixpoint internalProviders (k : Constructors) (c : binConstants)
    (a : analyzeCommand) (b : binFields) (finalConfigs : list provider.Config)
    (providers : gmap string (option InternalProviderClient))
    (providerLocations : list string)
    : result (gmap string (option InternalProviderClient) * list string) :=
  match finalConfigs with
  | [] => Returned (providers, providerLocations)
  | config :: rest =>
      let locations :=
        providerLocations ++ map provider.Location (provider.InitConfigs config) in
      let config' := withCommandMode a b config in
      if decide (provider.Name config = javaProvider c) then
        internalProviders k c a b rest
          (<[ provider.Name config := Some (NewJavaProvider k (contextLines b) config') ]>
             providers) locations
      else if decide (provider.Name config = "builtin") then
        match GetProviderClient k config' with
        | inr _ => Exited 1
        | inl prov =>
            internalProviders k c a b rest
              (<[ provider.Name config := Some prov ]> providers) locations
        end
      else
        internalProviders k c a b rest (<[ provider.Name config := None ]> providers)
          locations
  end.

(** [analyzeCommand.setInternalProviders] *)
Definition setInternalProviders (k : Constructors) (c : binConstants)
    (a : analyzeCommand) (b : binFields) (finalConfigs : list provider.Config)
    : result (gmap string (option InternalProviderClient) * list string) :=
  internalProviders k c a b finalConfigs ∅ [].

(** How often the input path appears among the locations of the builtin
    config: not at all unless it is a directory, once when it is its own
    absolute path, twice otherwise. *)
Definition builtinEntries (os : OS) (a : analyzeCommand) : nat :=
  if nonblank (input a) && statIsDir os (input a)
  then if decide (builtinLocationOf os (input a) = input a) then 1 else 2
  else 0.

(** The config the builtin provider is made from. *)
Definition builtinProviderConfig (os : OS) (a : analyzeCommand) (b : binFields)
    : provider.Config :=
  {| provider.Name := "builtin";
     provider.BinaryPath := "";
     provider.InitConfigs :=
       replicate (builtinEntries os a)
         {| provider.Location := builtinLocationOf os (input a);
            provider.AnalysisMode := mode a;
            provider.ProviderSpecificConfig := None |};
     provider.ConfigProxy := None;
     provider.ContextLines := contextLines b |}.

(** The config the java provider is made from. *)
Definition javaProviderConfig (s : Settings) (c : binConstants)
    (a : analyzeCommand) (b : binFields) : provider.Config :=
  withProxy b (javaConfigOf s c a b).
(** [walkRuleFilesForLabelsContainerless]; [os.IsNotExist(err)] is false
    for a nil error. *)
Definition walkRuleFilesForLabelsContainerless (os : OS) (w : Walker) (h : Host)
    (c : binConstants) (b : binFields) (fs : FS) (label : string)
    : outcome (list string * option error) :=
  let path := filepath_Join (kantraDir b) (RulesetsLocation c) in
  match os_Stat os path with
  | None =>
      if os_Stat_IsNotExist h path then Done ([], Some (os_Stat_error h path))
      else readRuleFilesForLabels os w fs path label
  | Some _ => readRuleFilesForLabels os w fs path label
  end.

(** The check of one value of [reqMap] in [setBinMapContainerless]. *)
Definition checkBin (os : OS) (h : Host) (v : string) : option error :=
  match os_Stat os v with
  | None => Some (os_Stat_error h v +:+ " failed to stat bin " +:+ v)
  | Some stat =>
      if IsDir stat then Some ("unable to find expected file at " +:+ v) else None
  end.

(** The loop over [reqMap], the keys being visited in the order [keys]. *)
Fixpoint checkBins (os : OS) (h : Host) (m : gmap string string)
    (keys : list string) : option error :=
  match keys with
  | [] => None
  | k :: rest =>
      match m !! k with
      | None => checkBins os h m rest
      | Some v =>
          match checkBin os h v with
          | Some err => Some err
          | None => checkBins os h m rest
          end
      end
  end.

Definition withReqMap (b : binFields) (m : gmap string string) : binFields :=
  {| kantraDir := kantraDir b; reqMap := m;
     mavenSettingsFile := mavenSettingsFile b; httpProxy := httpProxy b;
     httpsProxy := httpsProxy b; noProxy := noProxy b;
     contextLines := contextLines b |}.

(** [setBinMapContainerless]; [keys] is the order in which the [range]
    visits the map. *)
Definition setBinMapContainerless (os : OS) (h : Host) (c : binConstants)
    (b : binFields) (keys : list string) : binFields * option error :=
  let m := <[ "jdtls" := filepath_Join (kantraDir b) (JDTLSBinLocation c) ]>
             (<[ "bundle" := filepath_Join (kantraDir b) (JavaBundlesLocation c) ]>
                (reqMap b)) in
  (withReqMap b m, checkBins os h m keys).

(** Samples: the constants, a command in the working directory of
    [rulesOS] that names its input by a relative path, and constructors
    that succeed. *)
Definition sampleConstants : binConstants :=
  {| javaProvider := "java"; RulesetsLocation := "rulesets";
     JavaBundlesLocation := "jdtls/java-analyzer-bundle.jar";
     JDTLSBinLocation := "jdtls/bin/jdtls" |}.

Definition sampleBin : binFields :=
  {| kantraDir := "/work/.kantra"; reqMap := ∅; mavenSettingsFile := "";
     httpProxy := "http://proxy:3128"; httpsProxy := ""; noProxy := "";
     contextLines := 10 |}.

Definition relativeCommand : analyzeCommand :=
  {| skipStaticReport := false; sources := []; targets := [];
     input := "app"; output := "/work/out"; mode := "full"; rules := [] |}.

Definition sampleConstructors : Constructors :=
  {| NewJavaProvider := fun _ _ => okClient [] pomDeps;
     GetProviderClient := fun _ => inl (okClient [] []) |}.

(** A tree in which the directory of the command holds everything but
    the rule sets, and a walker that finds no root there. *)
Definition kantraOS : OS :=
  unixOS (Some "/work") ["/"; "/work"; "/work/.kantra"; "/work/.kantra/jdtls"]
    ["/work/.kantra/jdtls/java-analyzer-bundle.jar"; "/work/.kantra/jdtls/bin/jdtls"].

(** ** The claims about the artifacts, as the specification words them *)

(** After the run the output directory holds no dependency artifact. *)
Definition leavesNoDependencyArtifact (env : Env) (lbl : outputv1)
    (a : analyzeCommand) (fs : FS) : Prop :=
  files (runFrom fs (RunAnalysisContainerless env lbl a)).2 !! dependenciesYaml a
  = None.

(** Each item carries the name of the provider that produced it, with
    one location of that provider's answer. *)
Definition attributedToProducer (providers : providerMap)
    (items : list konveyor.DepsFlatItem) : Prop :=
  forall i, i ∈ items ->
    exists p, (konveyor.Provider i, p) ∈ providers
      /\ (konveyor.FileURI i, konveyor.Dependencies i) ∈ (GetDependencies p).1.




(* ===================================================================== *)
(** * Part II: the properties *)
(* ===================================================================== *)

Lemma string_app_assoc (s1 s2 s3 : string) :
  (s1 +:+ s2) +:+ s3 = s1 +:+ (s2 +:+ s3).
Proof.
  induction s1 as [|c s1 IH]; [reflexivity|].
  change (String c ((s1 +:+ s2) +:+ s3) = String c (s1 +:+ s2 +:+ s3)).
  now rewrite IH.
Qed.

Lemma string_app_cons (c : ascii) (s1 s2 : string) :
  String c s1 +:+ s2 = String c (s1 +:+ s2).
Proof. reflexivity. Qed.

Lemma string_app_nil_l (s : string) : "" +:+ s = s.
Proof. reflexivity. Qed.

(** Normal form of a concatenation of literals and variables. *)
Ltac string_norm :=
  repeat first [ rewrite string_app_assoc
               | rewrite string_app_cons
               | rewrite string_app_nil_l ].

Section LabelSelector.

Variable lbl : outputv1.

Lemma nonblank_paren (s : string) : nonblank (sprintf_paren s) = true.
Proof. reflexivity. Qed.

Lemma getLabelSelector_target_only (a : analyzeCommand) :
  sources a = [] -> targets a <> [] ->
  getLabelSelector lbl a =
    sprintf_and_or
      (sprintf_paren
         (strings_Join (map (sprintf_eq (TargetTechnologyLabel lbl)) (targets a)) " || "))
      (SourceTechnologyLabel lbl) "discovery".
Proof.
  intros Hs Ht. unfold getLabelSelector. rewrite Hs.
  destruct (targets a) as [|t ts]; [congruence|]. reflexivity.
Qed.

End LabelSelector.

(** C3 (as stated, refuted): with the labels named as the specification
    names them, the selector built for targets [cloud-readiness] and no
    source is not the string the claim gives: the code wraps the target
    group in parentheses of its own. *)
Lemma C3_label_selector_target_only_counterexample :
  getLabelSelector spec_labels (withFilters ["cloud-readiness"] [])
  <> "(target=cloud-readiness && source) || (discovery)".
Proof. vm_compute. discriminate. Qed.

(** C3 (amended): for targets [cloud-readiness] and no source the builder
    returns the target group in its own parentheses, AND-ed with the bare
    source label, OR-ed with the discovery default; with the labels named
    [target] and [source] this is
    ["((target=cloud-readiness) && source) || (discovery)"]. *)
Theorem C3_label_selector_target_only :
  (forall lbl : outputv1,
     getLabelSelector lbl (withFilters ["cloud-readiness"] []) =
     "((" +:+ TargetTechnologyLabel lbl +:+ "=cloud-readiness) && "
       +:+ SourceTechnologyLabel lbl +:+ ") || (discovery)")
  /\ getLabelSelector spec_labels (withFilters ["cloud-readiness"] [])
     = "((target=cloud-readiness) && source) || (discovery)".
Proof.
  split; [|reflexivity].
  intros lbl. rewrite getLabelSelector_target_only; [|reflexivity|discriminate].
  unfold sprintf_and_or, sprintf_paren, sprintf_eq, strings_Join, map, String.concat.
  cbn [TargetTechnologyLabel targets withFilters].
  string_norm. reflexivity.
Qed.

(** ** ConfigMerger *)

Example unixAbs_relative : unixAbs (Some "/work") "./app" = Some "/work/app".
Proof. reflexivity. Qed.

Example unixAbs_dotdot : unixAbs (Some "/work") "../work/./app/" = Some "/work/app".
Proof. reflexivity. Qed.

Example setConfigs_same_relative :
  fallbackInitConfigs
    (setConfigsContainerless workOS
       [configOf "builtin" [initAt "app" None];
        configOf "java" [initAt "app" None]])
  = [ {| provider.Location := "/work/app"; provider.AnalysisMode := "";
         provider.ProviderSpecificConfig := None |};
      {| provider.Location := "/work/app"; provider.AnalysisMode := "";
         provider.ProviderSpecificConfig := None |} ].
Proof. vm_compute. reflexivity. Qed.

Example setConfigs_same_absolute :
  fallbackInitConfigs
    (setConfigsContainerless workOS
       [configOf "builtin" [initAt "/work/app" None];
        configOf "java" [initAt "/work/app" None]])
  = [ {| provider.Location := "/work/app"; provider.AnalysisMode := "";
         provider.ProviderSpecificConfig := None |} ].
Proof. vm_compute. reflexivity. Qed.

(** C1 (the code at the failing input): the fallback config and the java
    config name the directory [/work/app] by the relative spellings [app]
    and [./app]; the merged fallback list holds two entries for it, not
    one: the loop looks the raw spelling up in [seenBuiltinConfigs] but
    records the absolute path there. *)
Lemma C1_relative_spellings_duplicated :
  filepath_Abs workOS "app" = Some "/work/app"
  /\ filepath_Abs workOS "./app" = Some "/work/app"
  /\ fallbackInitConfigs
       (setConfigsContainerless workOS
          [configOf "builtin" [initAt "app" None];
           configOf "java" [initAt "./app" None]])
     = [ {| provider.Location := "/work/app"; provider.AnalysisMode := "";
            provider.ProviderSpecificConfig := None |};
         {| provider.Location := "/work/app"; provider.AnalysisMode := "";
            provider.ProviderSpecificConfig := None |} ].
Proof. vm_compute. repeat split; reflexivity. Qed.

Section ConfigMerger.

Variable os : OS.

Lemma withFinal_id (st : mergeState) : withFinal (finalConfigs st) st = st.
Proof. now destruct st. Qed.

Lemma withFinal_twice (f g : list provider.Config) (st : mergeState) :
  withFinal f (withFinal g st) = withFinal f st.
Proof. reflexivity. Qed.

Lemma visitInitConf_withFinal f name st ic :
  visitInitConf os name (withFinal f st) ic
  = withFinal f (visitInitConf os name st ic).
Proof.
  unfold visitInitConf; cbn.
  destruct (seenBuiltinConfigs st !! provider.Location ic); [reflexivity|].
  destruct (nonblank _); [|reflexivity].
  destruct (statIsDir _ _); reflexivity.
Qed.

Lemma fold_visitInitConf_withFinal f name ics st :
  fold_left (visitInitConf os name) ics (withFinal f st)
  = withFinal f (fold_left (visitInitConf os name) ics st).
Proof.
  revert st. induction ics as [|ic ics IH]; intros st; cbn; [reflexivity|].
  now rewrite visitInitConf_withFinal, IH.
Qed.

Lemma fold_visitPair_withFinal f vs st :
  fold_left (visitPair os) vs (withFinal f st)
  = withFinal f (fold_left (visitPair os) vs st).
Proof.
  revert st. induction vs as [|v vs IH]; intros st; cbn; [reflexivity|].
  unfold visitPair at 2. now rewrite visitInitConf_withFinal, IH.
Qed.

Lemma fold_visitInitConf_pairs name ics st :
  fold_left (visitInitConf os name) ics st
  = fold_left (visitPair os) (map (pair name) ics) st.
Proof.
  revert st. induction ics as [|ic ics IH]; intros st; cbn; [reflexivity|].
  now rewrite IH.
Qed.

Lemma visitConfig_visits st c :
  visitConfig os st c
  = withFinal (finalConfigs st ++ passThrough [c])
      (fold_left (visitPair os) (map (pair (provider.Name c)) (provider.InitConfigs c)) st).
Proof.
  unfold visitConfig, passThrough. rewrite <- fold_visitInitConf_pairs.
  rewrite filter_cons, filter_nil. cbv beta.
  destruct (decide (provider.Name c <> "builtin")) as [Hn|Hn].
  - change {| seenBuiltinConfigs := seenBuiltinConfigs st;
              defaultBuiltinConfigs := defaultBuiltinConfigs st;
              finalConfigs := finalConfigs st ++ [c] |}
      with (withFinal (finalConfigs st ++ [c]) st).
    now rewrite fold_visitInitConf_withFinal.
  - rewrite app_nil_r.
    rewrite <- (withFinal_id st) at 1.
    now rewrite fold_visitInitConf_withFinal.
Qed.

Lemma fold_visitConfig_visits configs st :
  fold_left (visitConfig os) configs st
  = withFinal (finalConfigs st ++ passThrough configs)
      (fold_left (visitPair os) (visits configs) st).
Proof.
  revert st. induction configs as [|c configs IH]; intros st.
  - cbn. unfold passThrough. change (filter _ []) with (@nil provider.Config).
    rewrite app_nil_r. now rewrite withFinal_id.
  - cbn [fold_left]. rewrite IH, visitConfig_visits. cbn [finalConfigs withFinal].
    rewrite fold_visitPair_withFinal, withFinal_twice.
    unfold visits at 2. cbn [flat_map]. rewrite fold_left_app. fold (visits configs).
    f_equal. rewrite <- app_assoc. f_equal.
    unfold passThrough. change (c :: configs) with ([c] ++ configs).
    now rewrite filter_app.
Qed.

(** The merged list is the non-fallback configs in their order, followed
    by one fallback config. *)
Lemma setConfigsContainerless_shape configs :
  setConfigsContainerless os configs
  = passThrough configs
    ++ [builtinConfig
          (defaultBuiltinConfigs (fold_left (visitPair os) (visits configs) mergeStart))].
Proof.
  unfold setConfigsContainerless. now rewrite fold_visitConfig_visits.
Qed.

Lemma fallbackInitConfigs_visits configs :
  fallbackInitConfigs (setConfigsContainerless os configs)
  = defaultBuiltinConfigs (fold_left (visitPair os) (visits configs) mergeStart).
Proof.
  rewrite setConfigsContainerless_shape. unfold fallbackInitConfigs.
  now rewrite last_snoc.
Qed.

Lemma visitPair_cases st v :
  (visitPair os st v = st)
  \/ (seenBuiltinConfigs st !! provider.Location v.2 = None
      /\ provider.Location v.2 <> ""
      /\ statIsDir os (provider.Location v.2) = true
      /\ visitPair os st v
         = {| seenBuiltinConfigs :=
                <[builtinLocationOf os (provider.Location v.2) := true]>
                  (seenBuiltinConfigs st);
              defaultBuiltinConfigs :=
                defaultBuiltinConfigs st ++ [entryFor os v.1 v.2];
              finalConfigs := finalConfigs st |}).
Proof.
  unfold visitPair, visitInitConf.
  destruct (seenBuiltinConfigs st !! provider.Location v.2) eqn:Hseen; [now left|].
  destruct (provider.Location v.2) as [|ch l] eqn:Hl; [now left|]. cbn [nonblank].
  destruct (statIsDir os (String ch l)) eqn:Hd; [|now left].
  right. split; [reflexivity|]. split; [discriminate|]. split; [reflexivity|].
  unfold entryFor. now rewrite ?Hl.
Qed.




(** Every merged entry is the entry of some visit of an existing
    directory. *)
Lemma fold_visitPair_origin vs st e :
  e ∈ defaultBuiltinConfigs (fold_left (visitPair os) vs st) ->
  e ∈ defaultBuiltinConfigs st
  \/ exists v, v ∈ vs /\ e = entryFor os v.1 v.2
              /\ statIsDir os (provider.Location v.2) = true.
Proof.
  revert st. induction vs as [|v vs IH]; intros st; cbn [fold_left]; [now left|].
  intros He. destruct (IH _ He) as [Hst | (w & Hw & Hew)].
  - destruct (visitPair_cases st v) as [Heq | (_ & _ & Hd & Heq)];
      rewrite Heq in Hst; [now left|]. cbn in Hst.
    apply elem_of_app in Hst as [Hst|Hst]; [now left|].
    apply list_elem_of_singleton in Hst. right. exists v.
    split; [apply list_elem_of_here|]. now split.
  - right. exists w. split; [now apply list_elem_of_further|exact Hew].
Qed.

End ConfigMerger.

Lemma elem_of_visits (configs : list provider.Config) (v : string * provider.InitConfig) :
  v ∈ visits configs ->
  exists c, c ∈ configs /\ v.1 = provider.Name c /\ v.2 ∈ provider.InitConfigs c.
Proof.
  unfold visits. rewrite list_elem_of_In, in_flat_map.
  intros (c & Hc & Hv). exists c. apply list_elem_of_In in Hc.
  split; [exact Hc|]. apply in_map_iff in Hv as (ic & <- & Hic).
  split; [reflexivity|]. now apply list_elem_of_In.
Qed.





(** ** The stable sort *)

Section StableSort.

Context {A : Type} (less : A -> A -> bool).

Hypothesis less_asym : forall x y, less x y = true -> less y x = false.
Hypothesis less_trans :
  forall x y z, less x y = true -> less y z = true -> less x z = true.

Lemma insertStable_Permutation (x : A) (l : list A) :
  Permutation (insertStable less x l) (x :: l).
Proof.
  induction l as [|y ys IH]; cbn; [reflexivity|].
  destruct (less y x); [|reflexivity].
  rewrite IH. apply perm_swap.
Qed.

Lemma SliceStable_Permutation (l : list A) : Permutation (SliceStable less l) l.
Proof.
  induction l as [|x l IH]; cbn; [reflexivity|].
  now rewrite insertStable_Permutation, IH.
Qed.

Lemma insertStable_HdRel (a x : A) (l : list A) :
  notAfter less a x -> HdRel (notAfter less) a l ->
  HdRel (notAfter less) a (insertStable less x l).
Proof.
  intros Hax Hl. destruct l as [|y ys]; cbn; [now constructor|].
  destruct (less y x); constructor; [|exact Hax].
  now inversion Hl.
Qed.

Lemma insertStable_Sorted (x : A) (l : list A) :
  Sorted (notAfter less) l -> Sorted (notAfter less) (insertStable less x l).
Proof.
  induction l as [|y ys IH]; intros Hs; cbn.
  - repeat constructor.
  - inversion Hs as [|? ? Hys Hhd]; subst.
    destruct (less y x) eqn:Hyx.
    + constructor; [now apply IH|].
      apply insertStable_HdRel; [|exact Hhd]. now apply less_asym.
    + constructor; [exact Hs|]. now constructor.
Qed.

Lemma SliceStable_Sorted (l : list A) : Sorted (notAfter less) (SliceStable less l).
Proof.
  induction l as [|x l IH]; cbn; [constructor|].
  now apply insertStable_Sorted.
Qed.

(** Two insertions commute when [less] orders the inserted elements. *)
Lemma insertStable_comm (x y : A) (l : list A) :
  less x y = true ->
  insertStable less x (insertStable less y l)
  = insertStable less y (insertStable less x l).
Proof.
  intros Hxy. pose proof (less_asym _ _ Hxy) as Hyx.
  induction l as [|z zs IH]; cbn.
  - now rewrite Hxy, Hyx.
  - destruct (less z x) eqn:Hzx, (less z y) eqn:Hzy; cbn;
      rewrite ?Hzx, ?Hzy, ?Hxy, ?Hyx; try reflexivity.
    + now rewrite IH.
    + now rewrite (less_trans _ _ _ Hzx Hxy) in Hzy.
Qed.

End StableSort.

(** ** The bytewise order of strings *)

Lemma ltb_asym (s t : string) : String.ltb s t = true -> String.ltb t s = false.
Proof.
  unfold String.ltb. rewrite (String.compare_antisym t s).
  now destruct (String.compare s t).
Qed.

Lemma ltb_trans (s t u : string) :
  String.ltb s t = true -> String.ltb t u = true -> String.ltb s u = true.
Proof.
  unfold String.ltb.
  destruct (String.compare s t) eqn:Hst; try discriminate.
  destruct (String.compare t u) eqn:Htu; try discriminate.
  intros _ _.
  apply String_as_OT.cmp_lt in Hst, Htu.
  pose proof (String_as_OT.lt_trans _ _ _ Hst Htu) as Hsu.
  apply String_as_OT.cmp_lt in Hsu. unfold String_as_OT.cmp in Hsu.
  now rewrite Hsu.
Qed.

Lemma ltb_total (s t : string) :
  String.ltb s t = false -> String.ltb t s = false -> s = t.
Proof.
  unfold String.ltb. rewrite (String.compare_antisym t s).
  destruct (String.compare s t) eqn:Hst; try discriminate.
  intros _ _. now apply String.compare_eq_iff.
Qed.

Section SortByKey.

Context {A : Type} (key : A -> string).

Lemma lessBy_asym (x y : A) : lessBy key x y = true -> lessBy key y x = false.
Proof. apply ltb_asym. Qed.

Lemma lessBy_trans (x y z : A) :
  lessBy key x y = true -> lessBy key y z = true -> lessBy key x z = true.
Proof. apply ltb_trans. Qed.

Lemma lessBy_comm (x y : A) (l : list A) :
  key x <> key y ->
  insertStable (lessBy key) x (insertStable (lessBy key) y l)
  = insertStable (lessBy key) y (insertStable (lessBy key) x l).
Proof.
  intros Hne.
  destruct (lessBy key x y) eqn:Hxy.
  - now apply (insertStable_comm (lessBy key) lessBy_asym lessBy_trans).
  - destruct (lessBy key y x) eqn:Hyx.
    + symmetry. now apply (insertStable_comm (lessBy key) lessBy_asym lessBy_trans).
    + destruct Hne. now apply ltb_total.
Qed.

(** With distinct keys the sorted slice does not depend on the order of
    the input. *)
Lemma SliceStable_order_independent (l l' : list A) :
  Permutation l l' -> NoDup (map key l) ->
  SliceStable (lessBy key) l = SliceStable (lessBy key) l'.
Proof.
  induction 1 as [|x l l' Hp IH|x y l|l l' l'' Hp1 IH1 Hp2 IH2]; intros Hnd.
  - reflexivity.
  - cbn. f_equal. apply IH. now inversion Hnd.
  - cbn. apply lessBy_comm. cbn in Hnd. inversion Hnd as [|? ? Hnotin _]; subst.
    intros Heq. apply Hnotin. rewrite Heq. apply list_elem_of_here.
  - rewrite IH1 by exact Hnd. apply IH2.
    assert (Hpm : Permutation (map key l) (map key l')) by now apply Permutation_map.
    now rewrite <- Hpm.
Qed.



End SortByKey.


(** ** LabelSelectorBuilder: no filter *)

(** C7: with no source and no target the builder returns the empty
    string, for which the run creates no selector at all; the empty string
    is not the discovery-only expression. *)
Theorem C7_label_selector_empty (lbl : outputv1) (env : Env) (a : analyzeCommand)
    (st : runState) :
  sources a = [] -> targets a = [] ->
  getLabelSelector lbl a = ""
  /\ makeSelectors env (getLabelSelector lbl a) st = (Next [], st)
  /\ getLabelSelector lbl a <> "(discovery)".
Proof.
  intros Hs Ht.
  assert (He : getLabelSelector lbl a = "")
    by (unfold getLabelSelector; now rewrite Hs, Ht).
  rewrite He. repeat split. discriminate.
Qed.

Lemma C7_label_selector_empty_witness :
  getLabelSelector spec_labels (withFilters [] []) = ""
  /\ makeSelectors (sampleEnv []) (getLabelSelector spec_labels (withFilters [] []))
       {| files := ∅; events := [] |}
     = (Next [], {| files := ∅; events := [] |})
  /\ getLabelSelector spec_labels (withFilters [] []) <> "(discovery)".
Proof.
  apply (C7_label_selector_empty spec_labels (sampleEnv []) (withFilters [] [])
           {| files := ∅; events := [] |}); reflexivity.
Defined.

(** ** [copyFileContents] *)

(** C10: when the source cannot be opened the function returns nil and
    leaves the file system as it was; a destination that did not exist
    still does not. *)
Theorem C10_copy_unopened_source (os : OS) (fs : FS) (src dst : string) :
  (exists err, os_Open os fs src = inr err) ->
  copyFileContents os fs src dst = (fs, None)
  /\ (copyFileContents os fs src dst).1 !! dst = fs !! dst.
Proof.
  intros [err Hopen]. unfold copyFileContents. now rewrite Hopen.
Qed.

Lemma C10_copy_unopened_source_witness :
  copyFileContents workOS ∅ "/work/rules.yaml" "/tmp/rules0.yaml" = (∅, None)
  /\ (copyFileContents workOS ∅ "/work/rules.yaml" "/tmp/rules0.yaml").1
       !! "/tmp/rules0.yaml" = (∅ : FS) !! "/tmp/rules0.yaml".
Proof.
  apply (C10_copy_unopened_source workOS ∅ "/work/rules.yaml" "/tmp/rules0.yaml").
  exists "no such file or directory". reflexivity.
Defined.

Example copyFileContents_copies :
  copyFileContents workOS {[ "/work/rules.yaml" := "rules" ]}
    "/work/rules.yaml" "/tmp/rules0.yaml"
  = ({[ "/work/rules.yaml" := "rules"; "/tmp/rules0.yaml" := "rules" ]}, None).
Proof. vm_compute. reflexivity. Qed.

(** ** RuleEvaluationCoordinator: the order of the results *)

Lemma leb_ltb (s t : string) : String.leb s t = negb (String.ltb t s).
Proof.
  unfold String.leb, String.ltb. rewrite (String.compare_antisym s t).
  now destruct (String.compare t s).
Qed.

Lemma leb_trans (s t u : string) :
  String.leb s t = true -> String.leb t u = true -> String.leb s u = true.
Proof.
  rewrite !leb_ltb, !negb_true_iff. intros Hts Hut.
  destruct (String.ltb u s) eqn:Hus; [|reflexivity].
  destruct (String.ltb s t) eqn:Hst.
  - now rewrite (ltb_trans _ _ _ Hus Hst) in Hut.
  - rewrite (ltb_total s t Hst Hts) in Hus. congruence.
Qed.







Example rulesets_sorted :
  SliceStable lessRuleSet
    [ruleSetNamed "eap7"; ruleSetNamed "discovery"; ruleSetNamed "cloud"]
  = [ruleSetNamed "cloud"; ruleSetNamed "discovery"; ruleSetNamed "eap7"].
Proof. reflexivity. Qed.

(** ** ProviderLifecycleManager: initialization failures *)

Lemma initProviders_failure (needProviders : providerMap)
    (acc : list provider.InitConfig) (name : string)
    (prov : InternalProviderClient) (err : error) :
  (name, prov) ∈ needProviders -> name <> "builtin" ->
  (ProviderInit prov []).2 = Some err ->
  initProviders needProviders acc = Exited 1.
Proof.
  intros Hin Hname Herr. revert acc.
  induction needProviders as [|[n p] rest IH]; intros acc.
  - now apply elem_of_nil in Hin.
  - cbn [initProviders].
    apply elem_of_cons in Hin as [Heq|Hin].
    + injection Heq as <- <-.
      destruct (decide (name = "builtin")); [contradiction|].
      destruct (ProviderInit prov []) as [confs [e|]]; [reflexivity|discriminate].
    + destruct (decide (n = "builtin")); [now apply IH|].
      destruct (ProviderInit p []) as [confs [e|]]; [reflexivity|now apply IH].
Qed.

Lemma initProviders_success (needProviders : providerMap)
    (acc : list provider.InitConfig) :
  (forall name prov, (name, prov) ∈ needProviders -> name <> "builtin" ->
     (ProviderInit prov []).2 = None) ->
  initProviders needProviders acc
  = Returned (acc ++ additionalConfigs needProviders).
Proof.
  revert acc. induction needProviders as [|[n p] rest IH]; intros acc Hall.
  - cbn. now rewrite app_nil_r.
  - cbn [initProviders additionalConfigs flat_map fst snd].
    assert (Hrest : forall name prov, (name, prov) ∈ rest -> name <> "builtin" ->
                      (ProviderInit prov []).2 = None).
    { intros name prov Hin. apply Hall. now apply list_elem_of_further. }
    destruct (decide (n = "builtin")) as [Hb|Hb]; [now apply IH|].
    pose proof (Hall n p (list_elem_of_here _ _) Hb) as Hok.
    destruct (ProviderInit p []) as [confs [e|]]; [discriminate|]. cbn [fst].
    rewrite IH by exact Hrest. now rewrite <- app_assoc.
Qed.

(** When [startProvidersContainerless] exits or returns an error, the run
    exits with status 1 before any task, engine call or file write. *)
Lemma evaluateAndWrite_init_exit (env : Env) (a : analyzeCommand)
    (selectors : list string) (providers : providerMap) (st : runState) :
  startProvidersContainerless (needProviders env) = Exited 1 ->
  evaluateAndWrite env a selectors providers st = (Stop (Exited 1), st).
Proof. intros Hs. unfold evaluateAndWrite, bindM. now rewrite Hs. Qed.

Lemma evaluateAndWrite_init_error (env : Env) (a : analyzeCommand)
    (selectors : list string) (providers : providerMap) (st : runState)
    (err : error) :
  startProvidersContainerless (needProviders env) = Returned (Some err) ->
  evaluateAndWrite env a selectors providers st = (Stop (Exited 1), st).
Proof. intros Hs. unfold evaluateAndWrite, bindM. now rewrite Hs. Qed.

(** The set-up leaves the state alone: it goes on, or it ends the run
    with an error or an exit. *)
Lemma setUpAnalysis_cases (env : Env) (lbl : outputv1) (a : analyzeCommand)
    (st : runState) :
  (exists sp, setUpAnalysis env lbl a st = (Next sp, st))
  \/ (exists r, setUpAnalysis env lbl a st = (Stop r, st) /\ r <> Returned None).
Proof.
  unfold setUpAnalysis, bindM, orReturn, orExit, makeSelectors, liftResult,
    returnM, exitM, retM.
  destruct (ValidateContainerless_err env);
    [right; eexists; split; [reflexivity|discriminate]|].
  destruct (createAnalysisLog_fails env);
    [right; eexists; split; [reflexivity|discriminate]|].
  destruct (nonblank (getLabelSelector lbl a));
    [destruct (NewLabelSelector_fails env _);
       [right; eexists; split; [reflexivity|discriminate]|]|];
    (destruct (setBinMapContainerless_err env);
       [right; eexists; split; [reflexivity|discriminate]|];
     destruct (createProviderConfigsContainerless_err env);
       [right; eexists; split; [reflexivity|discriminate]|];
     destruct (setInternalProviders_result env);
       [left; eexists; reflexivity
       |right; eexists; split; [reflexivity|discriminate]]).
Qed.

(** A run whose provider start-up fails ends unsuccessfully, having
    started nothing and written nothing. *)
Lemma run_not_started (env : Env) (lbl : outputv1) (a : analyzeCommand) (fs : FS) :
  (forall sel prov st,
     evaluateAndWrite env a sel prov st = (Stop (Exited 1), st)) ->
  (runFrom fs (RunAnalysisContainerless env lbl a)).1 <> Returned None
  /\ (runFrom fs (RunAnalysisContainerless env lbl a)).2
     = {| files := fs; events := [] |}.
Proof.
  intros Hev. unfold runFrom, RunAnalysisContainerless, bindM.
  destruct (setUpAnalysis_cases env lbl a {| files := fs; events := [] |})
    as [[sp ->] | (r & -> & Hr)].
  - rewrite Hev. cbn. split; [discriminate|reflexivity].
  - cbn. split; [exact Hr|reflexivity].
Qed.

(** C4: if the [Init] of some non-fallback provider fails,
    [startProvidersContainerless] ends the process with status 1; if
    every non-fallback [Init] succeeds and the fallback's [Init] (on the
    configs the others handed over) fails, the function returns that
    error. In both cases the run ends unsuccessfully without having
    started a task, called the engine or written a file. *)
Theorem C4_provider_init_failure (env : Env) (lbl : outputv1) (a : analyzeCommand)
    (fs : FS) :
  ((exists name prov err,
      (name, prov) ∈ needProviders env /\ name <> "builtin"
      /\ (ProviderInit prov []).2 = Some err) ->
   startProvidersContainerless (needProviders env) = Exited 1
   /\ (forall sel prov st,
         evaluateAndWrite env a sel prov st = (Stop (Exited 1), st))
   /\ (runFrom fs (RunAnalysisContainerless env lbl a)).1 <> Returned None
   /\ (runFrom fs (RunAnalysisContainerless env lbl a)).2
      = {| files := fs; events := [] |})
  /\ (forall builtinClient err,
        (forall name prov, (name, prov) ∈ needProviders env -> name <> "builtin" ->
           (ProviderInit prov []).2 = None) ->
        mapLookup "builtin" (needProviders env) = Some builtinClient ->
        (ProviderInit builtinClient (additionalConfigs (needProviders env))).2
          = Some err ->
        startProvidersContainerless (needProviders env) = Returned (Some err)
        /\ (forall sel prov st,
              evaluateAndWrite env a sel prov st = (Stop (Exited 1), st))
        /\ (runFrom fs (RunAnalysisContainerless env lbl a)).1 <> Returned None
        /\ (runFrom fs (RunAnalysisContainerless env lbl a)).2
           = {| files := fs; events := [] |}).
Proof.
  split.
  - intros (name & prov & err & Hin & Hname & Herr).
    assert (Hs : startProvidersContainerless (needProviders env) = Exited 1).
    { unfold startProvidersContainerless.
      now rewrite (initProviders_failure _ [] name prov err Hin Hname Herr). }
    split; [exact Hs|].
    assert (Hev : forall sel prov st,
               evaluateAndWrite env a sel prov st = (Stop (Exited 1), st))
      by (intros; now apply evaluateAndWrite_init_exit).
    split; [exact Hev|]. now apply run_not_started.
  - intros builtinClient err Hall Hb Herr.
    assert (Hs : startProvidersContainerless (needProviders env)
                 = Returned (Some err)).
    { unfold startProvidersContainerless.
      rewrite (initProviders_success _ [] Hall), Hb. cbn [app].
      destruct (ProviderInit builtinClient (additionalConfigs (needProviders env)))
        as [confs [e|]]; cbn in Herr; congruence. }
    split; [exact Hs|].
    assert (Hev : forall sel prov st,
               evaluateAndWrite env a sel prov st = (Stop (Exited 1), st))
      by (intros; now apply (evaluateAndWrite_init_error env a _ _ _ err)).
    split; [exact Hev|]. now apply run_not_started.
Qed.

Lemma C4_provider_init_failure_witness :
  startProvidersContainerless
    [("java", failingInit); ("builtin", okClient [] [])] = Exited 1
  /\ startProvidersContainerless
       [("java", okClient [] []); ("builtin", failingInit)]
     = Returned (Some "init failed")
  /\ (runFrom ∅ (RunAnalysisContainerless
                   (sampleEnv [("java", okClient [] []); ("builtin", failingInit)])
                   spec_labels (sampleCommand "full"))).2
     = {| files := ∅; events := [] |}.
Proof.
  split.
  - apply (proj1 (C4_provider_init_failure
                    (sampleEnv [("java", failingInit); ("builtin", okClient [] [])])
                    spec_labels (sampleCommand "full") ∅)).
    exists "java", failingInit, "init failed". split.
    + apply list_elem_of_here.
    + split; [discriminate|reflexivity].
  - pose proof (proj2 (C4_provider_init_failure
                    (sampleEnv [("java", okClient [] []); ("builtin", failingInit)])
                    spec_labels (sampleCommand "full") ∅)
                  failingInit "init failed") as H.
    destruct H as (Hs & _ & _ & Hst).
    + intros name prov Hin Hname. cbn in Hin.
      apply elem_of_cons in Hin as [Heq|Hin].
      * injection Heq as -> ->. reflexivity.
      * apply list_elem_of_singleton in Hin. injection Hin as -> ->.
        now destruct Hname.
    + reflexivity.
    + reflexivity.
    + split; [exact Hs|exact Hst].
Defined.

(** ** Reasoning about runs *)

Section Preserves.

Context {R : runState -> runState -> Prop}.
Hypothesis R_refl : forall st, R st st.
Hypothesis R_trans : forall st1 st2 st3, R st1 st2 -> R st2 st3 -> R st1 st3.

Lemma preserves_bind {A B : Type} (m : M A) (k : A -> M B) :
  preserves R m -> (forall a, preserves R (k a)) -> preserves R (bindM m k).
Proof.
  intros Hm Hk st. unfold bindM. specialize (Hm st).
  destruct (m st) as [[x|r] st1]; cbn in *; [|exact Hm].
  eapply R_trans; [exact Hm|apply Hk].
Qed.

Lemma preserves_pure {A : Type} (m : M A) :
  (forall st, (m st).2 = st) -> preserves R m.
Proof. intros Hm st. rewrite Hm. apply R_refl. Qed.

Lemma preserves_forM_ {A : Type} (l : list A) (f : A -> M unit) :
  (forall x, preserves R (f x)) -> preserves R (forM_ l f).
Proof.
  intros Hf. induction l as [|x l IH]; cbn [forM_].
  - apply preserves_pure. reflexivity.
  - apply preserves_bind; [apply Hf|intros _; exact IH].
Qed.

End Preserves.

Lemma orReturn_pure (err : option error) (st : runState) : (orReturn err st).2 = st.
Proof. now destruct err. Qed.

Lemma orExit_pure (err : option error) (st : runState) : (orExit err st).2 = st.
Proof. now destruct err. Qed.

Lemma liftResult_pure {A : Type} (r : result A) (st : runState) :
  (liftResult r st).2 = st.
Proof. now destruct r. Qed.

Lemma ensures_bind_keep {A B : Type} (m : M A) (k : A -> M B) (Q : runState -> Prop) :
  ensures m Q -> (forall a, keeps (k a) Q) -> ensures (bindM m k) Q.
Proof.
  intros Hm Hk st b st'. unfold bindM.
  destruct (m st) as [[x|r] st1] eqn:Hmst; [|discriminate].
  intros Hkx. eapply Hk; [|exact Hkx]. eapply Hm. exact Hmst.
Qed.

Lemma ensures_bind_then {A B : Type} (m : M A) (k : A -> M B) (Q : runState -> Prop) :
  (forall a, ensures (k a) Q) -> ensures (bindM m k) Q.
Proof.
  intros Hk st b st'. unfold bindM.
  destruct (m st) as [[x|r] st1] eqn:Hmst; [|discriminate].
  intros Hkx. eapply Hk. exact Hkx.
Qed.

Lemma keeps_bind {A B : Type} (m : M A) (k : A -> M B) (Q : runState -> Prop) :
  keeps m Q -> (forall a, keeps (k a) Q) -> keeps (bindM m k) Q.
Proof.
  intros Hm Hk st b st' HQ. unfold bindM.
  destruct (m st) as [[x|r] st1] eqn:Hmst; [|discriminate].
  intros Hkx. eapply Hk; [|exact Hkx]. eapply Hm; [exact HQ|exact Hmst].
Qed.

Lemma keeps_pure {A : Type} (m : M A) (Q : runState -> Prop) :
  (forall st, (m st).2 = st) -> keeps m Q.
Proof.
  intros Hm st x st' HQ Hst. specialize (Hm st). rewrite Hst in Hm. cbn in Hm.
  now subst st'.
Qed.

(** ** Source-only mode *)

Lemma filepath_Join_inj (dir n1 n2 : string) :
  filepath_Join dir n1 = filepath_Join dir n2 -> n1 = n2.
Proof.
  unfold filepath_Join. induction dir as [|c dir IH]; intros H.
  - now injection H.
  - apply IH. now injection H.
Qed.

Lemma artifacts_differ (a : analyzeCommand) : outputYaml a <> dependenciesYaml a.
Proof. intros H. apply filepath_Join_inj in H. discriminate H. Qed.

Section NoDependencyWork.

Variable d : string.

Lemma noDependencyWork_refl (st : runState) : noDependencyWork d st st.
Proof. split; [reflexivity|auto]. Qed.

Lemma noDependencyWork_trans (st1 st2 st3 : runState) :
  noDependencyWork d st1 st2 -> noDependencyWork d st2 st3 ->
  noDependencyWork d st1 st3.
Proof. intros [H1 H1'] [H2 H2']. split; [congruence|auto]. Qed.

Lemma preserves_emit (e : Event) :
  (forall f, e <> EvSpawnDependencyTask f) ->
  preserves (noDependencyWork d) (emit e).
Proof.
  intros He st. split; [reflexivity|]. cbn. intros f Hin.
  apply elem_of_app in Hin as [Hin|Hin]; [exact Hin|].
  apply list_elem_of_singleton in Hin. now destruct (He f).
Qed.

End NoDependencyWork.

Lemma writeRulesets_noDependencyWork (env : Env) (a : analyzeCommand)
    (rulesets : list konveyor.RuleSet) :
  preserves (noDependencyWork (dependenciesYaml a)) (writeRulesets env a rulesets).
Proof.
  intros st. unfold writeRulesets, bindM, getFiles, setFiles, emit, returnM,
    retM, exitM, os_WriteFile. fold (outputYaml a).
  destruct (Marshal_rulesets _ _); [|apply noDependencyWork_refl].
  destruct (os_WriteFile_fails _ _); [apply noDependencyWork_refl|].
  split; cbn.
  - apply lookup_insert_ne, artifacts_differ.
  - intros f Hin. apply elem_of_app in Hin as [Hin|Hin]; [exact Hin|].
    apply list_elem_of_singleton in Hin. discriminate Hin.
Qed.

Lemma staticReport_noDependencyWork (env : Env) (a : analyzeCommand) (d : string) :
  preserves (noDependencyWork d) (GenerateStaticReportContainerless env a).
Proof.
  intros st. unfold GenerateStaticReportContainerless, bindM, getFiles, emit,
    returnM, retM, exitM, orReturn.
  destruct (skipStaticReport a); [apply noDependencyWork_refl|].
  destruct (createStaticReportLog_fails env); [apply noDependencyWork_refl|].
  assert (Hev : forall st' b,
             files st' = files st ->
             events st' = events st ++ [EvBuildStaticReport b] ->
             noDependencyWork d st st').
  { intros st' b Hf He. split; [now rewrite Hf|]. rewrite He. intros f Hin.
    apply elem_of_app in Hin as [Hin|Hin]; [exact Hin|].
    apply list_elem_of_singleton in Hin. discriminate Hin. }
  destruct (files st !! filepath_Join (output a) "dependencies.yaml") eqn:Hdep; cbn.
  - destruct (statDependencies_fails env); cbn; [apply noDependencyWork_refl|].
    destruct (buildStaticReportFile_fails env); cbn;
      [|destruct (buildStaticReportOutput_err env); cbn]; now eapply Hev.
  - destruct (buildStaticReportFile_fails env); cbn;
      [|destruct (buildStaticReportOutput_err env); cbn]; now eapply Hev.
Qed.

Lemma startDependencyTask_skipped (env : Env) (a : analyzeCommand)
    (providers : providerMap) :
  mode a <> provider.FullAnalysisMode ->
  startDependencyTask env a providers = retM tt.
Proof.
  intros Hm. unfold startDependencyTask.
  now destruct (decide (mode a = provider.FullAnalysisMode)).
Qed.

Lemma evaluateAndWrite_noDependencyWork (env : Env) (a : analyzeCommand)
    (selectors : list string) (providers : providerMap) :
  mode a <> provider.FullAnalysisMode ->
  preserves (noDependencyWork (dependenciesYaml a))
            (evaluateAndWrite env a selectors providers).
Proof.
  intros Hm. unfold evaluateAndWrite. rewrite (startDependencyTask_skipped _ _ _ Hm).
  repeat lazymatch goal with
         | |- preserves _ (bindM _ _) =>
             apply (preserves_bind (noDependencyWork_trans _)); [|intros ?]
         end;
    try (apply (preserves_pure (noDependencyWork_refl _));
         auto using orExit_pure, orReturn_pure, liftResult_pure; fail);
    try (apply preserves_emit; discriminate).
  - apply (preserves_forM_ (noDependencyWork_refl _) (noDependencyWork_trans _)).
    intros x. apply preserves_emit. discriminate.
  - apply writeRulesets_noDependencyWork.
  - apply staticReport_noDependencyWork.
Qed.

Lemma setUpAnalysis_selectors (env : Env) (lbl : outputv1) (a : analyzeCommand)
    (st st' : runState) (sp : list string * providerMap) :
  setUpAnalysis env lbl a st = (Next sp, st') ->
  st' = st /\ sp.1 = selectorsOf lbl a.
Proof.
  unfold setUpAnalysis, selectorsOf, bindM, orReturn, orExit, makeSelectors,
    liftResult, returnM, exitM, retM.
  destruct (ValidateContainerless_err env); [discriminate|].
  destruct (createAnalysisLog_fails env); [discriminate|].
  destruct (nonblank (getLabelSelector lbl a));
    [destruct (NewLabelSelector_fails env _); [discriminate|]|];
    (destruct (setBinMapContainerless_err env); [discriminate|];
     destruct (createProviderConfigsContainerless_err env); [discriminate|];
     destruct (setInternalProviders_result env); [|discriminate];
     intros [= <- <-]; split; reflexivity).
Qed.

Lemma writeRulesets_outputWritten (env : Env) (a : analyzeCommand)
    (rulesets : list konveyor.RuleSet) :
  ensures (writeRulesets env a rulesets) (outputWritten env a rulesets).
Proof.
  intros st x st'. unfold writeRulesets, bindM, getFiles, setFiles, emit, returnM,
    retM, exitM, os_WriteFile.
  destruct (Marshal_rulesets _ _) as [b|] eqn:Hm; [|discriminate].
  destruct (os_WriteFile_fails _ _); [discriminate|].
  intros [= _ <-]. exists b. cbn. split; [exact Hm|].
  split; [apply lookup_insert_eq|].
  apply elem_of_app. right. apply list_elem_of_here.
Qed.

Lemma staticReport_keeps_output (env : Env) (a : analyzeCommand)
    (rulesets : list konveyor.RuleSet) :
  keeps (GenerateStaticReportContainerless env a) (outputWritten env a rulesets).
Proof.
  intros st x st' (b & Hm & Hf & He).
  assert (Hgrow : forall ev, outputWritten env a rulesets
                               {| files := files st; events := events st ++ [ev] |}).
  { intros ev. exists b. cbn. split; [exact Hm|]. split; [exact Hf|].
    apply elem_of_app. now left. }
  assert (Hsame : outputWritten env a rulesets st) by (exists b; auto).
  unfold GenerateStaticReportContainerless, bindM, getFiles, emit,
    returnM, retM, exitM, orReturn.
  destruct (skipStaticReport a); [now intros [= _ <-]|].
  destruct (createStaticReportLog_fails env); [discriminate|].
  destruct (files st !! filepath_Join (output a) "dependencies.yaml"); cbn.
  - destruct (statDependencies_fails env); cbn; [discriminate|].
    destruct (buildStaticReportFile_fails env); cbn; [discriminate|].
    destruct (buildStaticReportOutput_err env); cbn; [discriminate|].
    intros [= _ <-]. apply Hgrow.
  - destruct (buildStaticReportFile_fails env); cbn; [discriminate|].
    destruct (buildStaticReportOutput_err env); cbn; [discriminate|].
    intros [= _ <-]. apply Hgrow.
Qed.

Lemma evaluateAndWrite_outputWritten (env : Env) (a : analyzeCommand)
    (selectors : list string) (providers : providerMap) :
  ensures (evaluateAndWrite env a selectors providers)
          (outputWritten env a (RunRules env (parsedRuleSets env) selectors)).
Proof.
  unfold evaluateAndWrite.
  do 7 (apply ensures_bind_then; intros ?).
  apply ensures_bind_keep; [apply writeRulesets_outputWritten|intros ?].
  apply keeps_bind; [apply keeps_pure, orReturn_pure|intros ?].
  apply staticReport_keeps_output.
Qed.

Lemma stopsWithFailure_bind {A B : Type} (m : M A) (k : A -> M B) :
  stopsWithFailure m -> (forall a, stopsWithFailure (k a)) ->
  stopsWithFailure (bindM m k).
Proof.
  intros Hm Hk st r st'. unfold bindM.
  destruct (m st) as [[x|r1] st1] eqn:Hmst.
  - apply Hk.
  - intros [= <- <-]. eapply Hm. exact Hmst.
Qed.

Lemma stopsWithFailure_next {A : Type} (m : M A) :
  (forall st, exists a st', m st = (Next a, st')) -> stopsWithFailure m.
Proof. intros Hm st r st' Hst. destruct (Hm st) as (x & st1 & Hx). congruence. Qed.

Lemma stopsWithFailure_orReturn (err : option error) : stopsWithFailure (orReturn err).
Proof. intros st r st'. destruct err; cbn; intros [= <- <-]. discriminate. Qed.

Lemma stopsWithFailure_orExit (err : option error) : stopsWithFailure (orExit err).
Proof. intros st r st'. destruct err; cbn; intros [= <- <-]. discriminate. Qed.

Lemma stopsWithFailure_liftResult {A : Type} (res : result A) :
  stopsWithFailure (liftResult res).
Proof. intros st r st'. destruct res; cbn; intros [= <- <-]. discriminate. Qed.

Lemma stopsWithFailure_emit (e : Event) : stopsWithFailure (emit e).
Proof. apply stopsWithFailure_next. intros st. now do 2 eexists. Qed.

Lemma stopsWithFailure_forM_ {A : Type} (l : list A) (f : A -> M unit) :
  (forall x, stopsWithFailure (f x)) -> stopsWithFailure (forM_ l f).
Proof.
  intros Hf. induction l as [|x l IH]; cbn [forM_].
  - apply stopsWithFailure_next. intros st. now do 2 eexists.
  - apply stopsWithFailure_bind; [apply Hf|intros _; exact IH].
Qed.

Lemma stopsWithFailure_startDependencyTask (env : Env) (a : analyzeCommand)
    (providers : providerMap) :
  stopsWithFailure (startDependencyTask env a providers).
Proof.
  apply stopsWithFailure_next. intros st. unfold startDependencyTask.
  destruct (decide _); now do 2 eexists.
Qed.

Lemma stopsWithFailure_writeRulesets (env : Env) (a : analyzeCommand)
    (rulesets : list konveyor.RuleSet) :
  stopsWithFailure (writeRulesets env a rulesets).
Proof.
  intros st r st'. unfold writeRulesets, bindM, getFiles, setFiles, emit, returnM,
    retM, exitM, os_WriteFile.
  destruct (Marshal_rulesets _ _); [|intros [= <- <-]; discriminate].
  destruct (os_WriteFile_fails _ _); [intros [= <- <-]|]; discriminate.
Qed.

Lemma stopsWithFailure_staticReport (env : Env) (a : analyzeCommand) :
  stopsWithFailure (GenerateStaticReportContainerless env a).
Proof.
  intros st r st'. unfold GenerateStaticReportContainerless, bindM, getFiles, emit,
    returnM, retM, exitM, orReturn.
  destruct (skipStaticReport a); [discriminate|].
  destruct (createStaticReportLog_fails env); [intros [= <- <-]; discriminate|].
  destruct (files st !! filepath_Join (output a) "dependencies.yaml"); cbn;
    [destruct (statDependencies_fails env); cbn; [intros [= <- <-]; discriminate|]|];
    (destruct (buildStaticReportFile_fails env); cbn; [intros [= <- <-]; discriminate|];
     destruct (buildStaticReportOutput_err env); cbn; [intros [= <- <-]|]; discriminate).
Qed.

Lemma stopsWithFailure_evaluateAndWrite (env : Env) (a : analyzeCommand)
    (selectors : list string) (providers : providerMap) :
  stopsWithFailure (evaluateAndWrite env a selectors providers).
Proof.
  unfold evaluateAndWrite.
  repeat lazymatch goal with
         | |- stopsWithFailure (bindM _ _) =>
             apply stopsWithFailure_bind; [|intros ?]
         end;
    auto using stopsWithFailure_liftResult, stopsWithFailure_orExit,
      stopsWithFailure_orReturn, stopsWithFailure_emit,
      stopsWithFailure_startDependencyTask, stopsWithFailure_writeRulesets,
      stopsWithFailure_staticReport.
  apply stopsWithFailure_forM_. intros x. apply stopsWithFailure_emit.
Qed.

(** A run that returns nil has written the rule-result artifact, which
    holds the engine's results sorted by name. *)
Lemma run_success_outputWritten (env : Env) (lbl : outputv1) (a : analyzeCommand)
    (fs : FS) :
  (runFrom fs (RunAnalysisContainerless env lbl a)).1 = Returned None ->
  outputWritten env a (RunRules env (parsedRuleSets env) (selectorsOf lbl a))
    (runFrom fs (RunAnalysisContainerless env lbl a)).2.
Proof.
  unfold runFrom, RunAnalysisContainerless, bindM.
  destruct (setUpAnalysis env lbl a {| files := fs; events := [] |})
    as [[sp|r] st1] eqn:Hsp; cbn.
  - apply setUpAnalysis_selectors in Hsp as [-> Hsel]. rewrite Hsel.
    destruct (evaluateAndWrite env a (selectorsOf lbl a) sp.2
                {| files := fs; events := [] |}) as [[x|r] st2] eqn:Hev; cbn.
    + intros _. exact (evaluateAndWrite_outputWritten env a _ _ _ _ _ Hev).
    + intros ->. exfalso.
      now apply (stopsWithFailure_evaluateAndWrite env a _ _ _ _ _ Hev).
  - destruct (setUpAnalysis_cases env lbl a {| files := fs; events := [] |})
      as [[sp Hsp']|(r' & Hsp' & Hr)]; rewrite Hsp' in Hsp; [discriminate|].
    injection Hsp as <- <-. intros ->. now destruct Hr.
Qed.

Lemma run_noDependencyWork (env : Env) (lbl : outputv1) (a : analyzeCommand)
    (fs : FS) :
  mode a <> provider.FullAnalysisMode ->
  noDependencyWork (dependenciesYaml a) {| files := fs; events := [] |}
    (runFrom fs (RunAnalysisContainerless env lbl a)).2.
Proof.
  intros Hm. unfold runFrom, RunAnalysisContainerless, bindM.
  destruct (setUpAnalysis_cases env lbl a {| files := fs; events := [] |})
    as [[sp ->]|(r & -> & _)]; [|apply noDependencyWork_refl].
  pose proof (evaluateAndWrite_noDependencyWork env a sp.1 sp.2 Hm
                {| files := fs; events := [] |}) as Hev.
  now destruct (evaluateAndWrite env a sp.1 sp.2 {| files := fs; events := [] |})
    as [[x|r] st2].
Qed.

(** C6 (as stated, refuted): a source-only run into an output directory
    that holds a dependency artifact of an earlier run. The run returns
    nil, the artifact is still there afterwards, and the static report is
    built with it. *)
Lemma C6_source_only_stale_artifact_counterexample :
  mode (sampleCommand "source-only") = provider.SourceOnlyAnalysisMode
  /\ ~ leavesNoDependencyArtifact (sampleEnv []) spec_labels
         (sampleCommand "source-only")
         {[ "/work/out/dependencies.yaml" := "java@file:///work/app/pom.xml" ]}
  /\ (runFrom {[ "/work/out/dependencies.yaml" := "java@file:///work/app/pom.xml" ]}
        (RunAnalysisContainerless (sampleEnv []) spec_labels
           (sampleCommand "source-only"))).1 = Returned None
  /\ EvBuildStaticReport false
     ∈ events (runFrom
                 {[ "/work/out/dependencies.yaml" := "java@file:///work/app/pom.xml" ]}
                 (RunAnalysisContainerless (sampleEnv []) spec_labels
                    (sampleCommand "source-only"))).2.
Proof.
  split; [reflexivity|]. split.
  - unfold leavesNoDependencyArtifact. vm_compute. discriminate.
  - split; [vm_compute; reflexivity|].
    vm_compute. do 4 apply list_elem_of_further. apply list_elem_of_here.
Qed.

(** C6 (amended): in source-only mode the run starts no dependency task
    and leaves the dependency artifact as it was: absent from an output
    directory that did not hold one, still there in one that did; and a
    run that returns nil has written the rule-result artifact. *)
Theorem C6_source_only_no_dependency_artifact (env : Env) (lbl : outputv1)
    (a : analyzeCommand) (fs : FS) :
  mode a = provider.SourceOnlyAnalysisMode ->
  (forall f, EvSpawnDependencyTask f
             ∉ events (runFrom fs (RunAnalysisContainerless env lbl a)).2)
  /\ files (runFrom fs (RunAnalysisContainerless env lbl a)).2 !! dependenciesYaml a
     = fs !! dependenciesYaml a
  /\ (fs !! dependenciesYaml a = None ->
      files (runFrom fs (RunAnalysisContainerless env lbl a)).2
        !! dependenciesYaml a = None)
  /\ ((runFrom fs (RunAnalysisContainerless env lbl a)).1 = Returned None ->
      outputWritten env a (RunRules env (parsedRuleSets env) (selectorsOf lbl a))
        (runFrom fs (RunAnalysisContainerless env lbl a)).2).
Proof.
  intros Hmode.
  assert (Hm : mode a <> provider.FullAnalysisMode)
    by (rewrite Hmode; discriminate).
  destruct (run_noDependencyWork env lbl a fs Hm) as [Hfiles Hevents].
  cbn in Hfiles, Hevents.
  split.
  { intros f Hin. apply Hevents in Hin. now apply elem_of_nil in Hin. }
  split; [exact Hfiles|].
  split; [intros Hnone; now rewrite Hfiles|].
  apply run_success_outputWritten.
Qed.

Lemma C6_source_only_witness :
  (runFrom ∅ (RunAnalysisContainerless (sampleEnv []) spec_labels
                (sampleCommand "source-only"))).1 = Returned None
  /\ files (runFrom ∅ (RunAnalysisContainerless (sampleEnv []) spec_labels
                         (sampleCommand "source-only"))).2
       !! "/work/out/dependencies.yaml" = None
  /\ files (runFrom ∅ (RunAnalysisContainerless (sampleEnv []) spec_labels
                         (sampleCommand "source-only"))).2
       !! "/work/out/output.yaml" = Some "discovery;eap7".
Proof.
  pose proof (C6_source_only_no_dependency_artifact (sampleEnv []) spec_labels
                (sampleCommand "source-only") ∅ eq_refl) as (_ & _ & Hdep & Hout).
  split; [vm_compute; reflexivity|].
  split; [apply Hdep; reflexivity|].
  destruct Hout as (b & Hb & Hfile & _); [vm_compute; reflexivity|].
  cbn in Hb. injection Hb as <-. exact Hfile.
Defined.

(** ** DependencyCollector *)

Lemma collectDeps_from_nonempty (providers : providerMap)
    (depsFlat : list konveyor.DepsFlatItem) :
  depsFlat <> [] ->
  collectDeps providers depsFlat = Some (depsFlat ++ allItems providers).
Proof.
  revert depsFlat. induction providers as [|[n p] rest IH]; intros depsFlat Hne.
  - cbn. now rewrite app_nil_r.
  - cbn [collectDeps allItems flat_map snd].
    destruct (depsFlat ++ flatItems (GetDependencies p).1) as [|i l] eqn:Happ.
    + apply app_eq_nil in Happ as [-> _]. now destruct Hne.
    + cbn [nonempty]. rewrite IH by discriminate. rewrite <- Happ.
      now rewrite <- app_assoc.
Qed.

(** The loop returns at the first provider it visits when that provider
    contributes nothing; otherwise it collects every provider's items. *)
Lemma collectDeps_first (n : string) (p : InternalProviderClient)
    (rest : providerMap) :
  collectDeps ((n, p) :: rest) []
  = if nonempty (GetDependencies p).1 then Some (allItems ((n, p) :: rest))
    else None.
Proof.
  cbn [collectDeps allItems flat_map snd app].
  destruct (GetDependencies p).1 as [|ud uds] eqn:Hd; cbn [flatItems map nonempty];
    [reflexivity|].
  rewrite collectDeps_from_nonempty by discriminate. reflexivity.
Qed.

(** Every collected item is one entry of one provider's answer, with its
    whole dependency list, attributed to [java]. *)
Lemma collectDeps_items (providers : providerMap)
    (items : list konveyor.DepsFlatItem) (i : konveyor.DepsFlatItem) :
  collectDeps providers [] = Some items -> i ∈ items ->
  konveyor.Provider i = "java"
  /\ exists n p, (n, p) ∈ providers
       /\ (konveyor.FileURI i, konveyor.Dependencies i) ∈ (GetDependencies p).1.
Proof.
  destruct providers as [|[n p] rest].
  - cbn. intros [= <-] Hin. now apply elem_of_nil in Hin.
  - rewrite collectDeps_first. destruct (nonempty _); [|discriminate].
    intros Heq Hin.
    assert (Hitems : items = allItems ((n, p) :: rest)) by congruence.
    rewrite Hitems in Hin. unfold allItems in Hin.
    apply list_elem_of_In, in_flat_map in Hin as ([n' p'] & Hnp & Hi).
    cbn [snd] in Hi. unfold flatItems in Hi.
    apply in_map_iff in Hi as ([u ds] & <- & Hud). cbn.
    split; [reflexivity|]. exists n', p'.
    split; now apply list_elem_of_In.
Qed.

(** C2 (the code at the failing input): the provider [java] fails and
    [builtin] answers one location. When the range over the provider map
    visits [java] first, the function returns inside the loop and writes
    nothing; visited in the other order the same providers yield the
    item of [builtin], which is written. *)
Lemma C2_failed_provider_first_aborts :
  dependencyOutput [("java", failingDeps); ("builtin", okClient [] pomDeps)] = None
  /\ DependencyOutputContainerless workOS sampleYaml (sampleCommand "full")
       [("java", failingDeps); ("builtin", okClient [] pomDeps)]
       "dependencies.yaml" ∅ = ∅
  /\ dependencyOutput [("builtin", okClient [] pomDeps); ("java", failingDeps)]
     = Some [ {| konveyor.Provider := "java";
                 konveyor.FileURI := "file:///work/app/pom.xml";
                 konveyor.Dependencies := [junit] |} ]
  /\ DependencyOutputContainerless workOS sampleYaml (sampleCommand "full")
       [("builtin", okClient [] pomDeps); ("java", failingDeps)]
       "dependencies.yaml" ∅
     = {[ "/work/out/dependencies.yaml" := "java@file:///work/app/pom.xml" ]}.
Proof.
  split; [reflexivity|]. split; [reflexivity|]. split; [reflexivity|].
  vm_compute. reflexivity.
Qed.

(** C8 (as stated, refuted): the one provider is registered as
    [builtin]; the item made from its answer is attributed to [java],
    which is no provider of the map. *)
Lemma C8_attribution_counterexample :
  collectDeps [("builtin", okClient [] pomDeps)] []
  = Some [ {| konveyor.Provider := "java";
              konveyor.FileURI := "file:///work/app/pom.xml";
              konveyor.Dependencies := [junit] |} ]
  /\ ~ attributedToProducer [("builtin", okClient [] pomDeps)]
         [ {| konveyor.Provider := "java";
              konveyor.FileURI := "file:///work/app/pom.xml";
              konveyor.Dependencies := [junit] |} ]
  /\ DependencyOutputContainerless workOS sampleYaml (sampleCommand "full")
       [("builtin", okClient [] pomDeps)] "dependencies.yaml" ∅
     = {[ "/work/out/dependencies.yaml" := "java@file:///work/app/pom.xml" ]}.
Proof.
  split; [reflexivity|]. split.
  - intros H. destruct (H _ (list_elem_of_here _ _)) as (p & Hp & _).
    cbn in Hp. apply list_elem_of_singleton in Hp. discriminate Hp.
  - vm_compute. reflexivity.
Qed.

(** C8 (amended): whenever the collection yields a sequence, it is one
    item for each location of each provider's answer, in the order of
    the visit; every item carries the attribution [java], whichever
    provider produced it, and the file URI and the whole dependency list
    of one location of one provider's answer. *)
Theorem C8_items_attributed_to_java (providers : providerMap)
    (items : list konveyor.DepsFlatItem) :
  collectDeps providers [] = Some items ->
  items = allItems providers
  /\ length items = length (flat_map (fun np => (GetDependencies np.2).1) providers)
  /\ forall i, i ∈ items ->
       konveyor.Provider i = "java"
       /\ exists n p, (n, p) ∈ providers
            /\ (konveyor.FileURI i, konveyor.Dependencies i) ∈ (GetDependencies p).1.
Proof.
  intros Hc.
  assert (Hitems : items = allItems providers).
  { destruct providers as [|[n p] rest].
    - cbn in Hc. now injection Hc as <-.
    - rewrite collectDeps_first in Hc.
      destruct (nonempty (GetDependencies p).1); [|discriminate].
      now injection Hc as <-. }
  split; [exact Hitems|]. split.
  - rewrite Hitems. unfold allItems, flatItems.
    clear. induction providers as [|np rest IH]; [reflexivity|].
    cbn [flat_map]. rewrite !length_app, length_map. now rewrite IH.
  - intros i Hi. now apply (collectDeps_items providers items i Hc).
Qed.

Lemma C8_items_attributed_to_java_witness :
  [ {| konveyor.Provider := "java";
       konveyor.FileURI := "file:///work/app/pom.xml";
       konveyor.Dependencies := [junit] |} ]
  = allItems [("builtin", okClient [] pomDeps)]
  /\ konveyor.Provider
       {| konveyor.Provider := "java";
          konveyor.FileURI := "file:///work/app/pom.xml";
          konveyor.Dependencies := [junit] |} = "java".
Proof.
  destruct (C8_items_attributed_to_java [("builtin", okClient [] pomDeps)]
              [ {| konveyor.Provider := "java";
                   konveyor.FileURI := "file:///work/app/pom.xml";
                   konveyor.Dependencies := [junit] |} ] eq_refl)
    as (Hitems & _ & H).
  split; [exact Hitems|]. apply H, list_elem_of_here.
Defined.

(** In full mode, with the providers the command creates: when the range
    visits [builtin], which has no dependencies to report, before [java],
    no dependency artifact is written. *)
Example full_mode_builtin_first :
  files (runFrom ∅ (RunAnalysisContainerless (sampleEnv []) spec_labels
                      (sampleCommand "full"))).2
    !! "/work/out/dependencies.yaml" = None.
Proof. vm_compute. reflexivity. Qed.

Example dependencies_sorted :
  SliceStable lessDepsFlat
    (flatItems [("file:///b", []); ("file:///a", [junit]); ("file:///c", [])])
  = flatItems [("file:///a", [junit]); ("file:///b", []); ("file:///c", [])].
Proof. reflexivity. Qed.

(** ** Further properties of the merge, the selector and the collector *)

(** The merged list is the non-fallback configs, unchanged and in their
    order, followed by exactly one fallback config. *)
Theorem merged_configs_shape (os : OS) (configs : list provider.Config) :
  setConfigsContainerless os configs
  = passThrough configs
    ++ [builtinConfig (fallbackInitConfigs (setConfigsContainerless os configs))].
Proof.
  rewrite fallbackInitConfigs_visits. apply setConfigsContainerless_shape.
Qed.

(** Every entry of the merged fallback list stems from an init config of
    the input whose location is an existing directory: a location that is
    no directory contributes nothing. *)
Theorem merged_entries_are_directories (os : OS) (configs : list provider.Config)
    (e : provider.InitConfig) :
  e ∈ fallbackInitConfigs (setConfigsContainerless os configs) ->
  exists c ic, c ∈ configs /\ ic ∈ provider.InitConfigs c
               /\ statIsDir os (provider.Location ic) = true
               /\ e = entryFor os (provider.Name c) ic.
Proof.
  rewrite fallbackInitConfigs_visits. intros He.
  destruct (fold_visitPair_origin os _ _ _ He) as [Hstart | (v & Hv & -> & Hd)].
  - cbn in Hstart. now apply elem_of_nil in Hstart.
  - apply elem_of_visits in Hv as (c & Hc & Hname & Hic).
    exists c, v.2. rewrite <- Hname. auto.
Qed.

Lemma merged_entries_are_directories_witness :
  exists c ic, c ∈ builtinFirst /\ ic ∈ provider.InitConfigs c
               /\ statIsDir workOS (provider.Location ic) = true
               /\ entryFor workOS "builtin" (initAt "/work/app" excludedDirs)
                  = entryFor workOS (provider.Name c) ic.
Proof.
  apply (merged_entries_are_directories workOS builtinFirst).
  vm_compute. apply list_elem_of_here.
Defined.

Section Normalized.

Variable os : OS.

Lemma visitPair_invariant (st : mergeState) (v : string * provider.InitConfig) :
  (statIsDir os (provider.Location v.2) = true ->
   builtinLocationOf os (provider.Location v.2) = provider.Location v.2) ->
  mergeInvariant st -> mergeInvariant (visitPair os st v).
Proof.
  intros Hnorm [Hnd Hseen].
  destruct (visitPair_cases os st v) as [-> | (Hfresh & _ & Hd & ->)];
    [now split|].
  rewrite (Hnorm Hd). split; cbn.
  - rewrite map_app. cbn. rewrite (Hnorm Hd). apply NoDup_app.
    split; [exact Hnd|]. split; [|apply NoDup_singleton].
    intros l Hl Hin. apply list_elem_of_singleton in Hin. subst l.
    apply Hseen in Hl. rewrite Hfresh in Hl. now destruct Hl.
  - intros l. rewrite map_app. cbn. rewrite (Hnorm Hd). intros Hl.
    apply elem_of_app in Hl as [Hl|Hl].
    + destruct (decide (provider.Location v.2 = l)) as [->|Hne].
      * rewrite lookup_insert_eq. now eexists.
      * rewrite lookup_insert_ne by exact Hne. now apply Hseen.
    + apply list_elem_of_singleton in Hl. subst l.
      rewrite lookup_insert_eq. now eexists.
Qed.

Lemma fold_visitPair_invariant (vs : list (string * provider.InitConfig))
    (st : mergeState) :
  (forall v, v ∈ vs -> statIsDir os (provider.Location v.2) = true ->
     builtinLocationOf os (provider.Location v.2) = provider.Location v.2) ->
  mergeInvariant st -> mergeInvariant (fold_left (visitPair os) vs st).
Proof.
  revert st. induction vs as [|v vs IH]; intros st Hnorm Hinv; [exact Hinv|].
  cbn [fold_left]. apply IH.
  - intros w Hw. apply Hnorm. now apply list_elem_of_further.
  - apply visitPair_invariant; [|exact Hinv]. apply Hnorm, list_elem_of_here.
Qed.

End Normalized.

(** When every directory of the input is named by its absolute, clean
    path, each location appears at most once in the merged fallback
    list. *)
Theorem merged_locations_distinct (os : OS) (configs : list provider.Config) :
  (forall c ic, c ∈ configs -> ic ∈ provider.InitConfigs c ->
     statIsDir os (provider.Location ic) = true ->
     filepath_Abs os (provider.Location ic) = Some (provider.Location ic)) ->
  NoDup (map provider.Location
           (fallbackInitConfigs (setConfigsContainerless os configs))).
Proof.
  intros Hnorm. rewrite fallbackInitConfigs_visits.
  apply (fold_visitPair_invariant os).
  - intros v Hv Hd. apply elem_of_visits in Hv as (c & Hc & _ & Hic).
    unfold builtinLocationOf. now rewrite (Hnorm c v.2 Hc Hic Hd).
  - split; cbn; [apply NoDup_nil_2|].
    intros l Hl. now apply elem_of_nil in Hl.
Qed.

Lemma merged_locations_distinct_witness :
  NoDup (map provider.Location
           (fallbackInitConfigs (setConfigsContainerless workOS builtinFirst))).
Proof.
  apply (merged_locations_distinct workOS builtinFirst).
  intros c ic Hc Hic _.
  apply elem_of_cons in Hc as [->|Hc];
    [|apply list_elem_of_singleton in Hc; subst c];
    apply list_elem_of_singleton in Hic; subst ic; reflexivity.
Defined.

(** The selector examples of the specification that the code agrees
    with: source only, and source and target together. *)
Theorem label_selector_examples :
  getLabelSelector spec_labels (withFilters [] ["eap7"])
  = "(source=eap7) || (discovery)"
  /\ getLabelSelector spec_labels (withFilters ["cloud-readiness"] ["eap7"])
     = "((target=cloud-readiness) && (source=eap7)) || (discovery)"
  /\ getLabelSelector spec_labels (withFilters ["a"; "b"] [])
     = "((target=a || target=b) && source) || (discovery)".
Proof. repeat split; reflexivity. Qed.

(** The selector is empty exactly when neither a source nor a target
    is given. *)
Theorem label_selector_nonblank (lbl : outputv1) (a : analyzeCommand) :
  nonblank (getLabelSelector lbl a)
  = nonempty (sources a) || nonempty (targets a).
Proof.
  unfold getLabelSelector.
  destruct (sources a) as [|s ss], (targets a) as [|t ts]; reflexivity.
Qed.

(** Each collected item is one location of one provider's answer with
    its whole dependency list. *)
Theorem collected_items_are_locations (providers : providerMap)
    (items : list konveyor.DepsFlatItem) (i : konveyor.DepsFlatItem) :
  collectDeps providers [] = Some items -> i ∈ items ->
  exists n p, (n, p) ∈ providers
    /\ (konveyor.FileURI i, konveyor.Dependencies i) ∈ (GetDependencies p).1.
Proof.
  intros Hc Hi. now destruct (collectDeps_items providers items i Hc Hi).
Qed.

Lemma collected_items_are_locations_witness :
  exists n p, (n, p) ∈ [("java", okClient [] pomDeps)]
    /\ ("file:///work/app/pom.xml", [junit]) ∈ (GetDependencies p).1.
Proof.
  apply (collected_items_are_locations [("java", okClient [] pomDeps)]
           (flatItems pomDeps)
           {| konveyor.Provider := "java";
              konveyor.FileURI := "file:///work/app/pom.xml";
              konveyor.Dependencies := [junit] |}).
  - reflexivity.
  - apply list_elem_of_here.
Defined.

(** The collected sequence is sorted by provider and then by location,
    and is a rearrangement of what the providers answered. *)
Theorem dependency_output_sorted (providers : providerMap)
    (out : list konveyor.DepsFlatItem) :
  dependencyOutput providers = Some out ->
  Sorted (notAfter lessDepsFlat) out
  /\ exists items, collectDeps providers [] = Some items /\ Permutation out items.
Proof.
  unfold dependencyOutput.
  destruct (collectDeps providers []) as [items|]; [|discriminate].
  cbn. intros [= <-]. split.
  - apply SliceStable_Sorted. intros x y. unfold lessDepsFlat.
    destruct (decide (konveyor.Provider x = konveyor.Provider y)) as [Heq|Hne].
    + rewrite decide_True by congruence. apply ltb_asym.
    + rewrite decide_False by congruence. apply ltb_asym.
  - exists items. split; [reflexivity|apply SliceStable_Permutation].
Qed.

Lemma dependency_output_sorted_witness :
  Sorted (notAfter lessDepsFlat) (flatItems pomDeps)
  /\ exists items, collectDeps [("java", okClient [] pomDeps)] [] = Some items
                   /\ Permutation (flatItems pomDeps) items.
Proof.
  apply (dependency_output_sorted [("java", okClient [] pomDeps)]).
  reflexivity.
Defined.

(** ** The order of a run's events *)

Lemma forM__emit {A : Type} (l : list A) (f : A -> Event) (st : runState) :
  forM_ l (fun x => emit (f x)) st
  = (Next tt, {| files := files st; events := events st ++ map f l |}).
Proof.
  revert st. induction l as [|x l IH]; intros st; cbn [forM_ map].
  - unfold retM. rewrite app_nil_r. now destruct st.
  - unfold bindM at 1. unfold emit at 1. rewrite IH. cbn.
    now rewrite <- app_assoc.
Qed.

(** Once the providers are started, the run calls the engine, waits for
    the dependency task and stops the engine and the providers, whatever
    follows. *)
Lemma evaluateAndWrite_started (env : Env) (a : analyzeCommand)
    (selectors : list string) (providers : providerMap) (st : runState) :
  startProvidersContainerless (needProviders env) = Returned None ->
  evaluateAndWrite env a selectors providers st
  = reportResults env a selectors
      {| files := filesAfterDependencyTask env a providers (files st);
         events := events st ++ spawnEvents a
                   ++ evaluationEvents selectors (needProviders env) |}.
Proof.
  intros Hs. unfold evaluateAndWrite, reportResults.
  unfold bindM at 1. rewrite Hs. cbn [liftResult retM].
  unfold bindM at 1. cbn [orExit retM].
  unfold bindM at 1.
  assert (Hdep : startDependencyTask env a providers st
                 = (Next tt, {| files := filesAfterDependencyTask env a providers (files st);
                                events := events st ++ spawnEvents a |})).
  { unfold startDependencyTask, filesAfterDependencyTask, spawnEvents.
    destruct (decide (mode a = provider.FullAnalysisMode)).
    - reflexivity.
    - unfold retM. rewrite app_nil_r. now destruct st. }
  rewrite Hdep.
  unfold bindM at 1. unfold emit at 1.
  unfold bindM at 1. unfold emit at 1.
  unfold bindM at 1. unfold emit at 1.
  unfold bindM at 1. rewrite forM__emit. cbn [files events].
  unfold evaluationEvents. rewrite <- !app_assoc. reflexivity.
Qed.

(** The reporting phase adds report events only, and leaves every file
    but the rule-result artifact alone. *)
Lemma reportResults_effect (env : Env) (a : analyzeCommand)
    (selectors : list string) (st : runState) :
  exists post,
    events (reportResults env a selectors st).2 = events st ++ post
    /\ Forall (isReportEvent a) post
    /\ (forall d, d <> outputYaml a ->
          files (reportResults env a selectors st).2 !! d = files st !! d)
    /\ (forall b, EvBuildStaticReport b ∈ post ->
          b = bool_decide (files (reportResults env a selectors st).2
                             !! dependenciesYaml a = None)).
Proof.
  assert (Hnone : forall st' : runState,
            files st' = files st -> events st' = events st ->
            exists post, events st' = events st ++ post
              /\ Forall (isReportEvent a) post
              /\ (forall d, d <> outputYaml a -> files st' !! d = files st !! d)
              /\ (forall b, EvBuildStaticReport b ∈ post ->
                    b = bool_decide (files st' !! dependenciesYaml a = None))).
  { intros st' Hf He. exists []. rewrite app_nil_r, Hf.
    repeat split; auto. intros b Hb. now apply elem_of_nil in Hb. }
  unfold reportResults, writeRulesets, GenerateStaticReportContainerless,
    orReturn, os_WriteFile, bindM, getFiles, setFiles, emit, returnM, retM, exitM.
  fold (outputYaml a). fold (dependenciesYaml a).
  destruct (Marshal_rulesets _ _) as [bytes|]; [|now apply Hnone].
  destruct (os_WriteFile_fails _ _); [now apply Hnone|]. cbn.
  assert (Hwritten : forall (evs tail : list Event),
            evs = (events st ++ [EvWriteFile (outputYaml a)]) ++ tail ->
            (tail = []
             \/ tail = [EvBuildStaticReport
                          (bool_decide (<[outputYaml a := bytes]> (files st)
                                          !! dependenciesYaml a = None))]) ->
            exists post, evs = events st ++ post
              /\ Forall (isReportEvent a) post
              /\ (forall d, d <> outputYaml a ->
                    <[outputYaml a := bytes]> (files st) !! d = files st !! d)
              /\ (forall b, EvBuildStaticReport b ∈ post ->
                    b = bool_decide (<[outputYaml a := bytes]> (files st)
                                       !! dependenciesYaml a = None))).
  { intros evs tail He Htail. exists (EvWriteFile (outputYaml a) :: tail).
    split; [rewrite He, <- app_assoc; reflexivity|].
    split.
    { constructor; [now left|].
      destruct Htail as [->| ->]; [constructor|].
      constructor; [right; now eexists|constructor]. }
    split.
    { intros d Hd. now apply lookup_insert_ne. }
    intros b Hb. apply elem_of_cons in Hb as [Hb|Hb]; [discriminate|].
    destruct Htail as [->| ->]; [now apply elem_of_nil in Hb|].
    apply list_elem_of_singleton in Hb. now injection Hb. }
  assert (Hstop : exists post,
            events st ++ [EvWriteFile (outputYaml a)] = events st ++ post
            /\ Forall (isReportEvent a) post
            /\ (forall d, d <> outputYaml a ->
                  <[outputYaml a := bytes]> (files st) !! d = files st !! d)
            /\ (forall b, EvBuildStaticReport b ∈ post ->
                  b = bool_decide (<[outputYaml a := bytes]> (files st)
                                     !! dependenciesYaml a = None)))
    by (apply (Hwritten _ []); [now rewrite app_nil_r|now left]).
  destruct (CreateJSONOutput_err env); cbn; [exact Hstop|].
  destruct (skipStaticReport a); cbn; [exact Hstop|].
  destruct (createStaticReportLog_fails env); cbn; [exact Hstop|].
  destruct (<[outputYaml a := bytes]> (files st) !! dependenciesYaml a) eqn:Hdep; cbn.
  - destruct (statDependencies_fails env); cbn; rewrite ?Hdep; [exact Hstop|].
    destruct (buildStaticReportFile_fails env); cbn;
      [|destruct (buildStaticReportOutput_err env); cbn];
      rewrite ?Hdep;
      (eapply Hwritten; [reflexivity|right; now rewrite bool_decide_eq_false_2]).
  - destruct (buildStaticReportFile_fails env); cbn;
      [|destruct (buildStaticReportOutput_err env); cbn];
      rewrite ?Hdep;
      (eapply Hwritten; [reflexivity|right; now rewrite bool_decide_eq_true_2]).
Qed.

Lemma initProviders_exit_code (needed : providerMap)
    (acc : list provider.InitConfig) (code : Z) :
  initProviders needed acc = Exited code -> code = 1%Z.
Proof.
  revert acc. induction needed as [|[n p] rest IH]; intros acc; cbn.
  - discriminate.
  - destruct (decide (n = "builtin")); [apply IH|].
    destruct (ProviderInit p []) as [confs [e|]]; [now intros [= <-]|apply IH].
Qed.

Lemma startProviders_exit_code (needed : providerMap) (code : Z) :
  startProvidersContainerless needed = Exited code -> code = 1%Z.
Proof.
  unfold startProvidersContainerless.
  destruct (initProviders needed []) as [acc|c] eqn:Hi.
  - destruct (mapLookup "builtin" needed) as [b|]; [|discriminate].
    destruct (ProviderInit b acc) as [confs [e|]]; discriminate.
  - intros [= <-]. now apply initProviders_exit_code in Hi.
Qed.

Lemma setUpAnalysis_next (env : Env) (lbl : outputv1) (a : analyzeCommand)
    (st st' : runState) (sp : list string * providerMap) :
  setUpAnalysis env lbl a st = (Next sp, st') ->
  st' = st /\ sp.1 = selectorsOf lbl a
  /\ setInternalProviders_result env = Returned sp.2.
Proof.
  intros Hsp. destruct (setUpAnalysis_selectors env lbl a st st' sp Hsp) as [-> Hsel].
  split; [reflexivity|]. split; [exact Hsel|].
  revert Hsp. unfold setUpAnalysis, bindM, orReturn, orExit, makeSelectors,
    liftResult, returnM, exitM, retM.
  destruct (ValidateContainerless_err env); [discriminate|].
  destruct (createAnalysisLog_fails env); [discriminate|].
  destruct (nonblank (getLabelSelector lbl a));
    [destruct (NewLabelSelector_fails env _); [discriminate|]|];
    (destruct (setBinMapContainerless_err env); [discriminate|];
     destruct (createProviderConfigsContainerless_err env); [discriminate|];
     destruct (setInternalProviders_result env); [|discriminate];
     now intros [= <-]).
Qed.

(** A run either ends before the providers are up, having done nothing,
    or goes through the evaluation and into the reporting phase. *)
Lemma run_shape (env : Env) (lbl : outputv1) (a : analyzeCommand) (fs : FS) :
  ((runFrom fs (RunAnalysisContainerless env lbl a)).1 <> Returned None
   /\ (runFrom fs (RunAnalysisContainerless env lbl a)).2
      = {| files := fs; events := [] |})
  \/ exists providers,
       setInternalProviders_result env = Returned providers
       /\ startProvidersContainerless (needProviders env) = Returned None
       /\ runFrom fs (RunAnalysisContainerless env lbl a)
          = match reportResults env a (selectorsOf lbl a)
                    (startedState env lbl a providers fs) with
            | (Next _, st) => (Returned None, st)
            | (Stop r, st) => (r, st)
            end.
Proof.
  destruct (startProvidersContainerless (needProviders env)) as [[err|]|code] eqn:Hs.
  - left. apply run_not_started. intros. now apply (evaluateAndWrite_init_error _ _ _ _ _ err).
  - unfold runFrom, RunAnalysisContainerless, bindM.
    destruct (setUpAnalysis env lbl a {| files := fs; events := [] |})
      as [[sp|r] st1] eqn:Hsp.
    + right. apply setUpAnalysis_next in Hsp as (-> & Hsel & Hprov).
      exists sp.2. split; [exact Hprov|]. split; [reflexivity|].
      rewrite (evaluateAndWrite_started env a sp.1 sp.2 _ Hs), Hsel. reflexivity.
    + left. destruct (setUpAnalysis_cases env lbl a {| files := fs; events := [] |})
        as [[sp Hsp']|(r' & Hsp' & Hr)]; rewrite Hsp' in Hsp; [discriminate|].
      injection Hsp as <- <-. cbn. now split.
  - left. apply run_not_started. intros sel prov st.
    rewrite (startProviders_exit_code _ _ Hs) in Hs.
    now apply evaluateAndWrite_init_exit.
Qed.

Lemma evaluationEvents_not_report (sel : list string) (needed : providerMap)
    (b : bool) :
  EvBuildStaticReport b ∉ evaluationEvents sel needed.
Proof.
  unfold evaluationEvents. intros Hin.
  apply elem_of_app in Hin as [Hin|Hin].
  - repeat (apply elem_of_cons in Hin as [Hin|Hin]; [discriminate|]).
    now apply elem_of_nil in Hin.
  - apply list_elem_of_In, in_map_iff in Hin as (np & Heq & _). discriminate.
Qed.

Lemma spawnEvents_not_report (a : analyzeCommand) (b : bool) :
  EvBuildStaticReport b ∉ spawnEvents a.
Proof.
  unfold spawnEvents. destruct (decide _); intros Hin.
  - apply list_elem_of_singleton in Hin. discriminate.
  - now apply elem_of_nil in Hin.
Qed.

(** The dependency task writes to its own file only. *)
Lemma DependencyOutputContainerless_frame (os : OS) (yaml : Yaml)
    (a : analyzeCommand) (providers : providerMap) (f d : string) (fs : FS) :
  d <> filepath_Join (output a) f ->
  DependencyOutputContainerless os yaml a providers f fs !! d = fs !! d.
Proof.
  intros Hd. unfold DependencyOutputContainerless, os_WriteFile.
  destruct (collectDeps providers []); [|reflexivity].
  destruct (Marshal_deps yaml _); [|reflexivity].
  destruct (os_WriteFile_fails os _); [reflexivity|].
  now apply lookup_insert_ne.
Qed.

Lemma filesAfterDependencyTask_frame (env : Env) (a : analyzeCommand)
    (providers : providerMap) (d : string) (fs : FS) :
  d <> dependenciesYaml a ->
  filesAfterDependencyTask env a providers fs !! d = fs !! d.
Proof.
  intros Hd. unfold filesAfterDependencyTask.
  destruct (decide _); [|reflexivity].
  now apply DependencyOutputContainerless_frame.
Qed.

(** The life cycle of a run. Either nothing observable happened (the run
    ended before the providers were up), or the events are, in this
    order: the start of the dependency task (in full mode only), one call
    of the engine with the selectors built from the command, the wait for
    the dependency task, the stop of the engine, one stop for every needed
    provider, and then events of the reporting phase. So the providers are
    stopped after the barrier and before the rule results are written and
    the static report is built, also when the reporting phase fails. The
    dependency task writes its artifact on its own, before the barrier is
    passed; that write is no event of the run. *)
Theorem run_lifecycle (env : Env) (lbl : outputv1) (a : analyzeCommand) (fs : FS) :
  events (runFrom fs (RunAnalysisContainerless env lbl a)).2 = []
  \/ exists post,
       events (runFrom fs (RunAnalysisContainerless env lbl a)).2
       = spawnEvents a
         ++ evaluationEvents (selectorsOf lbl a) (needProviders env)
         ++ post
       /\ Forall (isReportEvent a) post.
Proof.
  destruct (run_shape env lbl a fs) as [[_ ->]|(providers & _ & _ & ->)];
    [now left|right].
  destruct (reportResults_effect env a (selectorsOf lbl a)
              (startedState env lbl a providers fs)) as (post & He & Hpost & _).
  exists post. split; [|exact Hpost].
  destruct (reportResults env a (selectorsOf lbl a)
              (startedState env lbl a providers fs)) as [[x|r] st]; cbn in *;
    rewrite He; now rewrite <- app_assoc.
Qed.

(** The static report is built without dependency data exactly when the
    dependency artifact is absent when the run ends. *)
Theorem static_report_flag (env : Env) (lbl : outputv1) (a : analyzeCommand)
    (fs : FS) (b : bool) :
  EvBuildStaticReport b ∈ events (runFrom fs (RunAnalysisContainerless env lbl a)).2 ->
  (b = true <->
   files (runFrom fs (RunAnalysisContainerless env lbl a)).2
     !! dependenciesYaml a = None).
Proof.
  destruct (run_shape env lbl a fs) as [[_ ->]|(providers & _ & _ & ->)].
  - cbn. intros Hin. now apply elem_of_nil in Hin.
  - destruct (reportResults_effect env a (selectorsOf lbl a)
                (startedState env lbl a providers fs)) as (post & He & _ & _ & Hb).
    destruct (reportResults env a (selectorsOf lbl a)
                (startedState env lbl a providers fs)) as [[x|r] st]; cbn in *;
      rewrite He; intros Hin;
      (apply elem_of_app in Hin as [Hin|Hin];
         [|rewrite (Hb b Hin); apply bool_decide_eq_true]);
      (apply elem_of_app in Hin as [Hin|Hin];
         [now apply spawnEvents_not_report in Hin
         |now apply evaluationEvents_not_report in Hin]).
Qed.

Lemma static_report_flag_witness :
  true = true <->
  files (runFrom ∅ (RunAnalysisContainerless (sampleEnv []) spec_labels
                      (sampleCommand "source-only"))).2
    !! dependenciesYaml (sampleCommand "source-only") = None.
Proof.
  apply (static_report_flag (sampleEnv []) spec_labels
           (sampleCommand "source-only") ∅ true).
  vm_compute. do 4 apply list_elem_of_further. apply list_elem_of_here.
Defined.

Lemma started_events_not_report (a : analyzeCommand) (sel : list string)
    (needed : providerMap) (e : Event) :
  e ∈ spawnEvents a ++ evaluationEvents sel needed -> ~ isReportEvent a e.
Proof.
  intros Hin [->|[b ->]].
  - apply elem_of_app in Hin as [Hin|Hin].
    + unfold spawnEvents in Hin. destruct (decide _).
      * apply list_elem_of_singleton in Hin. discriminate.
      * now apply elem_of_nil in Hin.
    + unfold evaluationEvents in Hin. apply elem_of_app in Hin as [Hin|Hin].
      * repeat (apply elem_of_cons in Hin as [Hin|Hin]; [discriminate|]).
        now apply elem_of_nil in Hin.
      * apply list_elem_of_In, in_map_iff in Hin as (np & Heq & _). discriminate.
  - apply elem_of_app in Hin as [Hin|Hin].
    + now apply spawnEvents_not_report in Hin.
    + now apply evaluationEvents_not_report in Hin.
Qed.

Lemma reportResults_failure_kind (env : Env) (a : analyzeCommand)
    (selectors : list string) (st : runState) :
  match Marshal_rulesets (env_yaml env)
          (SliceStable lessRuleSet (RunRules env (parsedRuleSets env) selectors)) with
  | None => exists err, reportResults env a selectors st = (Stop (Returned (Some err)), st)
  | Some _ =>
      (exists err, os_WriteFile_fails (env_os env) (outputYaml a) = Some err) ->
      reportResults env a selectors st = (Stop (Exited 1), st)
  end.
Proof.
  unfold reportResults, writeRulesets, os_WriteFile, bindM, getFiles, returnM,
    retM, exitM.
  fold (outputYaml a).
  destruct (Marshal_rulesets _ _) as [b|].
  - intros [err Hw]. now rewrite Hw.
  - now eexists.
Qed.

(** A failure to serialize the results is returned as an error, and a
    failure to write them ends the process with status 1: a run that has
    started the providers returns the error in the first case and exits
    in the second. In neither case does the run return nil, record a
    write of the rule-result artifact, or build the static report. *)
Theorem output_failure_is_fatal (env : Env) (lbl : outputv1) (a : analyzeCommand)
    (fs : FS) :
  Marshal_rulesets (env_yaml env)
    (SliceStable lessRuleSet
       (RunRules env (parsedRuleSets env) (selectorsOf lbl a))) = None
  \/ (exists err, os_WriteFile_fails (env_os env) (outputYaml a) = Some err) ->
  (runFrom fs (RunAnalysisContainerless env lbl a)).1 <> Returned None
  /\ (forall e, e ∈ events (runFrom fs (RunAnalysisContainerless env lbl a)).2 ->
        ~ isReportEvent a e)
  /\ (events (runFrom fs (RunAnalysisContainerless env lbl a)).2 <> [] ->
      match Marshal_rulesets (env_yaml env)
              (SliceStable lessRuleSet
                 (RunRules env (parsedRuleSets env) (selectorsOf lbl a))) with
      | None =>
          exists err,
            (runFrom fs (RunAnalysisContainerless env lbl a)).1 = Returned (Some err)
      | Some _ => (runFrom fs (RunAnalysisContainerless env lbl a)).1 = Exited 1
      end).
Proof.
  intros Hfail.
  destruct (run_shape env lbl a fs) as [[Hr ->]|(providers & _ & _ & ->)].
  - split; [exact Hr|]. split; [|intros H; now destruct H].
    intros e He. now apply elem_of_nil in He.
  - pose proof (reportResults_failure_kind env a (selectorsOf lbl a)
                  (startedState env lbl a providers fs)) as Hk.
    destruct (Marshal_rulesets _ _) as [b|].
    + destruct Hfail as [Hm|Hw]; [discriminate|]. rewrite (Hk Hw). cbn [fst snd].
      split; [discriminate|]. split; [|reflexivity].
      intros e He. now apply (started_events_not_report a _ _ _ He).
    + destruct Hk as [err ->]. cbn [fst snd].
      split; [discriminate|]. split; [|now exists err].
      intros e He. now apply (started_events_not_report a _ _ _ He).
Qed.

Lemma output_failure_is_fatal_witness :
  (runFrom ∅ (RunAnalysisContainerless
                (sampleEnvWith (fun _ => Some "disk full") (fun _ => Some ""))
                spec_labels (sampleCommand "full"))).1
  = Exited 1.
Proof.
  destruct (output_failure_is_fatal
              (sampleEnvWith (fun _ => Some "disk full") (fun _ => Some ""))
              spec_labels (sampleCommand "full") ∅) as (_ & _ & Hk).
  - right. now exists "disk full".
  - apply Hk. vm_compute. discriminate.
Defined.

(** ** DependencyCollector: when the artifact is written *)

Lemma insertStable_ext {A : Type} (less less' : A -> A -> bool) (x : A) (l : list A) :
  (forall y, y ∈ l -> less y x = less' y x) ->
  insertStable less x l = insertStable less' x l.
Proof.
  induction l as [|y ys IH]; intros Hext; cbn; [reflexivity|].
  rewrite (Hext y (list_elem_of_here _ _)).
  destruct (less' y x); [|reflexivity].
  f_equal. apply IH. intros z Hz. apply Hext. now apply list_elem_of_further.
Qed.

Lemma SliceStable_ext {A : Type} (less less' : A -> A -> bool) (l : list A) :
  (forall x y, x ∈ l -> y ∈ l -> less x y = less' x y) ->
  SliceStable less l = SliceStable less' l.
Proof.
  induction l as [|x l IH]; intros Hext; cbn; [reflexivity|].
  assert (Hl : SliceStable less l = SliceStable less' l).
  { apply IH. intros y z Hy Hz. apply Hext; now apply list_elem_of_further. }
  unfold SliceStable in Hl. rewrite Hl.
  apply insertStable_ext. intros y Hy. apply Hext.
  - apply list_elem_of_further.
    change (y ∈ SliceStable less' l) in Hy.
    now rewrite (SliceStable_Permutation less' l) in Hy.
  - apply list_elem_of_here.
Qed.

Lemma allItems_java (providers : providerMap) (i : konveyor.DepsFlatItem) :
  i ∈ allItems providers -> konveyor.Provider i = "java".
Proof.
  unfold allItems. intros Hin.
  apply list_elem_of_In, in_flat_map in Hin as (np & _ & Hi).
  unfold flatItems in Hi. now apply in_map_iff in Hi as (ud & <- & _).
Qed.

(** Among collected items the comparison of lines 509-515 is the
    comparison of the locations: the provider is always the same. *)
Lemma SliceStable_allItems (providers : providerMap) :
  SliceStable lessDepsFlat (allItems providers)
  = SliceStable (lessBy konveyor.FileURI) (allItems providers).
Proof.
  apply SliceStable_ext. intros x y Hx Hy. unfold lessDepsFlat, lessBy.
  rewrite decide_True; [reflexivity|].
  now rewrite (allItems_java _ _ Hx), (allItems_java _ _ Hy).
Qed.

Lemma allItems_Permutation (providers providers' : providerMap) :
  Permutation providers providers' ->
  Permutation (allItems providers) (allItems providers').
Proof. unfold allItems. apply Permutation_flat_map. Qed.

Lemma dependencyOutput_cases (providers : providerMap) :
  dependencyOutput providers
  = match providers with
    | [] => Some []
    | (_, p) :: _ =>
        if nonempty (GetDependencies p).1
        then Some (SliceStable lessDepsFlat (allItems providers))
        else None
    end.
Proof.
  unfold dependencyOutput. destruct providers as [|[n p] rest]; [reflexivity|].
  rewrite collectDeps_first. now destruct (nonempty _).
Qed.

(** What [DependencyOutputContainerless] leaves on disk. With no provider
    at all it writes the serialization of the empty sequence. When the
    first provider the range visits reports no location, nothing is
    written, whatever the others would report. When it reports one, the
    file holds the serialization of every provider's items, sorted. *)
Theorem dependency_artifact_cases (os : OS) (yaml : Yaml) (a : analyzeCommand)
    (f : string) (fs : FS) :
  os_WriteFile_fails os (filepath_Join (output a) f) = None ->
  (forall b, Marshal_deps yaml [] = Some b ->
     DependencyOutputContainerless os yaml a [] f fs
     = <[filepath_Join (output a) f := b]> fs)
  /\ (forall n p rest, (GetDependencies p).1 = [] ->
        DependencyOutputContainerless os yaml a ((n, p) :: rest) f fs = fs)
  /\ (forall n p rest b, (GetDependencies p).1 <> [] ->
        Marshal_deps yaml
          (SliceStable lessDepsFlat (allItems ((n, p) :: rest))) = Some b ->
        DependencyOutputContainerless os yaml a ((n, p) :: rest) f fs
        = <[filepath_Join (output a) f := b]> fs).
Proof.
  intros Hw. unfold DependencyOutputContainerless, os_WriteFile. repeat split.
  - intros b Hb. cbn. now rewrite Hb, Hw.
  - intros n p rest Hp. rewrite collectDeps_first, Hp. reflexivity.
  - intros n p rest b Hp Hb. rewrite collectDeps_first.
    destruct (GetDependencies p).1 as [|ud uds] eqn:Hd; [now destruct Hp|].
    cbn [nonempty]. now rewrite Hb, Hw.
Qed.

Lemma dependency_artifact_cases_witness :
  DependencyOutputContainerless workOS sampleYaml (sampleCommand "full") []
    "dependencies.yaml" ∅
  = {[ "/work/out/dependencies.yaml" := "" ]}
  /\ DependencyOutputContainerless workOS sampleYaml (sampleCommand "full")
       [("builtin", okClient [] []); ("java", okClient [] pomDeps)]
       "dependencies.yaml" ∅ = ∅.
Proof.
  destruct (dependency_artifact_cases workOS sampleYaml (sampleCommand "full")
              "dependencies.yaml" ∅ eq_refl) as (Hnone & Hfirst & _).
  split.
  - rewrite (Hnone "" eq_refl). reflexivity.
  - apply Hfirst. reflexivity.
Defined.

(** When no two reported locations are the same, the sequence handed to
    the serializer is the same for every order in which the providers
    that let the loop go on are visited. *)
Theorem dependency_output_order_independent (providers providers' : providerMap)
    (out out' : list konveyor.DepsFlatItem) :
  Permutation providers providers' ->
  NoDup (map konveyor.FileURI (allItems providers)) ->
  dependencyOutput providers = Some out ->
  dependencyOutput providers' = Some out' ->
  out = out'.
Proof.
  intros Hp Hnd. rewrite !dependencyOutput_cases.
  destruct providers as [|[n p] rest].
  - apply Permutation_nil in Hp. subst providers'. congruence.
  - destruct providers' as [|[n' p'] rest'];
      [now apply Permutation_sym, Permutation_nil in Hp|].
    destruct (nonempty (GetDependencies p).1); [|discriminate].
    destruct (nonempty (GetDependencies p').1); [|discriminate].
    intros Ho Ho'.
    assert (Hout : out = SliceStable lessDepsFlat (allItems ((n, p) :: rest)))
      by congruence.
    assert (Hout' : out' = SliceStable lessDepsFlat (allItems ((n', p') :: rest')))
      by congruence.
    rewrite Hout, Hout', !SliceStable_allItems.
    apply SliceStable_order_independent; [|exact Hnd].
    now apply allItems_Permutation.
Qed.

Lemma dependency_output_order_independent_witness :
  SliceStable lessDepsFlat
    (allItems [("java", okClient [] pomDeps);
               ("go", okClient [] [("file:///work/app/go.mod", [])])])
  = SliceStable lessDepsFlat
      (allItems [("go", okClient [] [("file:///work/app/go.mod", [])]);
                 ("java", okClient [] pomDeps)]).
Proof.
  apply (dependency_output_order_independent
           [("java", okClient [] pomDeps);
            ("go", okClient [] [("file:///work/app/go.mod", [])])]
           [("go", okClient [] [("file:///work/app/go.mod", [])]);
            ("java", okClient [] pomDeps)]).
  - apply perm_swap.
  - apply NoDup_cons. split; [|apply NoDup_singleton].
    intros Hin. apply list_elem_of_singleton in Hin. discriminate Hin.
  - reflexivity.
  - reflexivity.
Defined.

(** In full mode a run that reaches the evaluation leaves the dependency
    artifact as the dependency task left it: nothing that follows touches
    it. *)
Theorem dependency_artifact_after_run (env : Env) (lbl : outputv1)
    (a : analyzeCommand) (fs : FS) :
  mode a = provider.FullAnalysisMode ->
  events (runFrom fs (RunAnalysisContainerless env lbl a)).2 <> [] ->
  exists providers,
    setInternalProviders_result env = Returned providers
    /\ EvSpawnDependencyTask "dependencies.yaml"
       ∈ events (runFrom fs (RunAnalysisContainerless env lbl a)).2
    /\ files (runFrom fs (RunAnalysisContainerless env lbl a)).2 !! dependenciesYaml a
       = DependencyOutputContainerless (env_os env) (env_yaml env) a providers
           "dependencies.yaml" fs !! dependenciesYaml a.
Proof.
  intros Hmode Hev.
  destruct (run_shape env lbl a fs) as [[_ Hst]|(providers & Hprov & _ & Hrun)].
  - rewrite Hst in Hev. now destruct Hev.
  - exists providers. split; [exact Hprov|]. rewrite Hrun.
    destruct (reportResults_effect env a (selectorsOf lbl a)
                (startedState env lbl a providers fs)) as (post & He & _ & Hf & _).
    assert (Hfiles : files (startedState env lbl a providers fs) !! dependenciesYaml a
                     = DependencyOutputContainerless (env_os env) (env_yaml env) a
                         providers "dependencies.yaml" fs !! dependenciesYaml a).
    { unfold startedState, filesAfterDependencyTask. cbn [files].
      now rewrite decide_True by exact Hmode. }
    assert (Hspawn : EvSpawnDependencyTask "dependencies.yaml"
                     ∈ events (startedState env lbl a providers fs) ++ post).
    { apply elem_of_app. left. unfold startedState, spawnEvents. cbn [events].
      rewrite decide_True by exact Hmode. apply list_elem_of_here. }
    specialize (Hf (dependenciesYaml a) (fun H => artifacts_differ a (eq_sym H))).
    destruct (reportResults env a (selectorsOf lbl a)
                (startedState env lbl a providers fs)) as [[x|r] st];
      cbn [fst snd] in *; rewrite He, Hf; now split.
Qed.

Lemma dependency_artifact_after_run_witness :
  exists providers,
    setInternalProviders_result
      (sampleEnvWith (fun _ => None) (Marshal_rulesets sampleYaml))
    = Returned providers
    /\ EvSpawnDependencyTask "dependencies.yaml"
       ∈ events (runFrom ∅ (RunAnalysisContainerless
                               (sampleEnvWith (fun _ => None)
                                  (Marshal_rulesets sampleYaml))
                               spec_labels (sampleCommand "full"))).2
    /\ files (runFrom ∅ (RunAnalysisContainerless
                           (sampleEnvWith (fun _ => None)
                              (Marshal_rulesets sampleYaml))
                           spec_labels (sampleCommand "full"))).2
         !! dependenciesYaml (sampleCommand "full")
       = DependencyOutputContainerless (env_os (sampleEnvWith (fun _ => None) (Marshal_rulesets sampleYaml)))
           (env_yaml (sampleEnvWith (fun _ => None) (Marshal_rulesets sampleYaml))) (sampleCommand "full")
           providers "dependencies.yaml" ∅ !! dependenciesYaml (sampleCommand "full").
Proof.
  apply (dependency_artifact_after_run
           (sampleEnvWith (fun _ => None) (Marshal_rulesets sampleYaml))
           spec_labels (sampleCommand "full") ∅).
  - reflexivity.
  - vm_compute. discriminate.
Defined.

(** ** [copyFileContents]: what a copy leaves behind *)

(** When the source opens and neither [os.Create] nor [io.Copy] fails,
    the function returns nil, the destination holds the bytes of the
    source and every other file is as before. A file copied onto itself is
    the exception: [os.Create] truncates it before it is read, so it ends
    up empty, and the function still returns nil. *)
Theorem copy_result (os : OS) (fs : FS) (src dst content : string) :
  os_Open os fs src = inl content ->
  os_Create_fails os dst = None ->
  io_Copy_stops os dst = None ->
  copyFileContents os fs src dst
  = (<[dst := if decide (src = dst) then "" else content]> fs, None)
  /\ (src <> dst ->
      (copyFileContents os fs src dst).1 !! dst = Some content
      /\ (copyFileContents os fs src dst).1 !! src = Some content)
  /\ (src = dst -> (copyFileContents os fs src dst).1 !! src = Some "").
Proof.
  intros Hopen Hcreate Hcopy.
  assert (Hsrc : fs !! src = Some content).
  { unfold os_Open in Hopen. destruct (fs !! src) as [c|]; [|discriminate].
    destruct (os_Open_denied os src); [discriminate|]. now injection Hopen as ->. }
  assert (Heq : copyFileContents os fs src dst
                = (<[dst := if decide (src = dst) then "" else content]> fs, None)).
  { unfold copyFileContents, os_Create. rewrite Hopen, Hcreate, Hcopy.
    destruct (decide (src = dst)) as [->|Hne].
    - rewrite lookup_insert_eq. cbn. now rewrite insert_insert_eq.
    - rewrite lookup_insert_ne by congruence. rewrite Hsrc. cbn.
      now rewrite insert_insert_eq. }
  rewrite Heq. cbn [fst]. split; [reflexivity|]. split.
  - intros Hne. rewrite decide_False by exact Hne. split.
    + apply lookup_insert_eq.
    + rewrite lookup_insert_ne by congruence. exact Hsrc.
  - intros ->. rewrite decide_True by reflexivity. apply lookup_insert_eq.
Qed.

Lemma copy_result_witness :
  copyFileContents workOS {[ "/work/rules.yaml" := "rules" ]}
    "/work/rules.yaml" "/work/rules.yaml"
  = ({[ "/work/rules.yaml" := "" ]}, None).
Proof.
  destruct (copy_result workOS {[ "/work/rules.yaml" := "rules" ]}
              "/work/rules.yaml" "/work/rules.yaml" "rules")
    as (Heq & _ & _); [vm_compute; reflexivity|reflexivity|reflexivity|].
  rewrite Heq. vm_compute. reflexivity.
Defined.

(** A nil result does not mean that the file was copied: the function
    returns nil exactly when the source could not be opened, or when the
    destination was created and the copy went through. When [io.Copy]
    fails its error is returned and the destination is left behind with
    the bytes copied so far. *)
Theorem copy_returns_nil (os : OS) (fs : FS) (src dst : string) :
  ((copyFileContents os fs src dst).2 = None <->
   (exists err, os_Open os fs src = inr err)
   \/ (os_Create_fails os dst = None /\ io_Copy_stops os dst = None))
  /\ (forall content n err,
        os_Open os fs src = inl content -> os_Create_fails os dst = None ->
        io_Copy_stops os dst = Some (n, err) -> src <> dst ->
        copyFileContents os fs src dst
        = (<[dst := string_take n content]> fs, Some err)).
Proof.
  split.
  - unfold copyFileContents, os_Create.
    destruct (os_Open os fs src) as [content|err] eqn:Hopen.
    + destruct (os_Create_fails os dst) as [e|]; cbn.
      * split; [discriminate|]. intros [[err Herr]|[Hc _]]; discriminate.
      * destruct (io_Copy_stops os dst) as [[n e]|]; cbn.
        -- split; [discriminate|]. intros [[err Herr]|[_ Hc]]; discriminate.
        -- split; [intros _; right; now split|reflexivity].
    + cbn. split; [intros _; left; now exists err|reflexivity].
  - intros content n err Hopen Hcreate Hcopy Hne.
    assert (Hsrc : fs !! src = Some content).
    { unfold os_Open in Hopen. destruct (fs !! src) as [c|]; [|discriminate].
      destruct (os_Open_denied os src); [discriminate|]. now injection Hopen as ->. }
    unfold copyFileContents, os_Create. rewrite Hopen, Hcreate, Hcopy.
    rewrite lookup_insert_ne by congruence. rewrite Hsrc. cbn.
    now rewrite insert_insert_eq.
Qed.

(** ** Listing the technologies *)

Lemma dropPrefix_app (p r : string) : dropPrefix p (p +:+ r) = Some r.
Proof.
  induction p as [|c p IH]; [reflexivity|].
  rewrite string_app_cons. cbn. now rewrite Ascii.eqb_refl.
Qed.

Lemma dropPrefix_Some (p s r : string) : dropPrefix p s = Some r -> s = p +:+ r.
Proof.
  revert s. induction p as [|c p IH]; intros s; cbn.
  - now intros [= ->].
  - destruct s as [|d s]; [discriminate|].
    destruct (Ascii.eqb c d) eqn:Hcd; [|discriminate].
    apply Ascii.eqb_eq in Hcd as ->. intros Hr.
    rewrite string_app_cons. f_equal. now apply IH.
Qed.

Lemma string_app_length (s t : string) :
  String.length (s +:+ t) = String.length s + String.length t.
Proof.
  induction s as [|c s IH]; [reflexivity|].
  rewrite string_app_cons. cbn. now rewrite IH.
Qed.

Lemma string_app_longer (p r : string) : p <> "" -> p +:+ r <> r.
Proof.
  intros Hp Heq. apply (f_equal String.length) in Heq.
  rewrite string_app_length in Heq. destruct p; [now destruct Hp|]. cbn in Heq. lia.
Qed.

Lemma string_app_inj_l (p r r' : string) : p +:+ r = p +:+ r' -> r = r'.
Proof.
  induction p as [|c p IH]; [trivial|].
  rewrite !string_app_cons. intros [= H]. now apply IH.
Qed.

(** A label is listed, without the prefix, exactly when the prefix is in
    front of it. *)
Lemma trimmed_iff (l x v : string) :
  l <> "" ->
  (strings_TrimPrefix x l <> x /\ strings_TrimPrefix x l = v) <-> x = l +:+ v.
Proof.
  intros Hl. unfold strings_TrimPrefix. split.
  - destruct (dropPrefix l x) as [r|] eqn:Hd; cbn.
    + intros [_ <-]. now apply dropPrefix_Some.
    + now intros [Hne _].
  - intros ->. rewrite dropPrefix_app. cbn. split; [|reflexivity].
    intros Heq. now apply (string_app_longer l v).
Qed.

Lemma elem_of_listed (lbl : outputv1) (sl : list string) (label v : string) :
  v ∈ listedTechnologies lbl sl label <-> (label +:+ "=" +:+ v) ∈ sl.
Proof.
  unfold listedTechnologies, listOptionsFromLabels, sort_Strings. cbn [tail].
  rewrite (SliceStable_Permutation String.ltb).
  rewrite !list_elem_of_In, in_flat_map.
  assert (Hl : label +:+ "=" <> "") by (destruct label; discriminate).
  split.
  - intros (x & Hx & Hv).
    destruct (decide (strings_TrimPrefix x (label +:+ "=") <> x)) as [Hne|_];
      [|now destruct Hv].
    destruct Hv as [Hv|[]].
    assert (Hxv : x = (label +:+ "=") +:+ v) by (apply trimmed_iff; auto).
    rewrite string_app_assoc in Hxv. now subst x.
  - intros Hin. exists (label +:+ "=" +:+ v). split; [exact Hin|].
    rewrite <- string_app_assoc.
    destruct (trimmed_iff (label +:+ "=") ((label +:+ "=") +:+ v) v Hl) as [_ Ht].
    destruct (Ht eq_refl) as [Hne Heq].
    rewrite decide_True by exact Hne. left. exact Heq.
Qed.

Lemma sort_Strings_sorted (l : list string) :
  StronglySorted (fun x y => String.leb x y = true) (sort_Strings l).
Proof.
  apply Sorted_StronglySorted.
  - intros x y z. apply leb_trans.
  - eapply Sorted_ind with (P := Sorted (fun x y => String.leb x y = true));
      [constructor| |apply (SliceStable_Sorted String.ltb), ltb_asym].
    intros x l' _ IH Hhd. constructor; [exact IH|].
    destruct Hhd as [|y l'' Hxy]; constructor.
    rewrite leb_ltb. unfold notAfter in Hxy. now rewrite Hxy.
Qed.

(** The listing of [listOptionsFromLabels]: a heading, then the
    technologies in ascending order. A technology is listed exactly when
    the slice holds it behind the label and an equals sign; labels that
    only contain the label somewhere else are left out. *)
Theorem listing_is_sorted_and_exact (lbl : outputv1) (sl : list string)
    (label : string) :
  listOptionsFromLabels lbl sl label
  = (if decide (label = SourceTechnologyLabel lbl)
     then "available source technologies:"
     else "available target technologies:") :: listedTechnologies lbl sl label
  /\ StronglySorted (fun x y => String.leb x y = true)
       (listedTechnologies lbl sl label)
  /\ (forall v, v ∈ listedTechnologies lbl sl label
                <-> (label +:+ "=" +:+ v) ∈ sl).
Proof.
  split; [reflexivity|]. split.
  - unfold listedTechnologies, listOptionsFromLabels. cbn [tail].
    apply sort_Strings_sorted.
  - intros v. apply elem_of_listed.
Qed.

(** Listing the labels made of the label, an equals sign and a
    technology gives the technologies back, sorted. *)
Theorem listing_round_trip (lbl : outputv1) (label : string) (vs : list string) :
  listedTechnologies lbl (map (sprintf_eq label) vs) label = sort_Strings vs.
Proof.
  unfold listedTechnologies, listOptionsFromLabels. cbn [tail]. f_equal.
  assert (Hl : label +:+ "=" <> "") by (destruct label; discriminate).
  induction vs as [|v vs IH]; [reflexivity|].
  cbn [map flat_map]. rewrite IH.
  assert (Hv : sprintf_eq label v = (label +:+ "=") +:+ v)
    by (unfold sprintf_eq; now rewrite string_app_assoc).
  rewrite Hv.
  destruct (trimmed_iff (label +:+ "=") ((label +:+ "=") +:+ v) v Hl) as [_ Ht].
  destruct (Ht eq_refl) as [Hne Heq].
  rewrite decide_True by exact Hne. now rewrite Heq.
Qed.

Lemma scanWord_spec (label : string) (labelsSlice : list string) (text : string) :
  (exists extra, scanWord label labelsSlice text = labelsSlice ++ extra)
  /\ (NoDup labelsSlice -> NoDup (scanWord label labelsSlice text))
  /\ (forall x, x ∈ scanWord label labelsSlice text
                <-> x ∈ labelsSlice \/ (x = text /\ isLabelWord label x)).
Proof.
  unfold scanWord, getSourceOrTargetLabel, slices_Contains, isLabelWord.
  destruct (strings_Contains text label) eqn:Hc; cbn [nonblank].
  - destruct text as [|c t]; cbn [nonblank andb].
    + split; [exists []; now rewrite app_nil_r|]. split; [trivial|].
      intros x. split; [now left|]. intros [Hx|[-> [Hne _]]]; [exact Hx|now destruct Hne].
    + destruct (bool_decide (String c t ∈ labelsSlice)) eqn:Hin; cbn [negb].
      * apply bool_decide_eq_true in Hin.
        split; [exists []; now rewrite app_nil_r|]. split; [trivial|].
        intros x. split; [now left|]. intros [Hx|[-> _]]; assumption.
      * apply bool_decide_eq_false in Hin.
        split; [now eexists|]. split.
        { intros Hnd. apply NoDup_app. split; [exact Hnd|].
          split; [|apply NoDup_singleton].
          intros x Hx Hx'. apply list_elem_of_singleton in Hx'. now subst x. }
        intros x. rewrite elem_of_app, list_elem_of_singleton. split.
        { intros [Hx| ->]; [now left|right]. repeat split; [discriminate|exact Hc]. }
        { intros [Hx|[-> _]]; [now left|now right]. }
  - split; [exists []; now rewrite app_nil_r|]. split; [trivial|].
    intros x. split; [now left|].
    intros [Hx|[-> [_ Hc']]]; [exact Hx|congruence].
Qed.

Lemma fold_scanWord_spec (label : string) (words labelsSlice : list string) :
  (exists extra, fold_left (scanWord label) words labelsSlice = labelsSlice ++ extra)
  /\ (NoDup labelsSlice -> NoDup (fold_left (scanWord label) words labelsSlice))
  /\ (forall x, x ∈ fold_left (scanWord label) words labelsSlice
                <-> x ∈ labelsSlice \/ (x ∈ words /\ isLabelWord label x)).
Proof.
  revert labelsSlice. induction words as [|t words IH]; intros labelsSlice.
  - cbn. split; [exists []; now rewrite app_nil_r|]. split; [trivial|].
    intros x. split; [now left|]. intros [Hx|[Hx _]]; [exact Hx|].
    now apply elem_of_nil in Hx.
  - cbn [fold_left].
    destruct (scanWord_spec label labelsSlice t) as ([e1 He1] & Hnd1 & Hin1).
    destruct (IH (scanWord label labelsSlice t)) as ([e2 He2] & Hnd2 & Hin2).
    split; [exists (e1 ++ e2); now rewrite He2, He1, <- app_assoc|].
    split; [auto|].
    intros x. rewrite Hin2, Hin1, elem_of_cons. split.
    + intros [[Hx|[-> Hl]]|[Hx Hl]]; auto.
    + intros [Hx|[[->|Hx] Hl]]; auto.
Qed.

(** What one call of the walk does to the slice when it returns nil. *)
Lemma walkRuleSets_spec (os : OS) (w : Walker) (fs : FS) (label : string)
    (labelsSlice labels : list string) (call : walkCall) :
  walkRuleSets os w fs label labelsSlice call = Done (labels, None) ->
  (NoDup labelsSlice -> NoDup labels)
  /\ (forall x, x ∈ labels
                <-> x ∈ labelsSlice
                    \/ (x ∈ walkedWords os w fs [call] /\ isLabelWord label x)).
Proof.
  destruct call as [[path d] err]. unfold walkRuleSets, walkedWords.
  cbn [flat_map fst snd]. rewrite app_nil_r.
  destruct d as [[|]|]; cbn [negb]; [| |discriminate].
  - intros [= <- ->]. split; [trivial|]. intros x. split; [now left|].
    intros [Hx|[Hx _]]; [exact Hx|now apply elem_of_nil in Hx].
  - unfold readRuleFile. destruct (os_Open os fs path) as [content|e]; [|discriminate].
    destruct (ScanWords w content) as [words [e|]]; cbn [fst snd]; [discriminate|].
    intros [= <-].
    destruct (fold_scanWord_spec label words labelsSlice) as (_ & Hnd & Hin).
    now split.
Qed.

Lemma walkCalls_spec (os : OS) (w : Walker) (fs : FS) (label : string)
    (calls : list walkCall) (labelsSlice labels : list string) :
  walkCalls (walkRuleSets os w fs label) calls labelsSlice = Done (labels, None) ->
  (NoDup labelsSlice -> NoDup labels)
  /\ (forall x, x ∈ labels
                <-> x ∈ labelsSlice
                    \/ (x ∈ walkedWords os w fs calls /\ isLabelWord label x)).
Proof.
  revert labelsSlice. induction calls as [|c calls IH]; intros labelsSlice.
  - cbn. intros [= <-]. split; [trivial|]. intros x. split; [now left|].
    intros [Hx|[Hx _]]; [exact Hx|now apply elem_of_nil in Hx].
  - cbn [walkCalls].
    destruct (walkRuleSets os w fs label labelsSlice c) as [[l1 [e|]]|] eqn:Hc;
      [discriminate| |discriminate].
    intros Hrest. destruct (walkRuleSets_spec _ _ _ _ _ _ _ Hc) as [Hnd1 Hin1].
    destruct (IH _ Hrest) as [Hnd2 Hin2].
    split; [auto|]. intros x. rewrite Hin2, Hin1.
    assert (Hcons : walkedWords os w fs (c :: calls)
                    = walkedWords os w fs [c] ++ walkedWords os w fs calls)
      by (unfold walkedWords; cbn [flat_map]; now rewrite app_nil_r).
    rewrite Hcons, elem_of_app. split.
    + intros [[Hx|[Hx Hl]]|[Hx Hl]]; auto.
    + intros [Hx|[[Hx|Hx] Hl]]; auto.
Qed.

Lemma walkCalls_panic (os : OS) (w : Walker) (fs : FS) (label : string)
    (calls : list walkCall) (labelsSlice : list string) :
  walkCalls (walkRuleSets os w fs label) calls labelsSlice = Panic ->
  nilEntry calls.
Proof.
  revert labelsSlice. induction calls as [|c calls IH]; intros labelsSlice;
    [discriminate|].
  cbn [walkCalls].
  destruct (walkRuleSets os w fs label labelsSlice c) as [[l1 [e|]]|] eqn:Hc.
  - discriminate.
  - intros Hrest. destruct (IH _ Hrest) as (path & err & Hin).
    exists path, err. now right.
  - intros _. destruct c as [[path [isDir|]] err].
    + cbn in Hc. destruct isDir; discriminate.
    + exists path, err. now left.
Qed.

Lemma listed_NoDup (lbl : outputv1) (sl : list string) (label : string) :
  NoDup sl -> NoDup (listedTechnologies lbl sl label).
Proof.
  intros Hnd. unfold listedTechnologies, listOptionsFromLabels, sort_Strings.
  cbn [tail]. rewrite (SliceStable_Permutation String.ltb).
  assert (Hl : label +:+ "=" <> "") by (destruct label; discriminate).
  induction Hnd as [|x sl Hx Hnd IH]; [constructor|].
  cbn [flat_map].
  destruct (decide (strings_TrimPrefix x (label +:+ "=") <> x)) as [Hne|_];
    [|exact IH].
  cbn. constructor; [|exact IH].
  intros Hin. apply Hx.
  apply list_elem_of_In, in_flat_map in Hin as (y & Hy & Hv).
  destruct (decide (strings_TrimPrefix y (label +:+ "=") <> y)) as [Hney|_];
    [|now destruct Hv].
  destruct Hv as [Hv|[]].
  assert (Hxl : x = (label +:+ "=") +:+ strings_TrimPrefix x (label +:+ "="))
    by (apply trimmed_iff; auto).
  assert (Hyl : y = (label +:+ "=") +:+ strings_TrimPrefix x (label +:+ "="))
    by (apply trimmed_iff; auto).
  rewrite Hxl, <- Hyl. now apply list_elem_of_In.
Qed.

(** The labels [readRuleFilesForLabels] collects. The call panics only
    when the walk hands over a nil entry. When the walk fails the result
    is nil. When it succeeds the result holds no label twice, and holds
    exactly the non-empty words of the visited files that contain the
    label; so the listing made from it names a technology exactly when
    some word is the label, an equals sign and the technology, and names
    it once. *)
Theorem collected_labels_listing (lbl : outputv1) (os : OS) (w : Walker) (fs : FS)
    (RulesetPath label : string) :
  match readRuleFilesForLabels os w fs RulesetPath label with
  | Panic => nilEntry (WalkDir w RulesetPath)
  | Done (labels, Some _) => labels = []
  | Done (labels, None) =>
      NoDup labels
      /\ (forall x, x ∈ labels
            <-> x ∈ walkedWords os w fs (WalkDir w RulesetPath)
                /\ isLabelWord label x)
      /\ NoDup (listedTechnologies lbl labels label)
      /\ (forall v, v ∈ listedTechnologies lbl labels label
            <-> (label +:+ "=" +:+ v)
                ∈ walkedWords os w fs (WalkDir w RulesetPath)
                /\ strings_Contains (label +:+ "=" +:+ v) label = true)
  end.
Proof.
  unfold readRuleFilesForLabels.
  destruct (walkCalls (walkRuleSets os w fs label) (WalkDir w RulesetPath) [])
    as [[labels [e|]]|] eqn:Hw.
  - reflexivity.
  - destruct (walkCalls_spec _ _ _ _ _ _ _ Hw) as [Hnd Hin].
    assert (Hnd' : NoDup labels) by (apply Hnd; constructor).
    assert (Hin' : forall x, x ∈ labels
                     <-> x ∈ walkedWords os w fs (WalkDir w RulesetPath)
                         /\ isLabelWord label x).
    { intros x. rewrite Hin. split; [|now right].
      intros [Hx|Hx]; [now apply elem_of_nil in Hx|exact Hx]. }
    split; [exact Hnd'|]. split; [exact Hin'|].
    split; [now apply listed_NoDup|].
    intros v. rewrite elem_of_listed, Hin'. unfold isLabelWord.
    split; [now intros (Hx & _ & Hc)|].
    intros [Hx Hc]. split; [exact Hx|]. split; [|exact Hc].
    destruct label; discriminate.
  - now apply walkCalls_panic in Hw.
Qed.

Example sample_rules_volumes :
  getRulesVolumes rulesOS sampleHost "/opt/rulesets/input"
    (rulesCommand ["/work/rules"; "/work/custom.yaml"; "/work/secret.yaml"])
    {| hostFiles := rulesFiles; tempDirs := [] |}
  = ({| hostFiles :=
          <[ "/tmp/analyze-rules-0/ruleset.yaml" := "name: ruleset" ]>
            (<[ "/tmp/analyze-rules-0/rules1.yaml" := "- ruleID: custom-01" ]> rulesFiles);
        tempDirs := ["/tmp/analyze-rules-0"] |},
     inl {[ "/work/rules" := "/opt/rulesets/input/rules";
            "/tmp/analyze-rules-0" := "/opt/rulesets/input/analyze-rules-0" ]}).
Proof. vm_compute. reflexivity. Qed.

(** ** The temporary rules directory *)

Lemma to_uint_nonnil (n : nat) : Nat.to_uint n <> Nil.
Proof.
  intros H. assert (Hn : n = 0) by (rewrite <- (Unsigned.of_to n), H; reflexivity).
  subst n. discriminate H.
Qed.

Lemma Sprintf_d_inj (i j : nat) : Sprintf_d i = Sprintf_d j -> i = j.
Proof.
  unfold Sprintf_d. intros H. apply Unsigned.to_uint_inj.
  assert (Hs : Some (Nat.to_uint i) = Some (Nat.to_uint j)); [|now injection Hs].
  rewrite <- !NilZero.usu by apply to_uint_nonnil. now rewrite H.
Qed.

Lemma string_app_inj_r (s1 s2 t : string) : s1 +:+ t = s2 +:+ t -> s1 = s2.
Proof.
  intros H.
  assert (Hlen : String.length s1 = String.length s2).
  { apply (f_equal String.length) in H. rewrite !string_app_length in H. lia. }
  revert s2 H Hlen. induction s1 as [|c s1 IH]; intros [|d s2]; cbn;
    try discriminate; [reflexivity|].
  rewrite !string_app_cons. intros [= -> H] [= Hlen]. f_equal. now apply IH.
Qed.

Lemma rulesFile_inj (i j : nat) : rulesFile i = rulesFile j -> i = j.
Proof.
  unfold rulesFile. intros H. apply string_app_inj_l in H.
  apply string_app_inj_r in H. now apply Sprintf_d_inj.
Qed.

Lemma rulesFile_not_ruleset (i : nat) : rulesFile i <> "ruleset.yaml".
Proof.
  unfold rulesFile. intros H.
  change "ruleset.yaml" with ("rules" +:+ "et" +:+ ".yaml") in H.
  apply string_app_inj_l, string_app_inj_r in H.
  assert (Hs : NilZero.uint_of_string (Sprintf_d i) = Some (Nat.to_uint i))
    by apply NilZero.usu, to_uint_nonnil.
  rewrite H in Hs. discriminate Hs.
Qed.

Lemma inside_Join (dir name : string) : inside dir (filepath_Join dir name) = true.
Proof.
  unfold inside, filepath_Join. rewrite <- string_app_assoc, dropPrefix_app.
  apply orb_true_r.
Qed.

Lemma copyFileContents_frame (os : OS) (fs : FS) (src dst p : string) :
  p <> dst -> (copyFileContents os fs src dst).1 !! p = fs !! p.
Proof.
  intros Hp. unfold copyFileContents, os_Create.
  destruct (os_Open os fs src); [|reflexivity].
  destruct (os_Create_fails os dst); [reflexivity|].
  destruct (io_Copy_stops os dst) as [[n e]|]; cbn [fst];
    now rewrite !lookup_insert_ne by congruence.
Qed.

Lemma copyFileContents_nil (os : OS) (fs fs1 : FS) (src dst : string) :
  copyFileContents os fs src dst = (fs1, None) -> src <> dst ->
  fs1 !! dst = match os_Open os fs src with
               | inl content => Some content
               | inr _ => fs !! dst
               end.
Proof.
  unfold copyFileContents, os_Create. intros H Hne.
  destruct (os_Open os fs src) as [content|e] eqn:Hopen.
  - destruct (os_Create_fails os dst); [discriminate|].
    destruct (io_Copy_stops os dst) as [[n e]|]; [discriminate|].
    injection H as <-. rewrite lookup_insert_eq, lookup_insert_ne by congruence.
    unfold os_Open in Hopen. destruct (fs !! src) as [c|]; [|discriminate].
    destruct (os_Open_denied os src); [discriminate|]. now injection Hopen as ->.
  - now injection H as <-.
Qed.

Lemma os_Open_agree (os : OS) (fs fs' : FS) (p : string) :
  fs' !! p = fs !! p -> os_Open os fs' p = os_Open os fs p.
Proof. unfold os_Open. now intros ->. Qed.

Lemma mountRules_frame (os : OS) (h : Host) (RulesMountPath tempDir : string)
    (rs : list string) (i : nat) (fs : FS) (vols : volumes) (needed : bool)
    (p : string) :
  inside tempDir p = false ->
  (mountRules os h RulesMountPath tempDir rs i fs vols needed).1 !! p = fs !! p.
Proof.
  intros Hp. revert i fs vols needed.
  induction rs as [|r rs IH]; intros i fs vols needed; [reflexivity|].
  cbn [mountRules]. destruct (os_Stat os r) as [stat|]; [|reflexivity].
  destruct (IsDir stat); cbn [negb]; [apply IH|].
  assert (Hne : p <> filepath_Join tempDir (rulesFile i)).
  { intros ->. now rewrite inside_Join in Hp. }
  pose proof (copyFileContents_frame os fs r _ p Hne) as Hf.
  destruct (copyFileContents os fs r (filepath_Join tempDir (rulesFile i)))
    as [fs' [e|]]; cbn [fst] in *; [exact Hf|].
  now rewrite IH.
Qed.

Lemma createTempRuleSet_frame (os : OS) (h : Host) (fs : FS) (path p : string) :
  p <> path -> (createTempRuleSet os h fs path).1 !! p = fs !! p.
Proof.
  intros Hp. unfold createTempRuleSet, os_WriteFile.
  destruct (Marshal_tempRuleSet h); [|reflexivity].
  destruct (os_WriteFile_fails os path); [reflexivity|].
  cbn [fst]. now rewrite lookup_insert_ne by congruence.
Qed.

(** What [getRulesVolumes] leaves on the host, however it returns:
    either nothing at all, or one more temporary directory, recorded in
    [tempDirs], with every file outside that directory as it was. *)
Lemma getRulesVolumes_footprint (os : OS) (h : Host) (RulesMountPath : string)
    (a : analyzeCommand) (st : hostState) :
  (getRulesVolumes os h RulesMountPath a st).1 = st
  \/ exists tempDir,
       os_MkdirTemp h "analyze-rules-" (tempDirs st) = inl tempDir
       /\ tempDirs (getRulesVolumes os h RulesMountPath a st).1
          = tempDirs st ++ [tempDir]
       /\ forall p, inside tempDir p = false ->
            hostFiles (getRulesVolumes os h RulesMountPath a st).1 !! p
            = hostFiles st !! p.
Proof.
  unfold getRulesVolumes. destruct (rules a) as [|r rs]; [now left|].
  destruct (os_MkdirTemp h "analyze-rules-" (tempDirs st)) as [tempDir|e];
    [|now left].
  right. exists tempDir. split; [reflexivity|].
  pose proof (mountRules_frame os h RulesMountPath tempDir (r :: rs) 0
                (hostFiles st) ∅ false) as Hf.
  destruct (mountRules os h RulesMountPath tempDir (r :: rs) 0 (hostFiles st) ∅ false)
    as [fs [[vols [|]]|e]]; cbn [fst] in Hf.
  - pose proof (createTempRuleSet_frame os h fs (filepath_Join tempDir "ruleset.yaml"))
      as Hc.
    destruct (createTempRuleSet os h fs (filepath_Join tempDir "ruleset.yaml"))
      as [fs' [e|]]; cbn [fst hostFiles tempDirs] in *; (split; [reflexivity|]);
      intros p Hp; (rewrite Hc; [now apply Hf|]);
      intros ->; now rewrite inside_Join in Hp.
  - cbn. split; [reflexivity|exact Hf].
  - cbn. split; [reflexivity|exact Hf].
Qed.
Lemma os_RemoveAll_lookup (h : Host) (fs : FS) (path p : string) :
  os_RemoveAll_fails h path fs = None ->
  (os_RemoveAll h fs path).1 !! p = if inside path p then None else fs !! p.
Proof.
  intros Hok. unfold os_RemoveAll. rewrite Hok. cbn [fst].
  destruct (inside path p) eqn:Hin.
  - apply map_lookup_filter_None_2. right. intros x _. cbn. congruence.
  - destruct (fs !! p) as [x|] eqn:Hp.
    + now apply map_lookup_filter_Some_2.
    + apply map_lookup_filter_None_2. now left.
Qed.

Lemma Clean_lookup (h : Host) (dirs : list string) (fs : FS) (p : string) :
  (forall path fs', os_RemoveAll_fails h path fs' = None) ->
  fold_left (fun fs' path => (os_RemoveAll h fs' path).1) dirs fs !! p
  = if outsideAll dirs p then fs !! p else None.
Proof.
  intros Hok. revert fs. induction dirs as [|d dirs IH]; intros fs; [reflexivity|].
  cbn [fold_left outsideAll forallb]. rewrite IH.
  change (forallb (fun dir => negb (inside dir p)) dirs) with (outsideAll dirs p).
  rewrite os_RemoveAll_lookup by apply Hok.
  destruct (inside d p), (outsideAll dirs p); reflexivity.
Qed.

Lemma outsideAll_app (dirs : list string) (d p : string) :
  outsideAll (dirs ++ [d]) p = outsideAll dirs p && negb (inside d p).
Proof.
  unfold outsideAll. rewrite forallb_app. cbn. now rewrite andb_true_r.
Qed.

(** [getRulesVolumes] followed by [Clean] is [Clean] alone: when the
    temporary directory is new (no file of the host lies in it) and no
    removal fails, the clean-up takes away everything the rules volumes
    put on the host, whether [getRulesVolumes] returned volumes or an
    error. A command that starts without temporary directories finds the
    host's files as they were. *)
Theorem temporary_rules_cleaned (os : OS) (h : Host) (RulesMountPath : string)
    (a : analyzeCommand) (st : hostState) :
  (forall path fs, os_RemoveAll_fails h path fs = None) ->
  (forall tempDir p,
     os_MkdirTemp h "analyze-rules-" (tempDirs st) = inl tempDir ->
     inside tempDir p = true -> hostFiles st !! p = None) ->
  hostFiles (Clean h (getRulesVolumes os h RulesMountPath a st).1).1
  = hostFiles (Clean h st).1
  /\ (tempDirs st = [] ->
      hostFiles (Clean h (getRulesVolumes os h RulesMountPath a st).1).1
      = hostFiles st).
Proof.
  intros Hok Hnew.
  assert (Heq : hostFiles (Clean h (getRulesVolumes os h RulesMountPath a st).1).1
                = hostFiles (Clean h st).1).
  { destruct (getRulesVolumes_footprint os h RulesMountPath a st)
      as [->|(tempDir & Hmk & Hdirs & Hframe)]; [reflexivity|].
    unfold Clean. cbn [fst hostFiles]. apply map_eq. intros p.
    rewrite !Clean_lookup by exact Hok. rewrite Hdirs, outsideAll_app.
    destruct (inside tempDir p) eqn:Hin; cbn [negb].
    - rewrite andb_false_r, (Hnew tempDir p Hmk Hin). now destruct (outsideAll _ _).
    - rewrite andb_true_r, (Hframe p Hin). reflexivity. }
  split; [exact Heq|]. intros Hnil. rewrite Heq. unfold Clean. now rewrite Hnil.
Qed.

Lemma temporary_rules_cleaned_witness :
  hostFiles (Clean sampleHost
               (getRulesVolumes rulesOS sampleHost "/opt/rulesets/input"
                  (rulesCommand ["/work/rules"; "/work/custom.yaml"; "/work/secret.yaml"])
                  {| hostFiles := rulesFiles; tempDirs := [] |}).1).1
  = rulesFiles.
Proof.
  apply (temporary_rules_cleaned rulesOS sampleHost "/opt/rulesets/input"
           (rulesCommand ["/work/rules"; "/work/custom.yaml"; "/work/secret.yaml"])
           {| hostFiles := rulesFiles; tempDirs := [] |}).
  - reflexivity.
  - intros tempDir p [= <-] Hin. cbn [hostFiles]. unfold rulesFiles.
    rewrite lookup_insert_ne, lookup_singleton_ne;
      [reflexivity|intros <-; vm_compute in Hin; discriminate Hin..].
  - reflexivity.
Defined.

Lemma mountRules_volumes (os : OS) (h : Host) (RulesMountPath tempDir : string)
    (rs : list string) (i : nat) (fs fs' : FS) (vols vols' : volumes)
    (needed needed' : bool) :
  mountRules os h RulesMountPath tempDir rs i fs vols needed
  = (fs', inl (vols', needed')) ->
  (forall r, r ∈ rs -> os_Stat os r <> None)
  /\ needed' = needed || hasRulesFile os rs
  /\ forall k, vols' !! k
               = if bool_decide (k ∈ rs) && statIsDir os k
                 then Some (rulesMount h RulesMountPath k) else vols !! k.
Proof.
  revert i fs vols needed. induction rs as [|r rs IH]; intros i fs vols needed.
  - cbn. intros [= <- <- <-]. split; [intros r Hr; now apply elem_of_nil in Hr|].
    split; [now rewrite orb_false_r|]. intros k.
    rewrite bool_decide_eq_false_2 by apply not_elem_of_nil. reflexivity.
  - cbn [mountRules]. destruct (os_Stat os r) as [stat|] eqn:Hstat; [|discriminate].
    assert (Hdir : statIsDir os r = IsDir stat) by (unfold statIsDir; now rewrite Hstat).
    destruct (IsDir stat) eqn:Hd; cbn [negb].
    + intros Hrest. destruct (IH _ _ _ _ Hrest) as (Hs & Hn & Hv).
      split; [|split].
      * intros r' [->|Hr']%elem_of_cons; [congruence|auto].
      * unfold hasRulesFile in *. cbn [existsb]. now rewrite Hdir.
      * intros k. rewrite Hv. destruct (decide (k = r)) as [->|Hne].
        { rewrite Hdir, lookup_insert_eq.
          rewrite (bool_decide_eq_true_2 (r ∈ r :: rs)) by (apply elem_of_cons; now left).
          now destruct (bool_decide (r ∈ rs)). }
        { rewrite lookup_insert_ne by congruence.
          assert (Hb : bool_decide (k ∈ r :: rs) = bool_decide (k ∈ rs)).
          { apply bool_decide_ext. rewrite elem_of_cons. tauto. }
          now rewrite Hb. }
    + destruct (copyFileContents os fs r (filepath_Join tempDir (rulesFile i)))
        as [fs1 [e|]]; [discriminate|].
      intros Hrest. destruct (IH _ _ _ _ Hrest) as (Hs & Hn & Hv).
      split; [|split].
      * intros r' [->|Hr']%elem_of_cons; [congruence|auto].
      * unfold hasRulesFile in *. cbn [existsb]. rewrite Hdir, Hn.
        cbn. now rewrite orb_true_r.
      * intros k. rewrite Hv. destruct (decide (k = r)) as [->|Hne].
        { now rewrite Hdir, !andb_false_r. }
        { assert (Hb : bool_decide (k ∈ r :: rs) = bool_decide (k ∈ rs)).
          { apply bool_decide_ext. rewrite elem_of_cons. tauto. }
          now rewrite Hb. }
Qed.

(** The volumes [getRulesVolumes] returns. Without rules there are none
    and the host is not touched. With rules, a nil error means that
    [os.Stat] answered for every rule, and the volumes are exactly: every
    rule that is a directory, and the temporary directory when some rule
    is a file; each is mounted below [RulesMountPath] under its base
    name. *)
Theorem rules_volumes_on_success (os : OS) (h : Host) (RulesMountPath : string)
    (a : analyzeCommand) (st st' : hostState) (vols : volumes) :
  getRulesVolumes os h RulesMountPath a st = (st', inl vols) ->
  (rules a = [] /\ vols = ∅ /\ st' = st)
  \/ exists tempDir,
       os_MkdirTemp h "analyze-rules-" (tempDirs st) = inl tempDir
       /\ tempDirs st' = tempDirs st ++ [tempDir]
       /\ (forall r, r ∈ rules a -> os_Stat os r <> None)
       /\ forall k, vols !! k
                    = if mounted os (rules a) tempDir k
                      then Some (rulesMount h RulesMountPath k) else None.
Proof.
  unfold getRulesVolumes. destruct (rules a) as [|r rs] eqn:Hrules.
  - intros [= <- <-]. now left.
  - destruct (os_MkdirTemp h "analyze-rules-" (tempDirs st)) as [tempDir|e];
      [|discriminate].
    destruct (mountRules os h RulesMountPath tempDir (r :: rs) 0 (hostFiles st) ∅ false)
      as [fs [[vols' needed]|e]] eqn:Hm; [|discriminate].
    destruct (mountRules_volumes _ _ _ _ _ _ _ _ _ _ _ _ Hm) as (Hs & Hn & Hv).
    cbn [orb] in Hn. intros Hres. right. exists tempDir. split; [reflexivity|].
    unfold mounted. destruct needed.
    + destruct (createTempRuleSet os h fs (filepath_Join tempDir "ruleset.yaml"))
        as [fs' [e|]]; [discriminate|].
      injection Hres as <- <-. split; [reflexivity|]. split; [exact Hs|].
      intros k. rewrite <- Hn, andb_true_r.
      destruct (decide (k = tempDir)) as [->|Hne].
      * rewrite lookup_insert_eq.
        rewrite (bool_decide_eq_true_2 (tempDir = tempDir)), orb_true_r by reflexivity.
        reflexivity.
      * rewrite lookup_insert_ne, Hv, lookup_empty by congruence.
        rewrite (bool_decide_eq_false_2 (k = tempDir)), orb_false_r by exact Hne.
        reflexivity.
    + injection Hres as <- <-. split; [reflexivity|]. split; [exact Hs|].
      intros k. rewrite <- Hn, andb_false_r, orb_false_r, Hv, lookup_empty.
      reflexivity.
Qed.

Lemma rules_volumes_on_success_witness :
  exists tempDir,
    os_MkdirTemp sampleHost "analyze-rules-" [] = inl tempDir
    /\ ({[ "/work/rules" := "/opt/rulesets/input/rules";
           "/tmp/analyze-rules-0" := "/opt/rulesets/input/analyze-rules-0" ]}
          : volumes) !! tempDir
       = Some (rulesMount sampleHost "/opt/rulesets/input" tempDir).
Proof.
  destruct (rules_volumes_on_success rulesOS sampleHost "/opt/rulesets/input"
              (rulesCommand ["/work/rules"; "/work/custom.yaml"; "/work/secret.yaml"])
              {| hostFiles := rulesFiles; tempDirs := [] |}
              {| hostFiles :=
                   <[ "/tmp/analyze-rules-0/ruleset.yaml" := "name: ruleset" ]>
                     (<[ "/tmp/analyze-rules-0/rules1.yaml" := "- ruleID: custom-01" ]>
                        rulesFiles);
                 tempDirs := ["/tmp/analyze-rules-0"] |}
              {[ "/work/rules" := "/opt/rulesets/input/rules";
                 "/tmp/analyze-rules-0" := "/opt/rulesets/input/analyze-rules-0" ]})
    as [(Hnil & _)|(tempDir & Hmk & _ & _ & Hv)].
  - vm_compute. reflexivity.
  - discriminate Hnil.
  - exists tempDir. split; [exact Hmk|]. rewrite Hv.
    injection Hmk as <-. vm_compute. reflexivity.
Defined.
Lemma mountRules_files (os : OS) (h : Host) (RulesMountPath tempDir : string)
    (rs : list string) (i : nat) (fs fs' : FS) (vols : volumes) (needed : bool)
    (res : volumes * bool) :
  mountRules os h RulesMountPath tempDir rs i fs vols needed = (fs', inl res) ->
  (forall r, r ∈ rs -> inside tempDir r = false) ->
  (forall j r, rs !! j = Some r -> statIsDir os r = false ->
     fs' !! filepath_Join tempDir (rulesFile (i + j))
     = match os_Open os fs r with
       | inl content => Some content
       | inr _ => fs !! filepath_Join tempDir (rulesFile (i + j))
       end)
  /\ (forall p, (forall j, j < length rs -> p <> filepath_Join tempDir (rulesFile (i + j))) ->
        fs' !! p = fs !! p).
Proof.
  revert i fs vols needed. induction rs as [|r rs IH]; intros i fs vols needed.
  - cbn. intros [= <- <-] _. split; [intros j r Hj; discriminate Hj|reflexivity].
  - cbn [mountRules]. intros Hm Hout.
    assert (Hout' : forall r', r' ∈ rs -> inside tempDir r' = false)
      by (intros r' Hr'; apply Hout; now right).
    assert (Hr : inside tempDir r = false) by (apply Hout; now left).
    assert (Hdest : forall k, r <> filepath_Join tempDir (rulesFile k)).
    { intros k Heq. rewrite Heq, inside_Join in Hr. discriminate Hr. }
    destruct (os_Stat os r) as [stat|] eqn:Hstat; [|discriminate].
    assert (Hdir : statIsDir os r = IsDir stat) by (unfold statIsDir; now rewrite Hstat).
    destruct (IsDir stat) eqn:Hd; cbn [negb] in Hm.
    + destruct (IH _ _ _ _ Hm Hout') as [Hfiles Hframe]. split.
      * intros [|j] r' Hj Hfile.
        { injection Hj as <-. congruence. }
        { replace (i + S j) with (S i + j) by lia. now apply Hfiles. }
      * intros p Hp. apply Hframe. intros j Hj.
        replace (S i + j) with (i + S j) by lia. apply Hp. cbn. lia.
    + destruct (copyFileContents os fs r (filepath_Join tempDir (rulesFile i)))
        as [fs1 [e|]] eqn:Hc; [discriminate|].
      destruct (IH _ _ _ _ Hm Hout') as [Hfiles Hframe].
      assert (Hf1 : forall p, p <> filepath_Join tempDir (rulesFile i) ->
                      fs1 !! p = fs !! p).
      { intros p Hp. pose proof (copyFileContents_frame os fs r _ p Hp) as Hf.
        now rewrite Hc in Hf. }
      assert (Hother : forall j, filepath_Join tempDir (rulesFile (S i + j))
                                 <> filepath_Join tempDir (rulesFile i)).
      { intros j Heq. apply filepath_Join_inj, rulesFile_inj in Heq. lia. }
      split.
      * intros [|j] r' Hj Hfile.
        { injection Hj as <-. rewrite Nat.add_0_r.
          rewrite Hframe by (intros j _; apply not_eq_sym, Hother).
          apply copyFileContents_nil; [exact Hc|apply Hdest]. }
        { replace (i + S j) with (S i + j) by lia.
          rewrite (Hfiles j r' Hj Hfile).
          assert (Hr' : r' <> filepath_Join tempDir (rulesFile i)).
          { intros Heq. apply list_elem_of_lookup_2 in Hj.
            apply Hout in Hj. rewrite Heq, inside_Join in Hj. discriminate Hj. }
          rewrite (os_Open_agree os fs fs1 r' (Hf1 r' Hr')).
          now rewrite (Hf1 _ (Hother j)). }
      * intros p Hp. rewrite Hframe.
        { apply Hf1. rewrite <- (Nat.add_0_r i). apply Hp. cbn. lia. }
        { intros j Hj. replace (S i + j) with (i + S j) by lia. apply Hp. cbn. lia. }
Qed.

(** The files of the temporary directory after [getRulesVolumes]
    returned volumes, when the rules lie outside that directory. The rule
    of index [i] that is a file has been copied to [rules<i>.yaml] when
    it could be opened; when it could not, no file was written for it
    and no error was returned. When some rule is a file,
    [ruleset.yaml] holds the marshalled rule set. *)
Theorem rules_files_on_success (os : OS) (h : Host) (RulesMountPath : string)
    (a : analyzeCommand) (st st' : hostState) (vols : volumes) (tempDir : string) :
  getRulesVolumes os h RulesMountPath a st = (st', inl vols) ->
  os_MkdirTemp h "analyze-rules-" (tempDirs st) = inl tempDir ->
  (forall r, r ∈ rules a -> inside tempDir r = false) ->
  (forall i r, rules a !! i = Some r -> statIsDir os r = false ->
     hostFiles st' !! filepath_Join tempDir (rulesFile i)
     = match os_Open os (hostFiles st) r with
       | inl content => Some content
       | inr _ => hostFiles st !! filepath_Join tempDir (rulesFile i)
       end)
  /\ (hasRulesFile os (rules a) = true ->
      exists yamlData,
        Marshal_tempRuleSet h = inl yamlData
        /\ hostFiles st' !! filepath_Join tempDir "ruleset.yaml" = Some yamlData).
Proof.
  unfold getRulesVolumes. intros Hres Hmk Hout. destruct (rules a) as [|r rs] eqn:Hrules.
  { split; [intros i r Hi; discriminate Hi|intros Hf; discriminate Hf]. }
  rewrite Hmk in Hres.
  destruct (mountRules os h RulesMountPath tempDir (r :: rs) 0 (hostFiles st) ∅ false)
    as [fs [[vols' needed]|e]] eqn:Hm; [|discriminate].
  destruct (mountRules_volumes _ _ _ _ _ _ _ _ _ _ _ _ Hm) as (_ & Hn & _).
  destruct (mountRules_files _ _ _ _ _ _ _ _ _ _ _ Hm Hout) as [Hfiles _].
  cbn [orb] in Hn. destruct needed.
  - unfold createTempRuleSet, os_WriteFile in Hres.
    destruct (Marshal_tempRuleSet h) as [yamlData|e]; [|discriminate].
    destruct (os_WriteFile_fails os (filepath_Join tempDir "ruleset.yaml"));
      [discriminate|].
    injection Hres as <- <-. cbn [hostFiles]. split.
    + intros i r' Hi Hfile. rewrite lookup_insert_ne.
      * now apply (Hfiles i r').
      * intros Heq. apply filepath_Join_inj in Heq.
        now apply (rulesFile_not_ruleset i).
    + intros _. exists yamlData. split; [reflexivity|apply lookup_insert_eq].
  - injection Hres as <- <-. cbn [hostFiles]. split.
    + intros i r' Hi Hfile. now apply (Hfiles i r').
    + intros Hf. congruence.
Qed.

Lemma rules_files_on_success_witness :
  (<[ "/tmp/analyze-rules-0/ruleset.yaml" := "name: ruleset" ]>
     (<[ "/tmp/analyze-rules-0/rules1.yaml" := "- ruleID: custom-01" ]> rulesFiles))
    !! filepath_Join "/tmp/analyze-rules-0" (rulesFile 2)
  = None.
Proof.
  destruct (rules_files_on_success rulesOS sampleHost "/opt/rulesets/input"
              (rulesCommand ["/work/rules"; "/work/custom.yaml"; "/work/secret.yaml"])
              {| hostFiles := rulesFiles; tempDirs := [] |}
              {| hostFiles :=
                   <[ "/tmp/analyze-rules-0/ruleset.yaml" := "name: ruleset" ]>
                     (<[ "/tmp/analyze-rules-0/rules1.yaml" := "- ruleID: custom-01" ]>
                        rulesFiles);
                 tempDirs := ["/tmp/analyze-rules-0"] |}
              {[ "/work/rules" := "/opt/rulesets/input/rules";
                 "/tmp/analyze-rules-0" := "/opt/rulesets/input/analyze-rules-0" ]}
              "/tmp/analyze-rules-0")
    as [Hfiles _].
  - vm_compute. reflexivity.
  - reflexivity.
  - intros r Hr. cbn [rules rulesCommand] in Hr.
    repeat (apply elem_of_cons in Hr as [->|Hr]; [vm_compute; reflexivity|]).
    now apply elem_of_nil in Hr.
  - cbn [hostFiles] in Hfiles.
    rewrite (Hfiles 2 "/work/secret.yaml"); [|reflexivity|vm_compute; reflexivity].
    vm_compute. reflexivity.
Defined.

(** ** The volumes and arguments of [RunAnalysis] *)

Lemma getRulesVolumes_lookup (os : OS) (h : Host) (RulesMountPath : string)
    (a : analyzeCommand) (st st' : hostState) (vols : volumes) (k : string) :
  getRulesVolumes os h RulesMountPath a st = (st', inl vols) ->
  (forall pattern dirs dir, os_MkdirTemp h pattern dirs = inl dir -> dir <> k) ->
  vols !! k = if bool_decide (k ∈ rules a) && statIsDir os k
              then Some (rulesMount h RulesMountPath k) else None.
Proof.
  unfold getRulesVolumes. intros Hres Hfresh. destruct (rules a) as [|r rs].
  - injection Hres as <- <-. rewrite lookup_empty.
    now rewrite bool_decide_eq_false_2 by apply not_elem_of_nil.
  - destruct (os_MkdirTemp h "analyze-rules-" (tempDirs st)) as [tempDir|e] eqn:Hmk;
      [|discriminate].
    destruct (mountRules os h RulesMountPath tempDir (r :: rs) 0 (hostFiles st) ∅ false)
      as [fs [[vols' needed]|e]] eqn:Hm; [|discriminate].
    destruct (mountRules_volumes _ _ _ _ _ _ _ _ _ _ _ _ Hm) as (_ & _ & Hv).
    assert (Hk : vols !! k = vols' !! k).
    { destruct needed.
      - destruct (createTempRuleSet os h fs (filepath_Join tempDir "ruleset.yaml"))
          as [fs' [e|]]; [discriminate|].
        injection Hres as <- <-. apply lookup_insert_ne. now apply (Hfresh _ _ _ Hmk).
      - now injection Hres as <- <-. }
    now rewrite Hk, Hv, lookup_empty.
Qed.

(** Where the application is mounted. Every container of [RunAnalysis]
    gets the same volumes. In them the input path is mounted at
    [SourceMountPath] only when it is neither the output path nor a
    rules directory of the command line: as the output path it is
    mounted at [OutputPath], as a rules directory below
    [RulesMountPath], and the providers then find no source where they
    look for it. The temporary directories are taken to be new. *)
Theorem input_volume (os : OS) (h : Host) (rt : Runtime) (s : Settings)
    (lbl : outputv1) (a : analyzeCommand) (f : containerFields) (st : hostState)
    (opts : list containerOption) (vols : volumes) :
  (forall pattern dirs dir, os_MkdirTemp h pattern dirs = inl dir -> dir <> input a) ->
  opts ∈ ranWith (RunAnalysis os h rt s lbl a f st) ->
  vols ∈ volumesOf opts ->
  vols !! input a
  = (if bool_decide (input a ∈ rules a) && statIsDir os (input a)
     then Some (rulesMount h (RulesMountPath s) (input a))
     else if decide (input a = output a) then Some (OutputPath s)
     else Some (SourceMountPath f))
  /\ forall opts' vols',
       opts' ∈ ranWith (RunAnalysis os h rt s lbl a f st) ->
       vols' ∈ volumesOf opts' -> vols' = vols.
Proof.
  intros Hfresh Hopts Hvols. unfold RunAnalysis in *.
  destruct (getConfigVolumes os h rt s a f st) as [st1 [configVols|e]] eqn:Hconf;
    [|now apply elem_of_nil in Hopts].
  destruct (if nonempty (rules a)
            then getRulesVolumes os h (RulesMountPath s) a st1
            else (st1, inl ∅)) as [st2 [ruleVols|e]] eqn:Hrules;
    [|now apply elem_of_nil in Hopts].
  set (all := maps_Copy (maps_Copy (baseVolumes s a f) configVols) ruleVols) in *.
  assert (Hall : forall o v,
            o ∈ [analyzerRun s lbl a f all; dependencyRun s a all] ->
            v ∈ volumesOf o -> v = all).
  { intros o v Ho Hv.
    apply elem_of_cons in Ho as [->|Ho];
      [|apply list_elem_of_singleton in Ho; subst o];
      cbn in Hv; now apply list_elem_of_singleton in Hv. }
  assert (Hsub : forall o,
            o ∈ ranWith
                  (match os_Create os (hostFiles st2)
                           (filepath_Join (output a) "analysis.log") with
                   | inr _ =>
                       {| host := st2; containers := [];
                          returned := Some ("failed creating analysis log file at "
                                            +:+ filepath_Join (output a) "analysis.log") |}
                   | inl fs3 =>
                     match os_Create os fs3 (filepath_Join (output a) "dependency.log") with
                     | inr _ =>
                         {| host := {| hostFiles := fs3; tempDirs := tempDirs st2 |};
                            containers := [];
                            returned :=
                              Some ("failed creating dependency analysis log file "
                                    +:+ filepath_Join (output a) "dependency.log") |}
                     | inl fs4 =>
                       match container_Run rt (analyzerRun s lbl a f all) fs4 with
                       | (fs5, Some err) =>
                           {| host := {| hostFiles := fs5; tempDirs := tempDirs st2 |};
                              containers := [Ran (analyzerRun s lbl a f all)];
                              returned := Some err |}
                       | (fs5, None) =>
                         match container_Run rt (dependencyRun s a all) fs5 with
                         | (fs6, err) =>
                             {| host := {| hostFiles := fs6; tempDirs := tempDirs st2 |};
                                containers := [Ran (analyzerRun s lbl a f all);
                                               Ran (dependencyRun s a all)];
                                returned := err |}
                         end
                       end
                     end
                   end) ->
            o ∈ [analyzerRun s lbl a f all; dependencyRun s a all]).
  { intros o Ho.
    destruct (os_Create os (hostFiles st2) _) as [fs3|e];
      [|now apply elem_of_nil in Ho].
    destruct (os_Create os fs3 _) as [fs4|e]; [|now apply elem_of_nil in Ho].
    destruct (container_Run rt (analyzerRun s lbl a f all) fs4) as [fs5 [e|]].
    - cbn in Ho. apply list_elem_of_singleton in Ho. subst o. now left.
    - destruct (container_Run rt (dependencyRun s a all) fs5) as [fs6 e].
      exact Ho. }
  assert (Hv : vols = all) by (apply (Hall opts); [now apply Hsub|exact Hvols]).
  split.
  - subst vols. unfold all, maps_Copy, baseVolumes.
    assert (Hr : ruleVols !! input a
                 = if bool_decide (input a ∈ rules a) && statIsDir os (input a)
                   then Some (rulesMount h (RulesMountPath s) (input a)) else None).
    { destruct (rules a) as [|r rs] eqn:Hrs; cbn [nonempty] in Hrules.
      - injection Hrules as <- <-. rewrite lookup_empty.
        now rewrite bool_decide_eq_false_2 by apply not_elem_of_nil.
      - rewrite <- Hrs in *.
        now apply (getRulesVolumes_lookup _ _ _ _ _ _ _ _ Hrules). }
    assert (Hc : configVols !! input a = None).
    { unfold getConfigVolumes in Hconf.
      destruct (os_MkdirTemp h "analyze-config-" (tempDirs st)) as [tempDir|e] eqn:Hmk;
        [|discriminate].
      destruct (MarshalIndent_configs rt _); [|discriminate].
      destruct (os_WriteFile os _ _ _); [|discriminate].
      injection Hconf as <- <-. apply lookup_singleton_ne.
      now apply (Hfresh _ _ _ Hmk). }
    destruct (bool_decide (input a ∈ rules a) && statIsDir os (input a)).
    + now apply lookup_union_Some_l.
    + rewrite lookup_union_r by exact Hr. rewrite lookup_union_r by exact Hc.
      destruct (decide (input a = output a)) as [Heq|Hne].
      * rewrite Heq. apply lookup_insert_eq.
      * rewrite lookup_insert_ne by congruence. apply lookup_singleton_eq.
  - intros opts' vols' Ho' Hv'. rewrite Hv. apply (Hall opts'); [now apply Hsub|exact Hv'].
Qed.
Lemma input_volume_witness :
  (maps_Copy
     (maps_Copy (baseVolumes sampleSettings (rulesCommand ["/work/app"]) sampleFields)
        {[ "/tmp/analyze-config-0" := "/opt/input/config" ]})
     {[ "/work/app" := "/opt/rulesets/input/app" ]}) !! "/work/app"
  = Some "/opt/rulesets/input/app".
Proof.
  destruct (input_volume rulesOS sampleHost sampleRuntime sampleSettings spec_labels
              (rulesCommand ["/work/app"]) sampleFields
              {| hostFiles := rulesFiles; tempDirs := [] |}
              (analyzerRun sampleSettings spec_labels (rulesCommand ["/work/app"])
                 sampleFields
                 (maps_Copy
                    (maps_Copy
                       (baseVolumes sampleSettings (rulesCommand ["/work/app"])
                          sampleFields)
                       {[ "/tmp/analyze-config-0" := "/opt/input/config" ]})
                    {[ "/work/app" := "/opt/rulesets/input/app" ]}))
              (maps_Copy
                 (maps_Copy
                    (baseVolumes sampleSettings (rulesCommand ["/work/app"])
                       sampleFields)
                    {[ "/tmp/analyze-config-0" := "/opt/input/config" ]})
                 {[ "/work/app" := "/opt/rulesets/input/app" ]}))
    as [Hin _].
  - intros pattern dirs dir [= <-]. cbn [input rulesCommand]. discriminate.
  - vm_compute. left.
  - vm_compute. left.
  - etransitivity; [exact Hin|]. vm_compute. reflexivity.
Defined.
Lemma isOption_intro (name value : string) : isOption name (name +:+ "=" +:+ value).
Proof.
  unfold isOption. rewrite <- string_app_assoc, dropPrefix_app. discriminate.
Qed.

(** The options of the analyzer that depend on the command line. It gets
    a [--label-selector] exactly when a source or a target is given, and
    then one only, carrying the expression of [getLabelSelector]; it gets
    a [--dep-label-selector] exactly when the known libraries are not to
    be analyzed. *)
Theorem analyzer_arguments (s : Settings) (lbl : outputv1) (a : analyzeCommand)
    (f : containerFields) :
  (forall arg, arg ∈ analysisArgs s lbl a f -> isOption "--label-selector" arg ->
     arg = "--label-selector=" +:+ getLabelSelector lbl a)
  /\ ((exists arg, arg ∈ analysisArgs s lbl a f /\ isOption "--label-selector" arg)
      <-> sources a <> [] \/ targets a <> [])
  /\ ((exists arg, arg ∈ analysisArgs s lbl a f /\ isOption "--dep-label-selector" arg)
      <-> analyzeKnownLibraries f = false)
  /\ length (filter (isOption "--label-selector") (analysisArgs s lbl a f)) <= 1.
Proof.
  assert (Hsel : nonblank (getLabelSelector lbl a) = true
                 <-> sources a <> [] \/ targets a <> []).
  { unfold getLabelSelector.
    destruct (sources a) as [|x xs], (targets a) as [|t ts];
      (split;
       [intros H; first [discriminate H|left; discriminate|right; discriminate]
       |intros [H|H]; first [congruence|reflexivity]]). }
  assert (Hfixed : forall arg,
            arg ∈ ["--provider-settings=" +:+ ProviderSettingsMountPath s;
                   "--rules=" +:+ RulesetPath s +:+ "/";
                   "--output-file=" +:+ AnalysisOutputMountPath s] ->
            ~ isOption "--label-selector" arg /\ ~ isOption "--dep-label-selector" arg).
  { intros arg Harg.
    repeat (apply elem_of_cons in Harg as [->|Harg]; [split; intros H; now cbv in H|]).
    now apply elem_of_nil in Harg. }
  assert (Hdep : ~ isOption "--label-selector"
                     ("--dep-label-selector=(!" +:+ DepSourceLabel s +:+ "=open-source)"))
    by (intros H; now cbv in H).
  assert (Hlab : forall v, ~ isOption "--dep-label-selector" ("--label-selector=" +:+ v))
    by (intros v H; now cbv in H).
  unfold analysisArgs. repeat split.
  - intros arg Harg Hopt.
    apply elem_of_app in Harg as [Harg|Harg]; [now apply Hfixed in Harg|].
    apply elem_of_app in Harg as [Harg|Harg].
    + destruct (analyzeKnownLibraries f); cbn in Harg;
        [now apply elem_of_nil in Harg|].
      apply list_elem_of_singleton in Harg. now subst arg.
    + destruct (nonblank (getLabelSelector lbl a)); [|now apply elem_of_nil in Harg].
      now apply list_elem_of_singleton in Harg.
  - intros (arg & Harg & Hopt). apply Hsel.
    apply elem_of_app in Harg as [Harg|Harg]; [now apply Hfixed in Harg|].
    apply elem_of_app in Harg as [Harg|Harg].
    + destruct (analyzeKnownLibraries f); cbn in Harg;
        [now apply elem_of_nil in Harg|].
      apply list_elem_of_singleton in Harg. now subst arg.
    + destruct (nonblank (getLabelSelector lbl a)); [reflexivity|].
      now apply elem_of_nil in Harg.
  - intros Hgiven. apply Hsel in Hgiven. rewrite Hgiven.
    exists ("--label-selector=" +:+ getLabelSelector lbl a).
    split; [|apply (isOption_intro "--label-selector")].
    rewrite !elem_of_app. right. right. now left.
  - intros (arg & Harg & Hopt).
    apply elem_of_app in Harg as [Harg|Harg]; [now apply Hfixed in Harg|].
    apply elem_of_app in Harg as [Harg|Harg].
    + destruct (analyzeKnownLibraries f); [now apply elem_of_nil in Harg|reflexivity].
    + destruct (nonblank (getLabelSelector lbl a)); [|now apply elem_of_nil in Harg].
      apply list_elem_of_singleton in Harg. subst arg. now apply Hlab in Hopt.
  - intros ->. cbn [negb].
    exists ("--dep-label-selector=(!" +:+ DepSourceLabel s +:+ "=open-source)").
    split; [|apply (isOption_intro "--dep-label-selector")].
    rewrite !elem_of_app. right. left. now left.
  - rewrite !filter_app.
    assert (H0 : filter (isOption "--label-selector")
                   ["--provider-settings=" +:+ ProviderSettingsMountPath s;
                    "--rules=" +:+ RulesetPath s +:+ "/";
                    "--output-file=" +:+ AnalysisOutputMountPath s] = []).
    { repeat (rewrite filter_cons, decide_False by (intros H; now cbv in H)).
      reflexivity. }
    rewrite H0. cbn [app]. rewrite !length_app.
    assert (H1 : length (filter (isOption "--label-selector")
                   (if negb (analyzeKnownLibraries f)
                    then ["--dep-label-selector=(!" +:+ DepSourceLabel s
                          +:+ "=open-source)"]
                    else [])) = 0).
    { destruct (analyzeKnownLibraries f); [reflexivity|]. cbn [negb].
      rewrite filter_cons, decide_False by exact Hdep. reflexivity. }
    rewrite H1. destruct (nonblank (getLabelSelector lbl a)); [|cbn; lia].
    rewrite filter_cons. destruct (decide _); cbn; lia.
Qed.
(** ** [Validate] *)

Lemma validateMode_spec (os : OS) (a : analyzeCommand) (f : containerFields)
    (made : list string) :
  madeDirs (validateMode os a f made) = made
  /\ fields (validateMode os a f made) = f
  /\ (result_err (validateMode os a f made) = None ->
      validMode (mode a)
      /\ command (validateMode os a f made)
         = withInput (withOutput a (absOr os (output a))) (absOr os (input a)))
  /\ (result_err (validateMode os a f made) <> None ->
      ~ validMode (mode a) /\ command (validateMode os a f made) = a).
Proof.
  unfold validateMode, validMode.
  destruct (bool_decide (mode a = provider.FullAnalysisMode)) eqn:Hf;
    destruct (bool_decide (mode a = provider.SourceOnlyAnalysisMode)) eqn:Hs;
    cbn [negb andb];
    try apply bool_decide_eq_true in Hf; try apply bool_decide_eq_true in Hs;
    try apply bool_decide_eq_false in Hf; try apply bool_decide_eq_false in Hs.
  4: { split; [reflexivity|]; split; [reflexivity|]; split;
         [intros H; discriminate H|].
       intros _. split; [tauto|reflexivity]. }
  all: split; [reflexivity|]; split; [reflexivity|]; split; [|now intros H].
  all: intros _; split; [now auto|].
  all: unfold absOr; destruct a as [sk so ta i o m r]; cbn.
  all: destruct (filepath_Abs os o); cbn; destruct (filepath_Abs os i); reflexivity.
Qed.

(** A validation that returns nil, the command not being one that lists
    labels. The mode is one of the two analysis modes; the output path is
    a directory, or did not exist and has been made; the input path
    exists. Both paths are replaced by their absolute form where there
    is one. An input that is not a directory is marked as a file and
    [SourceMountPath] is extended by its base name; for a directory
    neither changes. The other fields stay. *)
Theorem Validate_nil (os : OS) (h : Host) (a : analyzeCommand) (f : containerFields) :
  listSources f || listTargets f = false ->
  result_err (Validate os h a f) = None ->
  validMode (mode a)
  /\ (os_Stat os (output a) = Some {| IsDir := true |}
        /\ madeDirs (Validate os h a f) = []
      \/ os_Stat os (output a) = None
        /\ os_Stat_IsNotExist h (output a) = true
        /\ madeDirs (Validate os h a f) = [output a])
  /\ (inputStat os h a = Some {| IsDir := true |}
        /\ fields (Validate os h a f) = f
        /\ command (Validate os h a f)
           = withInput (withOutput a (absOr os (output a))) (absOr os (input a))
      \/ exists absPath,
           inputStat os h a = Some {| IsDir := false |}
        /\ filepath_Abs os (input a) = Some absPath
        /\ fields (Validate os h a f)
           = asFileInput f (filepath_Clean h (SourceMountPath f +:+ "/"
                                              +:+ filepath_Base h absPath))
        /\ command (Validate os h a f)
           = withInput (withOutput a (absOr os (output a))) (absOr os absPath)).
Proof.
  intros Hlist. unfold Validate, inputStat. rewrite Hlist.
  assert (Hin : forall made,
    result_err (validateInput os h a f made) = None ->
    validMode (mode a)
    /\ madeDirs (validateInput os h a f made) = made
    /\ ((match made with
         | dir :: _ => os_Stat_after_MkdirAll h dir (input a)
         | [] => os_Stat os (input a)
         end = Some {| IsDir := true |}
         /\ fields (validateInput os h a f made) = f
         /\ command (validateInput os h a f made)
            = withInput (withOutput a (absOr os (output a))) (absOr os (input a)))
        \/ exists absPath,
             match made with
             | dir :: _ => os_Stat_after_MkdirAll h dir (input a)
             | [] => os_Stat os (input a)
             end = Some {| IsDir := false |}
          /\ filepath_Abs os (input a) = Some absPath
          /\ fields (validateInput os h a f made)
             = asFileInput f (filepath_Clean h (SourceMountPath f +:+ "/"
                                                +:+ filepath_Base h absPath))
          /\ command (validateInput os h a f made)
             = withInput (withOutput a (absOr os (output a))) (absOr os absPath))).
  { intros made. unfold validateInput.
    destruct (match made with
              | dir :: _ => os_Stat_after_MkdirAll h dir (input a)
              | [] => os_Stat os (input a)
              end) as [[[|]]|]; cbn [negb IsDir]; [| |discriminate].
    - intros Hnil.
      destruct (validateMode_spec os a f made) as (Hm & Hf & Hok & _).
      destruct (Hok Hnil) as [Hv Hc]. split; [exact Hv|]. split; [exact Hm|].
      left. now repeat split.
    - destruct (filepath_Abs os (input a)) as [absPath|] eqn:Habs; [|discriminate].
      intros Hnil.
      destruct (validateMode_spec os (withInput a absPath)
                  (asFileInput f (filepath_Clean h (SourceMountPath f +:+ "/"
                                                    +:+ filepath_Base h absPath)))
                  made) as (Hm & Hf & Hok & _).
      destruct (Hok Hnil) as [Hv Hc]. split; [exact Hv|]. split; [exact Hm|].
      right. exists absPath. repeat split; [exact Hf|]. rewrite Hc.
      now destruct a. }
  destruct (os_Stat os (output a)) as [[[|]]|] eqn:Hout; cbn [negb IsDir].
  - intros Hnil. destruct (Hin [] Hnil) as (Hv & Hm & Hcases).
    split; [exact Hv|]. split; [now left|exact Hcases].
  - discriminate.
  - destruct (os_Stat_IsNotExist h (output a)); [|discriminate].
    destruct (os_MkdirAll_fails h (output a)); [discriminate|].
    intros Hnil. destruct (Hin [output a] Hnil) as (Hv & Hm & Hcases).
    split; [exact Hv|]. split; [now right|exact Hcases].
Qed.

Lemma Validate_nil_witness :
  madeDirs (Validate rulesOS sampleHost (rulesCommand []) sampleFields)
  = ["/work/out"].
Proof.
  destruct (Validate_nil rulesOS sampleHost (rulesCommand []) sampleFields)
    as (_ & [[Hstat _]|(_ & _ & Hmade)] & _);
    [reflexivity|vm_compute; reflexivity|vm_compute in Hstat; discriminate Hstat
    |exact Hmade].
Defined.

(** A validation that fails may have had its effects before. When the
    output directory does not exist and the input is a file, a mode that
    is none of the two is reported only after the output directory has
    been made, the input replaced by its absolute path, and
    [SourceMountPath] extended. *)
Theorem Validate_rejects_mode_last (os : OS) (h : Host) (a : analyzeCommand)
    (f : containerFields) (absPath : string) :
  listSources f || listTargets f = false ->
  os_Stat os (output a) = None ->
  os_Stat_IsNotExist h (output a) = true ->
  os_MkdirAll_fails h (output a) = None ->
  os_Stat_after_MkdirAll h (output a) (input a) = Some {| IsDir := false |} ->
  filepath_Abs os (input a) = Some absPath ->
  ~ validMode (mode a) ->
  result_err (Validate os h a f) = Some "mode must be one of 'full' or 'source-only'"
  /\ madeDirs (Validate os h a f) = [output a]
  /\ input (command (Validate os h a f)) = absPath
  /\ isFileInput (fields (Validate os h a f)) = true
  /\ SourceMountPath (fields (Validate os h a f))
     = filepath_Clean h (SourceMountPath f +:+ "/" +:+ filepath_Base h absPath).
Proof.
  intros Hlist Hout Hne Hmk Hin Habs Hmode.
  unfold Validate, validateInput. rewrite Hlist, Hout, Hne, Hmk, Hin, Habs. cbn [negb IsDir].
  destruct (validateMode_spec os (withInput a absPath)
              (asFileInput f (filepath_Clean h (SourceMountPath f +:+ "/"
                                                +:+ filepath_Base h absPath)))
              [output a]) as (Hm & Hf & Hok & Hbad).
  destruct (result_err (validateMode os _ _ _)) as [e|] eqn:He.
  - destruct Hbad as [_ Hc]; [discriminate|]. rewrite Hm, Hf, Hc. cbn.
    repeat split. unfold validateMode in He.
    destruct (negb _ && negb _); [now injection He as <-|discriminate He].
  - destruct Hok as [Hv _]; [reflexivity|]. now destruct Hmode.
Qed.

Lemma Validate_rejects_mode_last_witness :
  madeDirs (Validate rulesOS sampleHost
              {| skipStaticReport := false; sources := []; targets := [];
                 input := "custom.yaml"; output := "/work/out"; mode := "fast";
                 rules := [] |} sampleFields) = ["/work/out"]
  /\ input (command (Validate rulesOS sampleHost
              {| skipStaticReport := false; sources := []; targets := [];
                 input := "custom.yaml"; output := "/work/out"; mode := "fast";
                 rules := [] |} sampleFields)) = "/work/custom.yaml".
Proof.
  destruct (Validate_rejects_mode_last rulesOS sampleHost
              {| skipStaticReport := false; sources := []; targets := [];
                 input := "custom.yaml"; output := "/work/out"; mode := "fast";
                 rules := [] |} sampleFields "/work/custom.yaml")
    as (_ & Hmade & Hin & _);
    [reflexivity|vm_compute; reflexivity|reflexivity|reflexivity
    |vm_compute; reflexivity|vm_compute; reflexivity
    |intros [H|H]; discriminate H|].
  split; [exact Hmade|exact Hin].
Defined.
(** ** [ListLabels] and [GenerateStaticReport] *)

(** Outside the container [ListLabels] prints nothing itself: it mounts
    the rules of the command line and runs the command again in a
    container, at most once, with [RUN_MODE] set so that the command
    there takes the other branch, and with the flag that makes it list
    the label asked for here: the sources when they are asked for, the
    targets otherwise. When the rules cannot be mounted no container is
    run and the error is returned. *)
Theorem ListLabels_delegates (os : OS) (w : Walker) (h : Host) (rt : Runtime)
    (s : Settings) (lbl : outputv1) (a : analyzeCommand) (f : containerFields)
    (RUN_MODE : string) (st : hostState) :
  RUN_MODE <> "container" ->
  listSources f || listTargets f = true ->
  exists r,
    ListLabels os w h rt s lbl a f RUN_MODE st = Done r
    /\ printed r = []
    /\ tempDirs (host (listing r))
       = tempDirs (getRulesVolumes os h (RulesMountPath s) a st).1
    /\ match (getRulesVolumes os h (RulesMountPath s) a st).2 with
       | inr err => containers (listing r) = [] /\ returned (listing r) = Some err
       | inl vols =>
           exists args,
             containers (listing r)
             = [Ran [WithEnv "RUN_MODE" "container"; WithVolumes vols;
                     WithEntrypointBin "/usr/local/bin/kantra";
                     WithEntrypointArgs args]]
             /\ listedLabel lbl (flagsOf args) = listedLabel lbl f
             /\ forall os' w' a' st',
                  ListLabels os' w' h rt s lbl a' (flagsOf args) "container" st'
                  = ListLabels os' w' h rt s lbl a f "container" st'
                  /\ Validate os' h a' (flagsOf args)
                     = {| command := a'; fields := flagsOf args; madeDirs := [];
                          result_err := None |}
       end.
Proof.
  intros Hmode Hflags. unfold ListLabels, listedLabel, listLabelsRun.
  rewrite decide_False by exact Hmode.
  destruct (getRulesVolumes os h (RulesMountPath s) a st) as [st1 [vols|e]];
    cbn [fst snd].
  - destruct (container_Run rt _ (hostFiles st1)) as [fs err].
    eexists. split; [reflexivity|]. cbn [printed listing host containers tempDirs].
    split; [reflexivity|]. split; [reflexivity|].
    eexists. split; [reflexivity|].
    destruct (listSources f) eqn:Hs; cbn [orb] in Hflags; rewrite ?Hflags.
    + split; [reflexivity|]. intros os' w' a' st'. split; reflexivity.
    + split; [reflexivity|]. intros os' w' a' st'. split; reflexivity.
  - eexists. split; [reflexivity|]. cbn. now repeat split.
Qed.

Lemma ListLabels_delegates_witness :
  exists r,
    ListLabels rulesOS sampleWalker sampleHost sampleRuntime sampleSettings
      spec_labels (rulesCommand ["/work/rules"])
      {| listSources := false; listTargets := true; analyzeKnownLibraries := false;
         isFileInput := false; SourceMountPath := "/opt/input/source" |}
      "" {| hostFiles := rulesFiles; tempDirs := [] |} = Done r
    /\ printed r = [].
Proof.
  destruct (ListLabels_delegates rulesOS sampleWalker sampleHost sampleRuntime
              sampleSettings spec_labels (rulesCommand ["/work/rules"])
              {| listSources := false; listTargets := true;
                 analyzeKnownLibraries := false; isFileInput := false;
                 SourceMountPath := "/opt/input/source" |}
              "" {| hostFiles := rulesFiles; tempDirs := [] |})
    as (r & Hr & Hp & _); [discriminate|reflexivity|].
  exists r. split; [exact Hr|exact Hp].
Defined.

(** The container of the static report is run with its clean-up turned
    off, so that the report can be copied out of it, and the command
    removes it itself: [container.Rm] is called exactly when both the run
    and the copy returned nil, as the last call, and what it returns is
    the result of the command. When the run or the copy fails the
    command returns that error without calling [container.Rm], so that
    the container stays. A nil result means that the container was run
    and copied from and that [container.Rm] returned nil. With
    [skipStaticReport] nothing is run. *)
Theorem static_report_container (h : Host) (rt : Runtime) (s : Settings)
    (a : analyzeCommand) (f : containerFields) (st : hostState) :
  (skipStaticReport a = true ->
   GenerateStaticReport h rt s a f st
   = {| host := st; containers := []; returned := None |})
  /\ (skipStaticReport a = false ->
      exists opts,
        WithCleanup false ∈ opts
        /\ head (containers (GenerateStaticReport h rt s a f st)) = Some (Ran opts)
        /\ (forall e, e ∈ containers (GenerateStaticReport h rt s a f st) ->
              e = Ran opts
              \/ e = Copied opts "/usr/local/static-report" (output a)
              \/ e = Rm opts)
        /\ (Rm opts ∈ containers (GenerateStaticReport h rt s a f st)
            <-> (container_Run rt opts (hostFiles st)).2 = None
                /\ (container_Cp rt opts "/usr/local/static-report" (output a)
                      (container_Run rt opts (hostFiles st)).1).2 = None)
        /\ (Rm opts ∈ containers (GenerateStaticReport h rt s a f st) ->
            last (containers (GenerateStaticReport h rt s a f st)) = Some (Rm opts)
            /\ returned (GenerateStaticReport h rt s a f st) = container_Rm rt opts)
        /\ (Rm opts ∉ containers (GenerateStaticReport h rt s a f st) ->
            returned (GenerateStaticReport h rt s a f st) <> None)
        /\ (returned (GenerateStaticReport h rt s a f st) = None ->
            Rm opts ∈ containers (GenerateStaticReport h rt s a f st)
            /\ container_Rm rt opts = None)).
Proof.
  unfold GenerateStaticReport. split; intros ->; [reflexivity|].
  exists (staticReportRun rt s a h f). split.
  { unfold staticReportRun. rewrite !elem_of_cons. auto. }
  destruct (container_Run rt (staticReportRun rt s a h f) (hostFiles st))
    as [fs1 [e|]]; cbn [fst snd].
  - cbn [containers returned head]. split; [reflexivity|].
    assert (Hno : Rm (staticReportRun rt s a h f)
                  ∉ [Ran (staticReportRun rt s a h f)]).
    { intros Hr. apply list_elem_of_singleton in Hr. discriminate Hr. }
    split.
    { intros ev Hev. apply list_elem_of_singleton in Hev. now left. }
    split; [split; [intros Hr; now destruct (Hno Hr)|now intros [Hn _]]|].
    split; [intros Hr; now destruct (Hno Hr)|].
    split; [discriminate|discriminate].
  - destruct (container_Cp rt (staticReportRun rt s a h f)
                "/usr/local/static-report" (output a) fs1) as [fs2 [e|]];
      cbn [fst snd containers returned head].
    + split; [reflexivity|].
      assert (Hno : Rm (staticReportRun rt s a h f)
                    ∉ [Ran (staticReportRun rt s a h f);
                       Copied (staticReportRun rt s a h f)
                         "/usr/local/static-report" (output a)]).
      { intros Hr. rewrite !elem_of_cons in Hr.
        destruct Hr as [Hr|[Hr|Hr]]; try discriminate Hr.
        now apply elem_of_nil in Hr. }
      split.
      { intros ev Hev. rewrite !elem_of_cons in Hev.
        destruct Hev as [->|[->|Hev]]; auto. now apply elem_of_nil in Hev. }
      split; [split; [intros Hr; now destruct (Hno Hr)|now intros [_ Hn]]|].
      split; [intros Hr; now destruct (Hno Hr)|].
      split; [discriminate|discriminate].
    + split; [reflexivity|].
      assert (Hyes : Rm (staticReportRun rt s a h f)
                     ∈ [Ran (staticReportRun rt s a h f);
                        Copied (staticReportRun rt s a h f)
                          "/usr/local/static-report" (output a);
                        Rm (staticReportRun rt s a h f)])
        by (rewrite !elem_of_cons; auto).
      split.
      { intros ev Hev. rewrite !elem_of_cons in Hev.
        destruct Hev as [->|[->|[->|Hev]]]; auto. now apply elem_of_nil in Hev. }
      split; [split; [now intros _|intros _; exact Hyes]|].
      split; [intros _; split; reflexivity|].
      split; [intros Hn; now destruct (Hn Hyes)|].
      intros Hr. split; [exact Hyes|exact Hr].
Qed.

(** ** The provider set-up without containers *)

Lemma visitConfig_builtinConfigOf (os : OS) (a : analyzeCommand) (b : binFields) :
  visitConfig os mergeStart (withProxy b (builtinConfigOf a))
  = if nonblank (input a) && statIsDir os (input a)
    then {| seenBuiltinConfigs := {[ builtinLocationOf os (input a) := true ]};
            defaultBuiltinConfigs :=
              [ {| provider.Location := builtinLocationOf os (input a);
                   provider.AnalysisMode := "";
                   provider.ProviderSpecificConfig := None |} ];
            finalConfigs := [] |}
    else mergeStart.
Proof.
  unfold visitConfig. cbn. rewrite decide_False by (intros H; now apply H).
  unfold visitInitConf. cbn. rewrite lookup_empty.
  destruct (nonblank (input a)); [|reflexivity].
  destruct (statIsDir os (input a)); reflexivity.
Qed.

Lemma visitConfig_javaConfigOf (os : OS) (s : Settings) (c : binConstants)
    (a : analyzeCommand) (b : binFields) (st : mergeState) :
  javaProvider c <> "builtin" ->
  visitConfig os st (withProxy b (javaConfigOf s c a b))
  = visitInitConf os (javaProvider c)
      {| seenBuiltinConfigs := seenBuiltinConfigs st;
         defaultBuiltinConfigs := defaultBuiltinConfigs st;
         finalConfigs := finalConfigs st ++ [withProxy b (javaConfigOf s c a b)] |}
      {| provider.Location := input a;
         provider.AnalysisMode := mode a;
         provider.ProviderSpecificConfig :=
           provider.ProviderSpecificConfig
             (default {| provider.Location := ""; provider.AnalysisMode := "";
                         provider.ProviderSpecificConfig := None |}
                (head (provider.InitConfigs (javaConfigOf s c a b)))) |}.
Proof.
  intros Hj. unfold visitConfig. cbn [provider.Name withProxy javaConfigOf].
  rewrite decide_True by exact Hj. reflexivity.
Qed.

Lemma merged_provConfig (os : OS) (s : Settings) (c : binConstants)
    (a : analyzeCommand) (b : binFields) :
  javaProvider c <> "builtin" ->
  setConfigsContainerless os (provConfigOf s c a b)
  = [ javaProviderConfig s c a b;
      builtinConfig
        (replicate (builtinEntries os a)
           {| provider.Location := builtinLocationOf os (input a);
              provider.AnalysisMode := "";
              provider.ProviderSpecificConfig := None |}) ].
Proof.
  intros Hj. unfold setConfigsContainerless, provConfigOf, builtinEntries,
    javaProviderConfig.
  cbn [map fold_left].
  rewrite visitConfig_builtinConfigOf, (visitConfig_javaConfigOf os s c a b _ Hj).
  unfold visitInitConf. cbn [provider.Location provider.ProviderSpecificConfig].
  destruct (nonblank (input a)) eqn:Hnb; cbn [andb].
  2: { cbn. rewrite lookup_empty. reflexivity. }
  destruct (statIsDir os (input a)) eqn:Hd.
  2: { cbn. rewrite lookup_empty. reflexivity. }
  cbn [seenBuiltinConfigs defaultBuiltinConfigs finalConfigs].
  destruct (decide (builtinLocationOf os (input a) = input a)) as [Heq|Hne].
  - assert (Hl : forall l : string, l = input a ->
                   ({[ l := true ]} : gmap string bool) !! input a = Some true)
      by (intros l ->; apply lookup_singleton_eq).
    rewrite (Hl _ Heq). reflexivity.
  - rewrite lookup_singleton_ne by exact Hne.
    rewrite decide_False by exact Hj. reflexivity.
Qed.

Lemma map_replicate {A B : Type} (g : A -> B) (n : nat) (x : A) :
  map g (replicate n x) = replicate n (g x).
Proof. induction n as [|n IH]; [reflexivity|]. cbn. now rewrite IH. Qed.

Lemma withCommandMode_builtin (os : OS) (a : analyzeCommand) (b : binFields) :
  withCommandMode a b
    (builtinConfig
       (replicate (builtinEntries os a)
          {| provider.Location := builtinLocationOf os (input a);
             provider.AnalysisMode := "";
             provider.ProviderSpecificConfig := None |}))
  = builtinProviderConfig os a b.
Proof.
  unfold withCommandMode, builtinProviderConfig, builtinConfig.
  cbn [provider.Name provider.BinaryPath provider.InitConfigs provider.ConfigProxy].
  f_equal. destruct (mode a) as [|ch m] eqn:Hm; cbn [nonblank]; [reflexivity|].
  induction (builtinEntries os a) as [|n IH]; [reflexivity|].
  cbn [replicate map]. now rewrite IH.
Qed.

Lemma withCommandMode_java (s : Settings) (c : binConstants) (a : analyzeCommand)
    (b : binFields) :
  withCommandMode a b (javaProviderConfig s c a b) = javaProviderConfig s c a b.
Proof.
  unfold withCommandMode, javaProviderConfig, withProxy, javaConfigOf.
  cbn [provider.Name provider.BinaryPath provider.InitConfigs provider.ConfigProxy
       provider.ContextLines].
  f_equal. now destruct (nonblank (mode a)).
Qed.

(** From the command to the providers. When
    [createProviderConfigsContainerless] returns configs, they are the
    java config and one builtin config, and [settings.json] holds the
    list before the merge. [setInternalProviders] then ends the process
    when the builtin provider cannot be made, and otherwise returns
    exactly the java and the builtin provider. The java provider is made
    from the java config with the command's proxy and context lines. The
    builtin provider is made from a config without proxy, whatever the
    command says; its locations are the absolute input path: none when
    the input is not a directory, one when the input is given by its
    absolute path, and the same one twice when it is not. The name of the
    java provider is not [builtin]. *)
Theorem containerless_providers (os : OS) (rt : Runtime) (k : Constructors)
    (s : Settings) (c : binConstants) (a : analyzeCommand) (b : binFields)
    (fs fs' : FS) (configs : list provider.Config) :
  javaProvider c <> "builtin" ->
  createProviderConfigsContainerless os rt s c a b fs = (fs', inl configs) ->
  (exists jsonData,
     MarshalIndent_configs rt (provConfigOf s c a b) = inl jsonData
     /\ fs' = <[ filepath_Join (output a) "settings.json" := jsonData ]> fs)
  /\ map provider.Name configs = [javaProvider c; "builtin"]
  /\ match GetProviderClient k (builtinProviderConfig os a b) with
     | inr _ => setInternalProviders k c a b configs = Exited 1
     | inl prov =>
         setInternalProviders k c a b configs
         = Returned
             (<[ "builtin" := Some prov ]>
                {[ javaProvider c :=
                     Some (NewJavaProvider k (contextLines b)
                             (javaProviderConfig s c a b)) ]},
              input a :: replicate (builtinEntries os a)
                           (builtinLocationOf os (input a)))
     end.
Proof.
  intros Hj. unfold createProviderConfigsContainerless.
  destruct (MarshalIndent_configs rt (provConfigOf s c a b)) as [jsonData|e];
    [|discriminate].
  unfold os_WriteFile.
  destruct (os_WriteFile_fails os (filepath_Join (output a) "settings.json"));
    [discriminate|].
  intros [= <- <-]. split; [now exists jsonData|].
  rewrite (merged_provConfig os s c a b Hj). split; [reflexivity|].
  unfold setInternalProviders. cbn [internalProviders].
  assert (Hn : provider.Name (javaProviderConfig s c a b) = javaProvider c)
    by reflexivity.
  rewrite Hn, decide_True by reflexivity.
  cbn [provider.Name builtinConfig].
  rewrite decide_False by (intros H; now apply Hj).
  rewrite decide_True by reflexivity.
  rewrite withCommandMode_builtin, withCommandMode_java.
  destruct (GetProviderClient k (builtinProviderConfig os a b)) as [prov|e];
    [|reflexivity].
  f_equal. f_equal.
  cbn [app map provider.InitConfigs javaProviderConfig withProxy javaConfigOf
       provider.Location].
  f_equal.
  apply (map_replicate provider.Location (builtinEntries os a)
           {| provider.Location := builtinLocationOf os (input a);
              provider.AnalysisMode := "";
              provider.ProviderSpecificConfig := None |}).
Qed.
Lemma containerless_providers_witness :
  match setInternalProviders sampleConstructors sampleConstants relativeCommand
          sampleBin
          (setConfigsContainerless rulesOS
             (provConfigOf sampleSettings sampleConstants relativeCommand sampleBin))
  with
  | Returned (_, locations) => locations = ["app"; "/work/app"; "/work/app"]
  | Exited _ => False
  end.
Proof.
  destruct (containerless_providers rulesOS sampleRuntime sampleConstructors
              sampleSettings sampleConstants relativeCommand sampleBin ∅
              {[ "/work/out/settings.json" := "[]" ]}
              (setConfigsContainerless rulesOS
                 (provConfigOf sampleSettings sampleConstants relativeCommand
                    sampleBin)))
    as (_ & _ & Hp); [discriminate|vm_compute; reflexivity|].
  cbn [GetProviderClient sampleConstructors] in Hp. rewrite Hp.
  vm_compute. reflexivity.
Defined.

(** ** The rules directory and the binaries of the containerless mode *)

(** A rules directory that does not exist. The walk then calls its
    function once, with a nil entry, and the function dereferences it:
    listing the labels in the container panics. The containerless
    listing asks [os.Stat] first and returns its error when that says
    that the path does not exist; when [os.Stat] fails for another
    reason it walks and panics as well. *)
Theorem missing_rules_directory (os : OS) (w : Walker) (h : Host)
    (c : binConstants) (b : binFields) (fs : FS) (label : string)
    (err : option error) (rest : list walkCall) :
  os_Stat os (filepath_Join (kantraDir b) (RulesetsLocation c)) = None ->
  WalkDir w (filepath_Join (kantraDir b) (RulesetsLocation c))
  = (filepath_Join (kantraDir b) (RulesetsLocation c), None, err) :: rest ->
  readRuleFilesForLabels os w fs (filepath_Join (kantraDir b) (RulesetsLocation c))
    label = Panic
  /\ walkRuleFilesForLabelsContainerless os w h c b fs label
     = if os_Stat_IsNotExist h (filepath_Join (kantraDir b) (RulesetsLocation c))
       then Done ([], Some (os_Stat_error h
                              (filepath_Join (kantraDir b) (RulesetsLocation c))))
       else Panic.
Proof.
  intros Hstat Hwalk.
  assert (Hp : readRuleFilesForLabels os w fs
                 (filepath_Join (kantraDir b) (RulesetsLocation c)) label = Panic)
    by (unfold readRuleFilesForLabels; now rewrite Hwalk).
  split; [exact Hp|].
  unfold walkRuleFilesForLabelsContainerless. rewrite Hstat.
  now destruct (os_Stat_IsNotExist h _).
Qed.

Lemma missing_rules_directory_witness :
  readRuleFilesForLabels kantraOS sampleWalker ∅ "/work/.kantra/rulesets"
    "konveyor.io/source" = Panic
  /\ walkRuleFilesForLabelsContainerless kantraOS sampleWalker sampleHost
       sampleConstants sampleBin ∅ "konveyor.io/source"
     = Done ([], Some "stat /work/.kantra/rulesets: no such file or directory").
Proof.
  apply (missing_rules_directory kantraOS sampleWalker sampleHost sampleConstants
           sampleBin ∅ "konveyor.io/source" (Some "no such file or directory") []).
  - vm_compute. reflexivity.
  - vm_compute. reflexivity.
Defined.

Lemma checkBins_None (os : OS) (h : Host) (m : gmap string string)
    (keys : list string) :
  checkBins os h m keys = None
  <-> forall k v, k ∈ keys -> m !! k = Some v -> checkBin os h v = None.
Proof.
  induction keys as [|k keys IH]; cbn [checkBins].
  - split; [intros _ k v Hk; now apply elem_of_nil in Hk|reflexivity].
  - destruct (m !! k) as [v|] eqn:Hk.
    + destruct (checkBin os h v) as [e|] eqn:Hv.
      * split; [discriminate|]. intros H.
        rewrite <- Hv. apply (H k v); [now left|exact Hk].
      * rewrite IH. split.
        { intros H k' v' [->|Hk']%elem_of_cons Hm; [congruence|eauto]. }
        { intros H k' v' Hk' Hm. apply (H k' v'); [now right|exact Hm]. }
    + rewrite IH. split.
      * intros H k' v' [->|Hk']%elem_of_cons Hm; [congruence|eauto].
      * intros H k' v' Hk' Hm. apply (H k' v'); [now right|exact Hm].
Qed.

(** [setBinMapContainerless] puts the bundle and the language server
    into [reqMap], whatever it returns, and then checks every value of
    the map, also those that were there before. In whatever order the
    map is visited, the result is nil exactly when [os.Stat] answers for
    every value with something that is not a directory; the order only
    decides which error is returned when several values fail. *)
Theorem setBinMapContainerless_nil_iff (os : OS) (h : Host) (c : binConstants)
    (b : binFields) (keys : list string) :
  (forall k, is_Some (reqMap (setBinMapContainerless os h c b keys).1 !! k)
             -> k ∈ keys) ->
  req (setBinMapContainerless os h c b keys).1 "bundle"
  = filepath_Join (kantraDir b) (JavaBundlesLocation c)
  /\ req (setBinMapContainerless os h c b keys).1 "jdtls"
     = filepath_Join (kantraDir b) (JDTLSBinLocation c)
  /\ (forall k, k <> "bundle" -> k <> "jdtls" ->
        reqMap (setBinMapContainerless os h c b keys).1 !! k = reqMap b !! k)
  /\ ((setBinMapContainerless os h c b keys).2 = None
      <-> forall k v,
            reqMap (setBinMapContainerless os h c b keys).1 !! k = Some v ->
            os_Stat os v = Some {| IsDir := false |}).
Proof.
  unfold setBinMapContainerless, req. cbn [fst snd reqMap withReqMap].
  intros Hkeys. split; [|split; [|split]].
  - rewrite lookup_insert_ne, lookup_insert_eq by discriminate. reflexivity.
  - rewrite lookup_insert_eq. reflexivity.
  - intros k Hb Hj. now rewrite !lookup_insert_ne by congruence.
  - rewrite checkBins_None. split.
    + intros H k v Hk. specialize (H k v (Hkeys k (mk_is_Some _ _ Hk)) Hk).
      unfold checkBin in H. destruct (os_Stat os v) as [[[|]]|]; try discriminate H.
      reflexivity.
    + intros H k v _ Hk. unfold checkBin. now rewrite (H k v Hk).
Qed.

Lemma setBinMapContainerless_nil_iff_witness :
  (setBinMapContainerless kantraOS sampleHost sampleConstants sampleBin
     ["jdtls"; "bundle"]).2 = None.
Proof.
  apply (setBinMapContainerless_nil_iff kantraOS sampleHost sampleConstants sampleBin
           ["jdtls"; "bundle"]).
  - intros k [v Hk]. cbn [setBinMapContainerless fst reqMap withReqMap sampleBin] in Hk.
    destruct (decide (k = "jdtls")) as [->|Hj]; [now left|].
    destruct (decide (k = "bundle")) as [->|Hb]; [right; now left|].
    rewrite !lookup_insert_ne, lookup_empty in Hk by congruence. discriminate Hk.
  - intros k v Hk. cbn [setBinMapContainerless fst reqMap withReqMap sampleBin] in Hk.
    destruct (decide (k = "jdtls")) as [->|Hj].
    { rewrite lookup_insert_eq in Hk. injection Hk as <-. vm_compute. reflexivity. }
    destruct (decide (k = "bundle")) as [->|Hb].
    { rewrite lookup_insert_ne, lookup_insert_eq in Hk by congruence.
      injection Hk as <-. vm_compute. reflexivity. }
    rewrite !lookup_insert_ne, lookup_empty in Hk by congruence. discriminate Hk.
Defined.

(** ** The filters in the label selector *)

Lemma contains_here (s x r : string) :
  dropPrefix x s = Some r -> strings_Contains s x = true.
Proof. intros H. destruct s; cbn; now rewrite H. Qed.

Lemma contains_app_l (p s x : string) :
  strings_Contains s x = true -> strings_Contains (p +:+ s) x = true.
Proof.
  intros H. induction p as [|c p IH]; [exact H|].
  rewrite string_app_cons. cbn [strings_Contains].
  now destruct (dropPrefix x (String c (p +:+ s))).
Qed.

Lemma contains_app_r (s q x : string) :
  strings_Contains s x = true -> strings_Contains (s +:+ q) x = true.
Proof.
  induction s as [|c s IH]; intros H.
  - cbn in H. destruct (dropPrefix x "") as [r|] eqn:Hd; [|discriminate].
    apply dropPrefix_Some in Hd. destruct x; [|discriminate Hd].
    now apply (contains_here _ "" q).
  - cbn [strings_Contains] in H.
    destruct (dropPrefix x (String c s)) as [r|] eqn:Hd.
    + apply dropPrefix_Some in Hd. rewrite Hd, string_app_assoc.
      apply (contains_here _ x (r +:+ q)), dropPrefix_app.
    + rewrite string_app_cons. cbn [strings_Contains].
      destruct (dropPrefix x (String c (s +:+ q))); [reflexivity|]. now apply IH.
Qed.

Lemma contains_self (x : string) : strings_Contains x x = true.
Proof.
  apply (contains_here x x "").
  induction x as [|c x IH]; [reflexivity|]. cbn. now rewrite Ascii.eqb_refl.
Qed.

Lemma contains_concat (sep x : string) (l : list string) :
  x ∈ l -> strings_Contains (String.concat sep l) x = true.
Proof.
  induction l as [|y l IH]; intros Hx; [now apply elem_of_nil in Hx|].
  destruct l as [|z l].
  - apply list_elem_of_singleton in Hx. subst y. apply contains_self.
  - change (String.concat sep (y :: z :: l))
      with (y +:+ sep +:+ String.concat sep (z :: l)).
    apply elem_of_cons in Hx as [->|Hx].
    + apply contains_app_r, contains_self.
    + apply contains_app_l, contains_app_l. now apply IH.
Qed.

Lemma sprintf_and_or_discovery (x y : string) :
  sprintf_and_or x y "discovery"
  = ("(" +:+ x +:+ " && " +:+ y +:+ ")") +:+ " || (discovery)".
Proof.
  unfold sprintf_and_or.
  rewrite (string_app_assoc "(" (x +:+ " && " +:+ y +:+ ")") " || (discovery)").
  rewrite (string_app_assoc x (" && " +:+ y +:+ ")") " || (discovery)").
  rewrite (string_app_assoc " && " (y +:+ ")") " || (discovery)").
  rewrite (string_app_assoc y ")" " || (discovery)").
  reflexivity.
Qed.

(** No filter is lost on the way into the label selector: for every
    source given, the expression holds the source label, an equals sign
    and that source, and likewise for every target; and an expression
    that is not empty ends in the alternative of the discovery rules. *)
Theorem label_selector_keeps_filters (lbl : outputv1) (a : analyzeCommand) :
  (forall src, src ∈ sources a ->
     strings_Contains (getLabelSelector lbl a)
       (sprintf_eq (SourceTechnologyLabel lbl) src) = true)
  /\ (forall tgt, tgt ∈ targets a ->
        strings_Contains (getLabelSelector lbl a)
          (sprintf_eq (TargetTechnologyLabel lbl) tgt) = true)
  /\ (getLabelSelector lbl a <> "" ->
      exists expr, getLabelSelector lbl a = expr +:+ " || (discovery)").
Proof.
  assert (Hjoin : forall label (l : list string) x, x ∈ l ->
            strings_Contains
              (sprintf_paren (strings_Join (map (sprintf_eq label) l) " || "))
              (sprintf_eq label x) = true).
  { intros label l x Hx. unfold sprintf_paren, strings_Join.
    apply contains_app_l, contains_app_r, contains_concat.
    apply list_elem_of_In, in_map, list_elem_of_In, Hx. }
  unfold getLabelSelector.
  destruct (sources a) as [|s ss] eqn:Hs, (targets a) as [|t ts] eqn:Ht;
    cbn [nonempty negb andb map nonblank].
  - repeat split; [intros x Hx; now apply elem_of_nil in Hx..|].
    intros H. now destruct H.
  - assert (Hnb : nonblank (sprintf_paren
                     (strings_Join (map (sprintf_eq (TargetTechnologyLabel lbl))
                                      (t :: ts)) " || ")) = true) by reflexivity.
    cbn [map] in Hnb. rewrite Hnb. cbn [nonblank]. repeat split.
    + intros x Hx. now apply elem_of_nil in Hx.
    + intros x Hx. unfold sprintf_and_or.
      apply contains_app_l, contains_app_r. now apply (Hjoin _ (t :: ts)).
    + intros _. unfold sprintf_and_or, strings_Join. cbn [String.concat].
      eexists. apply sprintf_and_or_discovery.
  - cbn [nonblank].
    assert (Hnb : nonblank (sprintf_paren
                     (strings_Join (map (sprintf_eq (SourceTechnologyLabel lbl))
                                      (s :: ss)) " || ")) = true) by reflexivity.
    cbn [map] in Hnb. rewrite Hnb. repeat split.
    + intros x Hx. unfold sprintf_or.
      apply contains_app_r. now apply (Hjoin _ (s :: ss)).
    + intros x Hx. now apply elem_of_nil in Hx.
    + intros _. unfold sprintf_or, strings_Join. cbn [String.concat].
      exists (sprintf_paren
                (strings_Join (map (sprintf_eq (SourceTechnologyLabel lbl)) (s :: ss))
                   " || ")).
      reflexivity.
  - assert (Hnt : nonblank (sprintf_paren
                     (strings_Join (map (sprintf_eq (TargetTechnologyLabel lbl))
                                      (t :: ts)) " || ")) = true) by reflexivity.
    assert (Hns : nonblank (sprintf_paren
                     (strings_Join (map (sprintf_eq (SourceTechnologyLabel lbl))
                                      (s :: ss)) " || ")) = true) by reflexivity.
    cbn [map] in Hnt, Hns. rewrite Hnt, Hns. repeat split.
    + intros x Hx. unfold sprintf_and_or.
      apply contains_app_l, contains_app_l, contains_app_l, contains_app_r.
      now apply (Hjoin _ (s :: ss)).
    + intros x Hx. unfold sprintf_and_or.
      apply contains_app_l, contains_app_r. now apply (Hjoin _ (t :: ts)).
    + intros _. unfold sprintf_and_or, strings_Join. cbn [String.concat].
      eexists. apply sprintf_and_or_discovery.
Qed.
